(** * DeepDetect model repository ([src/mlmodel.h], class [dd::MLModel])

    A shallow embedding of the class [MLModel]: the correspondence table
    ([read_corresp_file], [get_hcorresp]), the repository initialisation
    ([init_repo_dir]), the configuration overlay ([read_config_json]) and
    the similarity-search life cycle ([create_sim_search], [create_index],
    [build_index], [remove_index]).

    Build configuration of the embedding: [USE_SIMSEARCH] is defined with
    exactly one of [USE_ANNOY] and [USE_FAISS] (the field [_se] has no
    declaration otherwise), and [WIN32] is not defined, which is the build
    in which [utils/httpclient.hpp] is included.

    The classes the header only includes ([APIData], [fileops],
    [httpclient], rapidjson, the search backends, the logger) are
    collaborators: their operations are parameters of the development. *)

From Stdlib Require Import ZArith String Ascii List Bool Lia DecimalString.
From Stdlib Require Import DecimalPos.
From stdpp Require Import base option gmap strings.

Local Open Scope string_scope.
Local Open Scope Z_scope.

(** ** [std::string] operations used by the class *)

Module Str.

(** [s.find(c)] for a character [c]: the first position holding [c];
    [None] stands for [std::string::npos]. *)
Fixpoint find_char (c : ascii) (s : string) : option nat :=
  match s with
  | EmptyString => None
  | String a r =>
      if Ascii.eqb a c then Some 0%nat else option_map S (find_char c r)
  end.

(** [s.find_last_of(c)] for a one-character set. *)
Fixpoint find_last_of (c : ascii) (s : string) : option nat :=
  match s with
  | EmptyString => None
  | String a r =>
      match find_last_of c r with
      | Some p => Some (S p)
      | None => if Ascii.eqb a c then Some 0%nat else None
      end
  end.

(** [r + 1] in [size_t] arithmetic, where [r] is the result of a search:
    [npos] is the largest [size_t], so [npos + 1] wraps around to [0]. *)
Definition succ_pos (r : option nat) : nat :=
  match r with
  | Some p => S p
  | None => 0%nat
  end.

(** [s.substr(pos)]: the characters from [pos] on.  The standard function
    throws when [pos > s.size()]; every call of the class passes a
    position within the string ([succ_pos_le] below). *)
Fixpoint substr_from (pos : nat) (s : string) : string :=
  match pos, s with
  | O, _ => s
  | S p, String _ r => substr_from p r
  | S _, EmptyString => EmptyString
  end.

(** [s.substr(0, n)] where [n] is the result of a search: the first [n]
    characters, the whole string for [npos]. *)
Fixpoint take (n : nat) (s : string) : string :=
  match n, s with
  | S p, String a r => String a (take p r)
  | _, _ => EmptyString
  end.

Definition substr_to (r : option nat) (s : string) : string :=
  match r with
  | Some n => take n s
  | None => s
  end.

(** [s.find(pat) != std::string::npos]: [pat] occurs somewhere in [s]. *)
Fixpoint contains (pat s : string) : bool :=
  String.prefix pat s ||
  match s with
  | EmptyString => false
  | String _ r => contains pat r
  end.

(** [s.empty()] *)
Definition empty (s : string) : bool :=
  match s with
  | EmptyString => true
  | String _ _ => false
  end.

(** [std::to_string(i)] for an [int]: the decimal digits, with a leading
    minus sign for a negative number. *)
Definition to_string (i : Z) : string :=
  NilZero.string_of_int (Z.to_int i).

End Str.

(** ** [std::stoi] *)

Definition INT_MIN : Z := - 2 ^ 31.
Definition INT_MAX : Z := 2 ^ 31 - 1.

Inductive stoi_result : Type :=
| StoiValue (v : Z)
| StoiInvalidArgument
| StoiOutOfRange.

(** [isspace] and [isdigit] in the "C" locale. *)
Definition isspace (c : ascii) : bool :=
  let n := nat_of_ascii c in
  (n =? 32)%nat || ((9 <=? n)%nat && (n <=? 13)%nat).

Definition isdigit (c : ascii) : bool :=
  let n := nat_of_ascii c in
  (48 <=? n)%nat && (n <=? 57)%nat.

Definition digit_value (c : ascii) : Z := Z.of_nat (nat_of_ascii c) - 48.

Fixpoint skip_spaces (s : string) : string :=
  match s with
  | String c r => if isspace c then skip_spaces r else s
  | EmptyString => EmptyString
  end.

(** The value of the longest prefix of decimal digits, read left to right. *)
Fixpoint digits_value (acc : Z) (s : string) : Z :=
  match s with
  | String c r =>
      if isdigit c then digits_value (10 * acc + digit_value c) r else acc
  | EmptyString => acc
  end.

(** [std::stoi(str)] (base 10): leading white space is skipped, an optional
    sign is read, then the longest run of digits.  No digit at all throws
    [std::invalid_argument]; a value outside [int] throws
    [std::out_of_range]; what follows the digits is ignored. *)
Definition stoi (str : string) : stoi_result :=
  let s := skip_spaces str in
  let '(neg, s) :=
    match s with
    | String "-"%char r => (true, r)
    | String "+"%char r => (false, r)
    | _ => (false, s)
    end in
  match s with
  | String c _ =>
      if isdigit c then
        let v := digits_value 0 s in
        let v := if neg : bool then - v else v in
        if (INT_MIN <=? v) && (v <=? INT_MAX) then StoiValue v
        else StoiOutOfRange
      else StoiInvalidArgument
  | EmptyString => StoiInvalidArgument
  end.

(** ** Reading a text stream line by line *)

Definition newline : ascii := "010"%char.

(** [std::getline(ff, line)] on the unread part [ff] of a stream: the line
    read (the characters before the next newline, which is consumed) and
    what is left of the stream; [None] when the end of the stream was
    reached while reading, which sets [eofbit]. *)
Fixpoint getline (ff : string) : string * option string :=
  match ff with
  | EmptyString => (EmptyString, None)
  | String c r =>
      if Ascii.eqb c newline then (EmptyString, Some r)
      else let '(line, rest) := getline r in (String c line, rest)
  end.

(** The lines that the loop [while (!ff.eof()) std::getline(ff, line)]
    reads, in order: one [getline] per round until [eofbit] is set
    ([stream_lines_getline] below). *)
Fixpoint stream_lines (ff : string) : list string :=
  match ff with
  | EmptyString => [EmptyString]
  | String c r =>
      if Ascii.eqb c newline then EmptyString :: stream_lines r
      else
        match stream_lines r with
        | line :: lines => String c line :: lines
        | [] => [String c EmptyString]
        end
  end.

(** ** Exceptions, outcomes and the collaborators' calls *)

(** The exceptions that leave the methods of the class: the project's
    [MLLibBadParamException], the two that [std::stoi] throws, and whatever
    a search backend throws. *)
Inductive exn : Type :=
| MLLibBadParamException (what : string)
| std_invalid_argument (what : string)
| std_out_of_range (what : string)
| backend_exception (what : string).

(** How a call ends: it returns, it throws, or it dereferences a null
    pointer (undefined behaviour, after which nothing is promised). *)
Inductive outcome (A : Type) : Type :=
| Ret (a : A)
| Throw (e : exn)
| NullDeref.
Arguments Ret {A} a.
Arguments Throw {A} e.
Arguments NullDeref {A}.

(** A [spdlog::logger *]: the constructors pass either [nullptr] or the
    pointer held by the caller's [shared_ptr]. *)
Inductive logger_ptr : Type :=
| nullptr
| live_logger.

Inductive log_level : Type := LvlError | LvlWarn | LvlInfo.

(** The similarity-search backend the build links: [USE_ANNOY], or
    [USE_FAISS] with or without [USE_GPU_FAISS]. *)
Inductive backend : Type :=
| USE_ANNOY
| USE_FAISS (USE_GPU_FAISS : bool).

(** Modelled from the spec: [simsearch.h] is not part of the sources.  The
    backend objects carry the tuning fields that [create_sim_search]
    assigns ("index-type string, on-disk flag, probe count, training-sample
    count, GPU enablement, GPU device list, preload-on-open flag"). *)
Record AnnoySE : Type := {
  _map_populate : bool
}.

Record FaissSE : Type := {
  _index_key : string;
  _train_samples_size : Z;
  _ondisk : bool;
  _nprobe : Z;
  _gpu : bool;
  _gpuids : list Z
}.

Inductive TSE : Type :=
| TAnnoy (a : AnnoySE)
| TFaiss (f : FaissSE).

(** [SearchEngine<TSE>(dim, repo)] with its backend object [_tse]. *)
Record SearchEngine : Type := {
  se_dim : Z;
  se_repo : string;
  _tse : TSE
}.

(** Modelled from the spec: [dto/output_connector.hpp] is not part of the
    sources.  The fields of [DTO::OutputConnector] that the class reads;
    [None] is a field left null by the caller. *)
Record OutputConnector : Type := {
  index_type : option string;
  train_samples : option Z;
  ondisk : option bool;
  nprobe : option Z;
  index_gpu : bool;
  index_gpuid : option (list Z)
}.

(** The calls made to the collaborators, in the order they are made. *)
Inductive event : Type :=
| EvFileExists (path : string)
| EvCreateDir (path : string) (mode : Z)
| EvIsDirectoryWritable (path : string)
| EvHttpGet (url method : string)
| EvOfstreamWrite (path content : string)
| EvUncompress (archive dest : string)
| EvIfstream (path : string)
| EvCerr (msg : string)
| EvLog (lvl : log_level) (fmt : string) (args : list string)
| EvParse (buf : string)
| EvFromRapidJson
| EvNewSearchEngine (b : backend) (dim : Z) (repo : string)
| EvCreateIndex
| EvUpdateIndex
| EvRemoveIndex.

(** What [httpclient::get_call] leaves behind: it returns with the status
    code and the body, or it throws with [outcode] as it stands then. *)
Inductive http_result : Type :=
| HttpReturn (outcode : Z) (content : string)
| HttpThrow (outcode : Z).

(** The object itself: the fields of [MLModel]. *)
Record MLModel : Type := {
  _repo : string;
  _mlmodel_template_repo : string;
  _hcorresp : gmap Z string;
  _corresp : string;
  _best_model_filename : string;
  _se : option SearchEngine;
  _index_preload : bool
}.

(** The member initialisers: what [MLModel()] leaves in the fields. *)
Definition MLModel_default : MLModel := {|
  _repo := "";
  _mlmodel_template_repo := "templates/";
  _hcorresp := ∅;
  _corresp := "";
  _best_model_filename := "/best_model.txt";
  _se := None;
  _index_preload := false
|}.

(** ** The correspondence table *)

(** [_hcorresp.insert(std::pair<int, std::string>(k, v))]: an
    [unordered_map] keeps the entry it already has for [k]. *)
Definition hcorresp_insert (k : Z) (v : string) (h : gmap Z string)
  : gmap Z string :=
  match h !! k with
  | Some _ => h
  | None => <[k := v]> h
  end.

(** [_hcorresp[i]]: the label stored for [i]; an absent [i] is first
    inserted with a default-constructed (empty) string.  The value read and
    the table afterwards. *)
Definition hcorresp_subscript (i : Z) (h : gmap Z string)
  : string * gmap Z string :=
  match h !! i with
  | Some v => (v, h)
  | None => (EmptyString, <[i := EmptyString]> h)
  end.

(** [_hcorresp.empty()] *)
Definition hcorresp_empty (h : gmap Z string) : bool :=
  bool_decide (h = ∅).

Definition set_hcorresp (h : gmap Z string) (m : MLModel) : MLModel := {|
  _repo := _repo m;
  _mlmodel_template_repo := _mlmodel_template_repo m;
  _hcorresp := h;
  _corresp := _corresp m;
  _best_model_filename := _best_model_filename m;
  _se := _se m;
  _index_preload := _index_preload m
|}.

(** [std::string get_hcorresp(const int &i)]: the string returned and the
    object afterwards. *)
Definition get_hcorresp (i : Z) (m : MLModel) : string * MLModel :=
  if hcorresp_empty (_hcorresp m) then (Str.to_string i, m)
  else
    let '(v, h) := hcorresp_subscript i (_hcorresp m) in
    (v, set_hcorresp h m).

(** The key and the value that the body of the loop of
    [read_corresp_file] cuts out of a line. *)
Definition line_key (line : string) : string :=
  Str.substr_to (Str.find_char " " line) line.

Definition line_value (line : string) : string :=
  Str.substr_from (Str.succ_pos (Str.find_char " " line)) line.

(** One round of the loop of [read_corresp_file] once the line is read:
    the table afterwards, or the exception of [std::stoi]. *)
Definition corresp_line (line : string) (h : gmap Z string)
  : outcome (gmap Z string) :=
  let key := line_key line in
  if negb (Str.empty key) then
    let value := line_value line in
    match stoi key with
    | StoiValue k => Ret (hcorresp_insert k value h)
    | StoiInvalidArgument => Throw (std_invalid_argument "stoi")
    | StoiOutOfRange => Throw (std_out_of_range "stoi")
    end
  else Ret h.

(** The rounds of the loop over the lines still to be read: the table when
    the loop stops, and how it stops.  An exception leaves the entries
    inserted so far. *)
Fixpoint corresp_lines (lines : list string) (h : gmap Z string)
  : outcome unit * gmap Z string :=
  match lines with
  | [] => (Ret tt, h)
  | line :: rest =>
      match corresp_line line h with
      | Ret h' => corresp_lines rest h'
      | Throw e => (Throw e, h)
      | NullDeref => (NullDeref, h)
      end
  end.

(** ** The collaborators *)

(** The structured parameter container ([apidata.h]) and the JSON parser,
    at their interface: [has(key)], the typed [get(key)], [getobj(key)],
    [add(key, nested)]; [Parse] gives no document when
    [d.HasParseError()], and [fromRapidJson] gives the message of the
    [RapidjsonException] it throws, or the container it fills. *)
Class ParamStore : Type := {
  APIData : Type;
  ad_has : APIData -> string -> bool;
  ad_get_string : APIData -> string -> string;
  ad_get_bool : APIData -> string -> bool;
  ad_getobj : APIData -> string -> APIData;
  ad_add : APIData -> string -> APIData -> APIData;
  Document : Type;
  Parse : string -> option Document;
  fromRapidJson : Document -> string + APIData
}.

(** The world outside the object (file system, network, index files) and
    the calls that read or change it: [fileops], [httpclient], the file
    streams, and the routines of the search backend. *)
Class Collaborators : Type := {
  World : Type;
  (** [fileops::file_exists(fname)] *)
  fs_file_exists : World -> string -> bool;
  (** [fileops::file_exists(fname, isDir)]: the result and [isDir] *)
  fs_file_exists_dir : World -> string -> bool * bool;
  fs_create_dir : World -> string -> Z -> World;
  fs_is_directory_writable : World -> string -> bool;
  (** [fileops::uncompress(fc, repo)]: the [int] returned, [0] on success *)
  fs_uncompress : World -> string -> string -> Z * World;
  http_get_call : World -> string -> string -> http_result * World;
  (** [std::ofstream mof(path); mof << content; mof.close();] *)
  fs_ofstream_write : World -> string -> string -> World;
  (** [std::ifstream ff(path)]: the content when [ff.is_open()] *)
  fs_ifstream : World -> string -> option string;
  (** the default tuning of a freshly constructed backend object *)
  annoy_new : Z -> string -> AnnoySE;
  faiss_new : Z -> string -> FaissSE;
  (** the routines of [SearchEngine]; [Some e] when they throw [e] *)
  se_create_index : SearchEngine -> World -> option exn * World;
  se_update_index : SearchEngine -> World -> option exn * World;
  se_remove_index : SearchEngine -> World -> option exn * World
}.

(** ** The state and the monad of the methods *)

Section Methods.

Context {PS : ParamStore} {CO : Collaborators}.

(** The object, the caller's mutable parameter set (the [APIData &adg]
    of the constructor), the world and the calls made so far. *)
Record state : Type := {
  self : MLModel;
  adg : APIData;
  world : World;
  trace : list event
}.

Definition M (A : Type) : Type := state -> outcome A * state.

Definition ret {A} (a : A) : M A := fun s => (Ret a, s).

Definition bind {A B} (m : M A) (k : A -> M B) : M B :=
  fun s =>
    match m s with
    | (Ret a, s') => k a s'
    | (Throw e, s') => (Throw e, s')
    | (NullDeref, s') => (NullDeref, s')
    end.

Definition throw {A} (e : exn) : M A := fun s => (Throw e, s).

Definition null_deref {A} : M A := fun s => (NullDeref, s).

Definition get_self : M MLModel := fun s => (Ret (self s), s).

Definition put_self (m : MLModel) : M unit :=
  fun s => (Ret tt, {| self := m; adg := adg s;
                        world := world s; trace := trace s |}).

Definition get_adg : M APIData := fun s => (Ret (adg s), s).

Definition put_adg (a : APIData) : M unit :=
  fun s => (Ret tt, {| self := self s; adg := a;
                        world := world s; trace := trace s |}).

(** A call that reads the world. *)
Definition query {A} (ev : event) (f : World -> A) : M A :=
  fun s => (Ret (f (world s)),
            {| self := self s; adg := adg s;
               world := world s; trace := trace s ++ [ev] |}).

(** A call that may change the world. *)
Definition action {A} (ev : event) (f : World -> A * World) : M A :=
  fun s => let '(a, w) := f (world s) in
           (Ret a, {| self := self s; adg := adg s;
                      world := w; trace := trace s ++ [ev] |}).

Definition emit (ev : event) : M unit := query ev (fun _ => tt).

End Methods.

Declare Scope mlmodel_scope.
Delimit Scope mlmodel_scope with mlmodel.
Notation "x <- m ;; k" := (bind m (fun x => k))
  (at level 100, m at next level, right associativity) : mlmodel_scope.
Notation "m ;; k" := (bind m (fun _ => k))
  (at level 100, right associativity) : mlmodel_scope.
Local Open Scope mlmodel_scope.

(** ** The methods of [MLModel] *)

Definition set_repo (repo : string) (m : MLModel) : MLModel := {|
  _repo := repo;
  _mlmodel_template_repo := _mlmodel_template_repo m;
  _hcorresp := _hcorresp m;
  _corresp := _corresp m;
  _best_model_filename := _best_model_filename m;
  _se := _se m;
  _index_preload := _index_preload m
|}.

Definition set_index_preload (b : bool) (m : MLModel) : MLModel := {|
  _repo := _repo m;
  _mlmodel_template_repo := _mlmodel_template_repo m;
  _hcorresp := _hcorresp m;
  _corresp := _corresp m;
  _best_model_filename := _best_model_filename m;
  _se := _se m;
  _index_preload := b
|}.

Definition set_se (se : option SearchEngine) (m : MLModel) : MLModel := {|
  _repo := _repo m;
  _mlmodel_template_repo := _mlmodel_template_repo m;
  _hcorresp := _hcorresp m;
  _corresp := _corresp m;
  _best_model_filename := _best_model_filename m;
  _se := se;
  _index_preload := _index_preload m
|}.

(** The permission bits [0775] given to [fileops::create_dir]. *)
Definition mode_0775 : Z := 7 * 64 + 7 * 8 + 5.

Section Repository.

Context {PS : ParamStore} {CO : Collaborators}.

(** [logger->error(...)], [logger->warn(...)], [logger->info(...)]: a call
    through the pointer, whatever it holds. *)
Definition logger_call (logger : logger_ptr) (lvl : log_level)
    (fmt : string) (args : list string) : M unit :=
  match logger with
  | nullptr => null_deref
  | live_logger => emit (EvLog lvl fmt args)
  end.

(** [if (logger) ...] *)
Definition if_logger (logger : logger_ptr) (m : M unit) : M unit :=
  match logger with
  | nullptr => ret tt
  | live_logger => m
  end.

(** [void read_corresp_file()] *)
Definition read_corresp_file : M unit :=
  m <- get_self ;;
  if negb (Str.empty (_corresp m)) then
    ff <- query (EvIfstream (_corresp m))
                (fun w => fs_ifstream w (_corresp m)) ;;
    match ff with
    | None => emit (EvCerr ("cannot open model corresp file=" ++ _corresp m))
    | Some content =>
        fun s =>
          let '(o, h) :=
            corresp_lines (stream_lines content) (_hcorresp (self s)) in
          (o, {| self := set_hcorresp h (self s); adg := adg s;
                 world := world s; trace := trace s |})
    end
  else ret tt.

(** The three schemes that [init_repo_dir] looks for in the locator. *)
Definition has_fetch_scheme (compressedf : string) : bool :=
  Str.contains "https://" compressedf
  || Str.contains "http://" compressedf
  || Str.contains "file://" compressedf.

(** [compressedf.substr(compressedf.find_last_of("/") + 1)] *)
Definition base_model_fname (compressedf : string) : string :=
  Str.substr_from (Str.succ_pos (Str.find_last_of "/" compressedf))
                  compressedf.

(** The block [if (ad.has("init")) { ... }] of [init_repo_dir]: the
    installation from the model archive. *)
Definition install_archive (ad : APIData) (logger : logger_ptr) : M unit :=
  m <- get_self ;;
  let repo := _repo m in
  let compressedf := ad_get_string ad "init" in
  (* check whether already in the directory *)
  let modelf := repo ++ "/" ++ base_model_fname compressedf in
  staged <- query (EvFileExists modelf) (fun w => fs_file_exists w modelf) ;;
  compressedf <-
    (if staged : bool then
       if_logger logger
         (logger_call logger LvlWarn
            "Init model {} is already in directory, not fetching it"
            [modelf]) ;;
       ret modelf
     else ret compressedf) ;;
  compressedf <-
    (if has_fetch_scheme compressedf then
       if_logger logger
         (logger_call logger LvlInfo "Downloading init model {}"
            [compressedf]) ;;
       r <- action (EvHttpGet compressedf "GET")
                   (fun w => http_get_call w compressedf "GET") ;;
       match r with
       | HttpThrow outcode =>
           let errmsg := "failed fetching model archive: " ++ compressedf
                         ++ " with code: " ++ Str.to_string outcode in
           logger_call logger LvlError errmsg [] ;;
           throw (MLLibBadParamException errmsg)
       | HttpReturn _ content =>
           action (EvOfstreamWrite modelf content)
                  (fun w => (tt, fs_ofstream_write w modelf content)) ;;
           ret modelf
       end
     else ret compressedf) ;;
  failed <- action (EvUncompress compressedf repo)
                   (fun w => fs_uncompress w compressedf repo) ;;
  if negb (failed =? 0) then
    let errmsg := "failed installing model from archive, "
                  ++ "check 'init' argument " ++ "to model" in
    logger_call logger LvlError errmsg [] ;;
    throw (MLLibBadParamException errmsg)
  else ret tt.

(** [void init_repo_dir(const APIData &ad, spdlog::logger *logger)] *)
Definition init_repo_dir (ad : APIData) (logger : logger_ptr) : M unit :=
  (* auto-creation of model directory *)
  m <- get_self ;;
  let repo := ad_get_string ad "repository" in
  put_self (set_repo repo m) ;;
  let create :=
    ad_has ad "create_repository" && ad_get_bool ad "create_repository" in
  r <- query (EvFileExists repo) (fun w => fs_file_exists_dir w repo) ;;
  let '(exists_, isDir) := r in
  (if exists_ && negb isDir then
     let errmsg := "file exists with same name as repository " ++ repo in
     logger_call logger LvlError errmsg [] ;;
     throw (MLLibBadParamException errmsg)
   else ret tt) ;;
  (if negb exists_ && create then
     action (EvCreateDir repo mode_0775)
            (fun w => (tt, fs_create_dir w repo mode_0775))
   else ret tt) ;;
  writable <- query (EvIsDirectoryWritable repo)
                    (fun w => fs_is_directory_writable w repo) ;;
  (if negb writable then
     let errmsg := "destination model directory " ++ repo
                   ++ " is not writable" in
     logger_call logger LvlError errmsg [] ;;
     throw (MLLibBadParamException errmsg)
   else ret tt) ;;
  (if ad_has ad "index_preload" && ad_get_bool ad "index_preload" then
     m <- get_self ;; put_self (set_index_preload true m)
   else ret tt) ;;
  (* auto-install from model archive *)
  if ad_has ad "init" then install_archive ad logger else ret tt.

(** [void read_config_json(APIData &adg, const std::shared_ptr<spdlog::logger> &logger)];
    the parameter set [adg] is the one of the state. *)
Definition read_config_json (logger : logger_ptr) : M unit :=
  m <- get_self ;;
  let cf := _repo m ++ "/config.json" in
  present <- query (EvFileExists cf) (fun w => fs_file_exists w cf) ;;
  if negb present then ret tt
  else
    is_ <- query (EvIfstream cf) (fun w => fs_ifstream w cf) ;;
    let jbuf := match is_ with Some content => content | None => "" end in
    d <- query (EvParse jbuf) (fun _ => Parse jbuf) ;;
    match d with
    | None =>
        logger_call logger LvlError
          "config.json parsing error on string: {}" [jbuf] ;;
        throw (MLLibBadParamException ("Failed parsing config file " ++ cf))
    | Some d =>
        adcj <- query EvFromRapidJson (fun _ => fromRapidJson d) ;;
        match adcj with
        | inl what =>
            logger_call logger LvlError "JSON error {}" [what] ;;
            throw (MLLibBadParamException
                     "Failed converting JSON file to internal data format")
        | inr adcj =>
            let adcj_parameters := ad_getobj adcj "parameters" in
            a <- get_adg ;;
            put_adg (ad_add a "parameters" adcj_parameters)
        end
    end.

(** The state in which a constructor starts: the fields hold their
    initialisers, nothing has been called yet. *)
Definition fresh (m : MLModel) (a : APIData) (w : World) : state :=
  {| self := m; adg := a; world := w; trace := [] |}.

(** [MLModel(const APIData &ad, APIData &adg, const std::shared_ptr<spdlog::logger> &logger)] *)
Definition MLModel_ad_adg_logger (ad : APIData) (logger : logger_ptr)
  : M unit :=
  init_repo_dir ad logger ;;
  if ad_has ad "init" then read_config_json logger else ret tt.

(** [MLModel(const APIData &ad)] *)
Definition MLModel_ad (ad : APIData) : M unit :=
  init_repo_dir ad nullptr.

(** [MLModel(const APIData &ad, const std::string &repo)], after the
    initialiser [_repo(repo)]. *)
Definition MLModel_ad_repo (ad : APIData) (repo : string) : M unit :=
  m <- get_self ;;
  put_self (set_repo repo m) ;;
  init_repo_dir ad nullptr.

End Repository.

(** ** The similarity-search index *)

Definition with_map_populate (b : bool) (a : AnnoySE) : AnnoySE := {|
  _map_populate := b
|}.

Definition with_index_key (k : string) (f : FaissSE) : FaissSE := {|
  _index_key := k;
  _train_samples_size := _train_samples_size f;
  _ondisk := _ondisk f;
  _nprobe := _nprobe f;
  _gpu := _gpu f;
  _gpuids := _gpuids f
|}.

Definition with_train_samples_size (n : Z) (f : FaissSE) : FaissSE := {|
  _index_key := _index_key f;
  _train_samples_size := n;
  _ondisk := _ondisk f;
  _nprobe := _nprobe f;
  _gpu := _gpu f;
  _gpuids := _gpuids f
|}.

Definition with_ondisk (b : bool) (f : FaissSE) : FaissSE := {|
  _index_key := _index_key f;
  _train_samples_size := _train_samples_size f;
  _ondisk := b;
  _nprobe := _nprobe f;
  _gpu := _gpu f;
  _gpuids := _gpuids f
|}.

Definition with_nprobe (n : Z) (f : FaissSE) : FaissSE := {|
  _index_key := _index_key f;
  _train_samples_size := _train_samples_size f;
  _ondisk := _ondisk f;
  _nprobe := n;
  _gpu := _gpu f;
  _gpuids := _gpuids f
|}.

Definition with_gpu (b : bool) (f : FaissSE) : FaissSE := {|
  _index_key := _index_key f;
  _train_samples_size := _train_samples_size f;
  _ondisk := _ondisk f;
  _nprobe := _nprobe f;
  _gpu := b;
  _gpuids := _gpuids f
|}.

Definition with_gpuids (ids : list Z) (f : FaissSE) : FaissSE := {|
  _index_key := _index_key f;
  _train_samples_size := _train_samples_size f;
  _ondisk := _ondisk f;
  _nprobe := _nprobe f;
  _gpu := _gpu f;
  _gpuids := ids
|}.

(** [if (field != nullptr) target = field;] *)
Definition if_set {A B : Type} (field : option A) (assign : A -> B -> B)
    (target : B) : B :=
  match field with
  | Some v => assign v target
  | None => target
  end.

(** The assignments to [_se->_tse] under [USE_FAISS], in the order of the
    source; those of [USE_GPU_FAISS] when [gpu_build] holds. *)
Definition tune_faiss (gpu_build : bool) (output_params : OutputConnector)
    (f : FaissSE) : FaissSE :=
  let f := if_set (index_type output_params) with_index_key f in
  let f := if_set (train_samples output_params) with_train_samples_size f in
  let f := if_set (ondisk output_params) with_ondisk f in
  let f := if_set (nprobe output_params) with_nprobe f in
  if gpu_build then
    let f := with_gpu (index_gpu output_params) f in
    if_set (index_gpuid output_params)
           (fun ids f => with_gpuids ids (with_gpu true f)) f
  else f.

Inductive lifecycle_op : Type :=
| OpCreateSimSearch (dim : Z) (output_params : OutputConnector)
| OpCreateIndex
| OpBuildIndex
| OpRemoveIndex.

Section SimSearch.

Context {PS : ParamStore} {CO : Collaborators}.

(** The backend that the build selects. *)
Variable BUILD : backend.

(** A call of a routine of the search engine, which may throw. *)
Definition backend_call (ev : event)
    (f : SearchEngine -> World -> option exn * World) (se : SearchEngine)
  : M unit :=
  r <- action ev (f se) ;;
  match r with
  | None => ret tt
  | Some e => throw e
  end.

(** The object that [create_sim_search] builds and tunes before it calls
    [create_index] on it. *)
Definition tuned_SearchEngine (m : MLModel) (dim : Z)
    (output_params : OutputConnector) : SearchEngine :=
  match BUILD with
  | USE_ANNOY =>
      {| se_dim := dim; se_repo := _repo m;
         _tse := TAnnoy (with_map_populate (_index_preload m)
                                           (annoy_new dim (_repo m))) |}
  | USE_FAISS gpu_build =>
      {| se_dim := dim; se_repo := _repo m;
         _tse := TFaiss (tune_faiss gpu_build output_params
                                    (faiss_new dim (_repo m))) |}
  end.

(** [void create_sim_search(const int &dim, oatpp::Object<DTO::OutputConnector> output_params)] *)
Definition create_sim_search (dim : Z) (output_params : OutputConnector)
  : M unit :=
  m <- get_self ;;
  match _se m with
  | None =>
      emit (EvNewSearchEngine BUILD dim (_repo m)) ;;
      let se := tuned_SearchEngine m dim output_params in
      put_self (set_se (Some se) m) ;;
      backend_call EvCreateIndex se_create_index se
  | Some _ => ret tt
  end.

(** [void create_index()] *)
Definition create_index : M unit :=
  m <- get_self ;;
  match _se m with
  | Some se => backend_call EvCreateIndex se_create_index se
  | None => ret tt
  end.

(** [void build_index()] *)
Definition build_index : M unit :=
  m <- get_self ;;
  match _se m with
  | Some se => backend_call EvUpdateIndex se_update_index se
  | None => ret tt
  end.

(** [void remove_index()] *)
Definition remove_index : M unit :=
  m <- get_self ;;
  match _se m with
  | Some se => backend_call EvRemoveIndex se_remove_index se
  | None => ret tt
  end.

(** A caller that uses the index operations one after the other on the
    same object, going on after an exception. *)
Definition run_op (op : lifecycle_op) : M unit :=
  match op with
  | OpCreateSimSearch dim output_params => create_sim_search dim output_params
  | OpCreateIndex => create_index
  | OpBuildIndex => build_index
  | OpRemoveIndex => remove_index
  end.

Fixpoint run_ops (ops : list lifecycle_op) (s : state) : state :=
  match ops with
  | [] => s
  | op :: rest => run_ops rest (snd (run_op op s))
  end.

End SimSearch.

(** The number of search-engine objects constructed in a trace. *)
Definition is_new_SearchEngine (ev : event) : bool :=
  match ev with
  | EvNewSearchEngine _ _ _ => true
  | _ => false
  end.

Definition constructed (tr : list event) : nat :=
  length (List.filter is_new_SearchEngine tr).

(** ** Predicates used by the statements *)

(** A line passes the body of the loop when its key is empty (the line is
    skipped) or [std::stoi] reads a number from the key. *)
Definition key_parses (key : string) : bool :=
  match stoi key with
  | StoiValue _ => true
  | _ => false
  end.

Definition line_passes (line : string) : bool :=
  Str.empty (line_key line) || key_parses (line_key line).

Definition is_stoi_exception (e : exn) : Prop :=
  e = std_invalid_argument "stoi" \/ e = std_out_of_range "stoi".

(** "A valid integer", in the words of the specification and not of the
    code: the decimal numeral of an [int] and nothing else, that is an
    optional sign followed by one or more decimal digits, whose value lies
    between [INT_MIN] and [INT_MAX].  It is compared below with the keys
    from which [std::stoi] reads a number. *)
Fixpoint all_digits (s : string) : bool :=
  match s with
  | String c r => isdigit c && all_digits r
  | EmptyString => true
  end.

Fixpoint numeral_value (acc : Z) (ds : string) : Z :=
  match ds with
  | String c r => numeral_value (10 * acc + digit_value c) r
  | EmptyString => acc
  end.

Definition integer_value (body : string) : Z :=
  match body with
  | String "-"%char ds => - numeral_value 0 ds
  | String "+"%char ds => numeral_value 0 ds
  | _ => numeral_value 0 body
  end.

Definition valid_integer (body : string) : bool :=
  let ds :=
    match body with
    | String "-"%char ds => ds
    | String "+"%char ds => ds
    | _ => body
    end in
  negb (Str.empty ds) && all_digits ds
  && (INT_MIN <=? integer_value body) && (integer_value body <=? INT_MAX).

(** The keys that [std::stoi] reads as [k], described without the
    function: white space, then a valid integer of value [k], then either
    nothing or text that does not begin with a digit. *)
Fixpoint all_spaces (s : string) : bool :=
  match s with
  | String c r => isspace c && all_spaces r
  | EmptyString => true
  end.

Definition starts_with_digit (s : string) : bool :=
  match s with
  | String c _ => isdigit c
  | EmptyString => false
  end.

Definition integer_prefixed (key : string) (k : Z) : Prop :=
  exists ws body rest : string,
    key = ws ++ body ++ rest
    /\ all_spaces ws = true
    /\ valid_integer body = true
    /\ integer_value body = k
    /\ starts_with_digit rest = false.

(** The repository named by the parameters, the locator of the archive
    and the path under which the archive is staged in the repository:
    [_repo], [compressedf] as first read, and [modelf] in [init_repo_dir]. *)
Definition repository {PS : ParamStore} (ad : APIData) : string :=
  ad_get_string ad "repository".

Definition init_locator {PS : ParamStore} (ad : APIData) : string :=
  ad_get_string ad "init".

Definition staged_path {PS : ParamStore} (ad : APIData) : string :=
  repository ad ++ "/" ++ base_model_fname (init_locator ad).

(** Whether [init_repo_dir] creates the directory: nothing has its name
    and [create_repository] is set. *)
Definition creates_dir {PS : ParamStore} {CO : Collaborators}
    (ad : APIData) (w : World) : bool :=
  negb (fst (fs_file_exists_dir w (repository ad)))
  && (ad_has ad "create_repository" && ad_get_bool ad "create_repository").

(** The world once the directory has been created if it had to be. *)
Definition world_after_create {PS : ParamStore} {CO : Collaborators}
    (ad : APIData) (w : World) : World :=
  if creates_dir ad w then fs_create_dir w (repository ad) mode_0775 else w.

(** A file that is not a directory has the name of the repository. *)
Definition conflict {PS : ParamStore} {CO : Collaborators}
    (ad : APIData) (w : World) : bool :=
  fst (fs_file_exists_dir w (repository ad))
  && negb (snd (fs_file_exists_dir w (repository ad))).

(** The first part of [init_repo_dir] goes through: no such file, and the
    directory is writable once created. *)
Definition checks_pass {PS : ParamStore} {CO : Collaborators}
    (ad : APIData) (w : World) : bool :=
  negb (conflict ad w)
  && fs_is_directory_writable (world_after_create ad w) (repository ad).

(** The state in which [init_repo_dir] comes to the installation from the
    archive when the first part goes through. *)
Definition after_checks {PS : ParamStore} {CO : Collaborators}
    (ad : APIData) (s : state) : state := {|
  self :=
    (if ad_has ad "index_preload" && ad_get_bool ad "index_preload"
     then set_index_preload true (set_repo (repository ad) (self s))
     else set_repo (repository ad) (self s));
  adg := adg s;
  world := world_after_create ad (world s);
  trace :=
    trace s ++ [EvFileExists (repository ad)]
    ++ (if creates_dir ad (world s)
        then [EvCreateDir (repository ad) mode_0775] else [])
    ++ [EvIsDirectoryWritable (repository ad)]
|}.

(** The archive that reaches the fetch decision: the staged copy when
    there is one, the locator otherwise. *)
Definition archive_to_install {PS : ParamStore} {CO : Collaborators}
    (ad : APIData) (w : World) : string :=
  if fs_file_exists w (staged_path ad) then staged_path ad
  else init_locator ad.

(** How the last step of the installation ends on the [int] that
    [fileops::uncompress] returns, and how a fetch that threw ends. *)
Definition extraction_outcome (logger : logger_ptr) (failed : Z)
  : outcome unit :=
  if negb (failed =? 0) then
    match logger with
    | nullptr => NullDeref
    | live_logger =>
        Throw (MLLibBadParamException
                 "failed installing model from archive, check 'init' argument to model")
    end
  else Ret tt.

Definition fetch_failure_outcome (logger : logger_ptr) (compressedf : string)
    (outcode : Z) : outcome unit :=
  match logger with
  | nullptr => NullDeref
  | live_logger =>
      Throw (MLLibBadParamException
               ("failed fetching model archive: " ++ compressedf
                ++ " with code: " ++ Str.to_string outcode))
  end.

Definition is_http_get (ev : event) : bool :=
  match ev with
  | EvHttpGet _ _ => true
  | _ => false
  end.

Definition is_uncompress (ev : event) : bool :=
  match ev with
  | EvUncompress _ _ => true
  | _ => false
  end.

(** The messages that the installation leaves with the logger: the
    notice of a staged archive and the message of a download, both under
    [if (logger)], and the reports of a failed fetch or extraction. *)
Definition staged_notice (logger : logger_ptr) (staged : bool)
    (modelf : string) : list event :=
  if staged then
    match logger with
    | nullptr => []
    | live_logger =>
        [EvLog LvlWarn
               "Init model {} is already in directory, not fetching it"
               [modelf]]
    end
  else [].

Definition download_info (logger : logger_ptr) (compressedf : string)
  : list event :=
  match logger with
  | nullptr => []
  | live_logger => [EvLog LvlInfo "Downloading init model {}" [compressedf]]
  end.

Definition extraction_report (logger : logger_ptr) (failed : Z)
  : list event :=
  if negb (failed =? 0) then
    match logger with
    | nullptr => []
    | live_logger =>
        [EvLog LvlError
               "failed installing model from archive, check 'init' argument to model"
               []]
    end
  else [].

Definition fetch_report (logger : logger_ptr) (compressedf : string)
    (outcode : Z) : list event :=
  match logger with
  | nullptr => []
  | live_logger =>
      [EvLog LvlError
             ("failed fetching model archive: " ++ compressedf
              ++ " with code: " ++ Str.to_string outcode)
             []]
  end.

(** The index objects constructed so far are accounted for by [_se]:
    none while [_se] is null, at most one afterwards. *)
Definition index_invariant {PS : ParamStore} {CO : Collaborators}
    (s : state) : Prop :=
  (constructed (trace s) <= match _se (self s) with
                            | Some _ => 1
                            | None => 0
                            end)%nat.

(** ** Lines, entries and events (for the properties of loading and of
    the initialisation) *)

(** The text of a stream whose lines are [lines]: a newline between two
    lines, none after the last. *)
Fixpoint join_lines (lines : list string) : string :=
  match lines with
  | [] => EmptyString
  | [line] => line
  | line :: rest => line ++ String newline (join_lines rest)
  end.

(** The entry that a line gives to the table, if it gives one. *)
Definition parsed_entry (line : string) : option (Z * string) :=
  if Str.empty (line_key line) then None
  else
    match stoi (line_key line) with
    | StoiValue k => Some (k, line_value line)
    | _ => None
    end.

(** The label of the first line whose key reads as [k]. *)
Fixpoint first_entry (k : Z) (lines : list string) : option string :=
  match lines with
  | [] => None
  | line :: rest =>
      match parsed_entry line with
      | Some (k', v) => if k' =? k then Some v else first_entry k rest
      | None => first_entry k rest
      end
  end.

(** A correspondence file written from a list of entries: one line
    ["<index> <label>"] per entry, each ended by a newline. *)
Definition render_entry (e : Z * string) : string :=
  Str.to_string (fst e) ++ String " " (snd e).

Fixpoint render_file (entries : list (Z * string)) : string :=
  match entries with
  | [] => EmptyString
  | e :: rest => render_entry e ++ String newline (render_file rest)
  end.

(** The label of the first entry with index [k]. *)
Fixpoint assoc_first (k : Z) (entries : list (Z * string)) : option string :=
  match entries with
  | [] => None
  | (k', v) :: rest => if k' =? k then Some v else assoc_first k rest
  end.

(** The calls that a method adds to the trace of the state it starts
    from. *)
Definition new_events {PS : ParamStore} {CO : Collaborators} {A : Type}
    (m : M A) (s : state) : list event :=
  skipn (length (trace s)) (trace (snd (m s))).

Definition is_create_dir (ev : event) : bool :=
  match ev with
  | EvCreateDir _ _ => true
  | _ => false
  end.

Definition is_ofstream_write (ev : event) : bool :=
  match ev with
  | EvOfstreamWrite _ _ => true
  | _ => false
  end.

(** The order of the calls of an installation: the fetch comes first and
    once, the fetched archive is written only after the fetch, the
    extraction comes either without fetch or after the archive is written,
    and nothing of the kind follows the extraction.  [phase] counts the
    steps made: [0] none, [1] fetched, [2] written, [3] extracted. *)
Fixpoint install_order (phase : nat) (evs : list event) : bool :=
  match evs with
  | [] => true
  | EvHttpGet _ _ :: rest =>
      (phase =? 0)%nat && install_order 1 rest
  | EvOfstreamWrite _ _ :: rest =>
      (phase =? 1)%nat && install_order 2 rest
  | EvUncompress _ _ :: rest =>
      ((phase =? 0)%nat || (phase =? 2)%nat) && install_order 3 rest
  | _ :: rest => install_order phase rest
  end.

(** ** A concrete instance of the collaborators

    A small file system (regular files with their content, directories
    with a writable flag, both found by their path as it is spelt), a
    remote store of archives, and a parameter container of strings and
    booleans.  It serves to run the methods on examples. *)

Module Demo.

Inductive value : Type :=
| VString (s : string)
| VBool (b : bool)
| VObject (entries : list (string * string)).

Definition store : Type := list (string * value).

Fixpoint lookup {A : Type} (key : string) (l : list (string * A)) : option A :=
  match l with
  | [] => None
  | (k, v) :: r => if String.eqb k key then Some v else lookup key r
  end.

Definition store_has (ad : store) (key : string) : bool :=
  match lookup key ad with
  | Some _ => true
  | None => false
  end.

Definition store_get_string (ad : store) (key : string) : string :=
  match lookup key ad with
  | Some (VString s) => s
  | _ => ""
  end.

Definition store_get_bool (ad : store) (key : string) : bool :=
  match lookup key ad with
  | Some (VBool b) => b
  | _ => false
  end.

Definition store_getobj (ad : store) (key : string) : store :=
  match lookup key ad with
  | Some (VObject entries) => map (fun '(k, v) => (k, VString v)) entries
  | _ => []
  end.

Definition store_add (ad : store) (key : string) (nested : store) : store :=
  (key, VObject (flat_map (fun '(k, v) =>
                             match v with
                             | VString s => [(k, s)]
                             | _ => []
                             end) nested)) :: ad.

(** The parser of the instance accepts the empty object and nothing else. *)
Definition parse (buf : string) : option store :=
  if String.eqb buf "{}" then Some [] else None.

#[export] Instance param_store : ParamStore := {|
  APIData := store;
  ad_has := store_has;
  ad_get_string := store_get_string;
  ad_get_bool := store_get_bool;
  ad_getobj := store_getobj;
  ad_add := store_add;
  Document := store;
  Parse := parse;
  fromRapidJson := fun d => inr d
|}.

Record fs : Type := {
  files : list (string * string);
  dirs : list (string * bool);
  remote : list (string * string)
}.

Definition file_exists_dir (w : fs) (path : string) : bool * bool :=
  match lookup path (dirs w), lookup path (files w) with
  | Some _, _ => (true, true)
  | None, Some _ => (true, false)
  | None, None => (false, false)
  end.

Definition create_dir (w : fs) (path : string) (mode : Z) : fs :=
  {| files := files w; dirs := (path, true) :: dirs w; remote := remote w |}.

Definition is_directory_writable (w : fs) (path : string) : bool :=
  match lookup path (dirs w) with
  | Some writable => writable
  | None => false
  end.

(** Extraction succeeds on the archives the file system holds. *)
Definition uncompress (w : fs) (archive dest : string) : Z * fs :=
  match lookup archive (files w) with
  | Some _ => (0, w)
  | None => (1, w)
  end.

Definition get_call (w : fs) (url method : string) : http_result * fs :=
  match lookup url (remote w) with
  | Some body => (HttpReturn 200 body, w)
  | None => (HttpThrow (-1), w)
  end.

Definition ofstream_write (w : fs) (path content : string) : fs :=
  {| files := (path, content) :: files w; dirs := dirs w;
     remote := remote w |}.

#[export] Instance collaborators : Collaborators := {|
  World := fs;
  fs_file_exists := fun w path => fst (file_exists_dir w path);
  fs_file_exists_dir := file_exists_dir;
  fs_create_dir := create_dir;
  fs_is_directory_writable := is_directory_writable;
  fs_uncompress := uncompress;
  http_get_call := get_call;
  fs_ofstream_write := ofstream_write;
  fs_ifstream := fun w path => lookup path (files w);
  annoy_new := fun _ _ => {| _map_populate := false |};
  faiss_new := fun _ _ =>
    {| _index_key := "Flat"; _train_samples_size := 100000;
       _ondisk := true; _nprobe := -1; _gpu := false; _gpuids := [] |};
  se_create_index := fun _ w => (None, w);
  se_update_index := fun _ w => (None, w);
  se_remove_index := fun _ w => (None, w)
|}.

(** A model object whose correspondence file is [corresp]. *)
Definition model_with_corresp (corresp : string) : MLModel := {|
  _repo := "";
  _mlmodel_template_repo := "templates/";
  _hcorresp := ∅;
  _corresp := corresp;
  _best_model_filename := "/best_model.txt";
  _se := None;
  _index_preload := false
|}.

(** A file system holding one file. *)
Definition one_file (path content : string) : fs :=
  {| files := [(path, content)]; dirs := []; remote := [] |}.

(** A new object whose correspondence file has the given content, and the
    object after [read_corresp_file]. *)
Definition corresp_state (content : string) : state :=
  fresh (model_with_corresp "corresp.txt") ([] : store)
        (one_file "corresp.txt" content).

Definition loaded (content : string) : MLModel :=
  self (snd (read_corresp_file (corresp_state content))).

(** A regular file where the repository should be. *)
Definition conflict_ad : APIData := [("repository", VString "model.bin")].

Definition conflict_state : state :=
  fresh MLModel_default ([] : store) (one_file "model.bin" "weights").

(** A repository whose own path holds ["http://"], with the archive
    ["m.tar"] already staged in it. *)
Definition staged_ad : APIData :=
  [("repository", VString "models/http://cache"); ("init", VString "m.tar")].

Definition staged_state : state :=
  fresh MLModel_default ([] : store)
        {| files := [("models/http://cache/m.tar", "archive")];
           dirs := [("models/http://cache", true)];
           remote := [] |}.

(** A repository ["models/m1"] with the archive ["m.tar"] staged in it. *)
Definition plain_staged_ad : APIData :=
  [("repository", VString "models/m1"); ("init", VString "m.tar")].

Definition plain_staged_state : state :=
  fresh MLModel_default ([] : store)
        {| files := [("models/m1/m.tar", "archive")];
           dirs := [("models/m1", true)];
           remote := [] |}.

(** A repository ["models/m2"] to fill from a remote archive. *)
Definition remote_ad : APIData :=
  [("repository", VString "models/m2");
   ("init", VString "https://host/m.tar")].

Definition remote_state : state :=
  fresh MLModel_default ([] : store)
        {| files := [];
           dirs := [("models/m2", true)];
           remote := [("https://host/m.tar", "archive")] |}.

(** The same repository to fill from a local archive. *)
Definition local_ad : APIData :=
  [("repository", VString "models/m2"); ("init", VString "/tmp/m.tar")].

Definition local_state : state :=
  fresh MLModel_default ([] : store)
        {| files := [("/tmp/m.tar", "archive")];
           dirs := [("models/m2", true)];
           remote := [] |}.

(** A repository whose [config.json] is cut short. *)
Definition malformed_config_state : state :=
  fresh (set_repo "models/m1" MLModel_default)
        ([("parameters", VObject [("lr", "0.1")])] : store)
        {| files := [("models/m1/config.json", "{")];
           dirs := [("models/m1", true)];
           remote := [] |}.

(** A repository without [config.json]. *)
Definition no_config_state : state :=
  fresh (set_repo "models/m1" MLModel_default)
        ([("parameters", VObject [("lr", "0.1")])] : store)
        {| files := []; dirs := [("models/m1", true)]; remote := [] |}.

(** The same repository and locator when the archive is not there. *)
Definition missing_archive_state : state :=
  fresh MLModel_default ([] : store)
        {| files := []; dirs := [("models/m2", true)]; remote := [] |}.

(** A local path with ["http://"] in the middle as locator. *)
Definition embedded_ad : APIData :=
  [("repository", VString "models/m2");
   ("init", VString "/data/http://mirror/m.tar")].

(** A repository on which no index operation has run yet, the tuning
    that a caller gives, and the repository once the index is created. *)
Definition new_state : state :=
  fresh (set_repo "models/m1" MLModel_default) ([] : store)
        {| files := []; dirs := [("models/m1", true)]; remote := [] |}.

Definition tuning : OutputConnector := {|
  index_type := Some "IVF20,SQ8";
  train_samples := None;
  ondisk := Some false;
  nprobe := Some 4;
  index_gpu := false;
  index_gpuid := Some [0; 1]
|}.

Definition indexed_state : state :=
  snd (create_sim_search (USE_FAISS true) 128 tuning new_state).

(** The repository ["models/m1"] with its archive staged and a
    [config.json] that is cut short. *)
Definition malformed_init_state : state :=
  fresh MLModel_default
        ([("parameters", VObject [("lr", "0.1")])] : store)
        {| files := [("models/m1/m.tar", "archive");
                     ("models/m1/config.json", "{")];
           dirs := [("models/m1", true)];
           remote := [] |}.

(** A correspondence file that gives the index [3] twice, and one whose
    third line has no number. *)
Definition dup_key_file : string :=
  "3 cat" ++ String newline ("3 dog" ++ String newline "").

Definition late_bad_key_file : string :=
  "3 cat" ++ String newline
    ("5 dog" ++ String newline ("bird 7" ++ String newline ("9 fish" ++ String newline ""))).

(** An object whose correspondence file is not named, and one whose
    correspondence file is missing. *)
Definition no_corresp_state : state :=
  fresh (model_with_corresp "") ([] : store)
        (one_file "corresp.txt" "3 cat").

Definition missing_corresp_state : state :=
  fresh (model_with_corresp "labels.txt") ([] : store)
        (one_file "corresp.txt" "3 cat").

(** An object whose correspondence file is written from a list of
    entries. *)
Definition labels : list (Z * string) :=
  [(3, "cat"); (-1, "unknown class"); (3, "dog"); (5, "")].

Definition rendered_state : state := corresp_state (render_file labels).

(** A repository to create, and the same when creation is not asked. *)
Definition create_ad : APIData :=
  [("repository", VString "models/new"); ("create_repository", VBool true);
   ("index_preload", VBool true)].

Definition no_create_ad : APIData :=
  [("repository", VString "models/new")].

Definition empty_state : state :=
  fresh MLModel_default ([] : store)
        {| files := []; dirs := []; remote := [] |}.

(** A repository that exists and that nobody may write to. *)
Definition read_only_ad : APIData :=
  [("repository", VString "models/ro"); ("create_repository", VBool true)].

Definition read_only_state : state :=
  fresh MLModel_default ([] : store)
        {| files := []; dirs := [("models/ro", false)]; remote := [] |}.

(** Collaborators whose HTTP client answers every request with the
    status 404 and an error page, and whose extraction fails on what is
    not an archive; a repository served by them. *)
Definition uncompress_archive (w : fs) (archive dest : string) : Z * fs :=
  match lookup archive (files w) with
  | Some content => if String.eqb content "archive" then (0, w) else (1, w)
  | None => (1, w)
  end.

Definition http_404 : Collaborators := {|
  World := fs;
  fs_file_exists := fun w path => fst (file_exists_dir w path);
  fs_file_exists_dir := file_exists_dir;
  fs_create_dir := create_dir;
  fs_is_directory_writable := is_directory_writable;
  fs_uncompress := uncompress_archive;
  http_get_call := fun w _ _ => (HttpReturn 404 "404 not found", w);
  fs_ofstream_write := ofstream_write;
  fs_ifstream := fun w path => lookup path (files w);
  annoy_new := fun _ _ => {| _map_populate := false |};
  faiss_new := fun _ _ =>
    {| _index_key := "Flat"; _train_samples_size := 100000;
       _ondisk := true; _nprobe := -1; _gpu := false; _gpuids := [] |};
  se_create_index := fun _ w => (None, w);
  se_update_index := fun _ w => (None, w);
  se_remove_index := fun _ w => (None, w)
|}.

Definition not_found_state : @state param_store http_404 :=
  @fresh param_store http_404 MLModel_default ([] : store)
         {| files := []; dirs := [("models/m2", true)]; remote := [] |}.

(** A repository whose [config.json] is the empty object. *)
Definition good_config_state : state :=
  fresh (set_repo "models/m1" MLModel_default)
        ([("mllib", VString "caffe")] : store)
        {| files := [("models/m1/config.json", "{}")];
           dirs := [("models/m1", true)];
           remote := [] |}.

(** The repository ["models/m1"] with a [config.json] that is cut short
    and no archive to install. *)
Definition malformed_no_init_state : state :=
  fresh MLModel_default
        ([("parameters", VObject [("lr", "0.1")])] : store)
        {| files := [("models/m1/config.json", "{")];
           dirs := [("models/m1", true)];
           remote := [] |}.

Definition no_init_ad : APIData :=
  [("repository", VString "models/m1")].

(** The same collaborators with a backend whose index creation throws,
    and a repository served by them. *)
Definition failing_backend : Collaborators := {|
  World := fs;
  fs_file_exists := fun w path => fst (file_exists_dir w path);
  fs_file_exists_dir := file_exists_dir;
  fs_create_dir := create_dir;
  fs_is_directory_writable := is_directory_writable;
  fs_uncompress := uncompress;
  http_get_call := get_call;
  fs_ofstream_write := ofstream_write;
  fs_ifstream := fun w path => lookup path (files w);
  annoy_new := fun _ _ => {| _map_populate := false |};
  faiss_new := fun _ _ =>
    {| _index_key := "Flat"; _train_samples_size := 100000;
       _ondisk := true; _nprobe := -1; _gpu := false; _gpuids := [] |};
  se_create_index := fun _ w =>
    (Some (backend_exception "cannot create index"), w);
  se_update_index := fun _ w => (None, w);
  se_remove_index := fun _ w => (None, w)
|}.

Definition failing_state : @state param_store failing_backend :=
  @fresh param_store failing_backend
         (set_repo "models/m1" MLModel_default) ([] : store)
         {| files := []; dirs := [("models/m1", true)]; remote := [] |}.

(** A tuning that gives nothing. *)
Definition no_tuning : OutputConnector := {|
  index_type := None;
  train_samples := None;
  ondisk := None;
  nprobe := None;
  index_gpu := false;
  index_gpuid := None
|}.

(** A parameter container whose conversion from JSON always fails, and
    a repository with a [config.json] as seen through it. *)
Definition failing_conversion : ParamStore := {|
  APIData := store;
  ad_has := store_has;
  ad_get_string := store_get_string;
  ad_get_bool := store_get_bool;
  ad_getobj := store_getobj;
  ad_add := store_add;
  Document := store;
  Parse := parse;
  fromRapidJson := fun _ => inl "value is not an object"
|}.

Definition unconvertible_state : @state failing_conversion collaborators :=
  @fresh failing_conversion collaborators
         (set_repo "models/m1" MLModel_default)
         ([("mllib", VString "caffe")] : store)
         {| files := [("models/m1/config.json", "{}")];
            dirs := [("models/m1", true)];
            remote := [] |}.

(** The correspondence file of two entries, ["3 cat"] and ["5 dog"], each
    ended by a newline. *)
Definition cat_dog_file : string :=
  "3 cat" ++ String newline ("5 dog" ++ String newline "").

(** A correspondence file whose second line has the key ["dog"]. *)
Definition bad_key_file : string :=
  "3 cat" ++ String newline ("dog 5" ++ String newline "").

(** A correspondence file none of whose keys is a valid integer:
    ["3.5"], ["12abc"], ["0x1A"] and ["1e3"]. *)
Definition lax_key_file : string :=
  "3.5 cat" ++ String newline ("12abc dog" ++ String newline
    ("0x1A bird" ++ String newline ("1e3 fish" ++ String newline ""))).

End Demo.

(** * Properties *)

(** ** Strings and streams *)

Lemma succ_pos_find_char_le (c : ascii) (s : string) :
  (Str.succ_pos (Str.find_char c s) <= String.length s)%nat.
Proof.
  induction s as [|a r IH]; simpl; [lia|].
  destruct (Ascii.eqb a c); simpl; [lia|].
  destruct (Str.find_char c r); simpl in *; lia.
Qed.

Lemma succ_pos_find_last_of_le (c : ascii) (s : string) :
  (Str.succ_pos (Str.find_last_of c s) <= String.length s)%nat.
Proof.
  induction s as [|a r IH]; simpl; [lia|].
  destruct (Str.find_last_of c r); simpl in *; [lia|].
  destruct (Ascii.eqb a c); simpl; lia.
Qed.

(** The positions given to [substr] lie within the string, so that
    [substr] does not throw. *)
Lemma succ_pos_le (c : ascii) (s : string) :
  (Str.succ_pos (Str.find_char c s) <= String.length s)%nat
  /\ (Str.succ_pos (Str.find_last_of c s) <= String.length s)%nat.
Proof.
  split; [apply succ_pos_find_char_le | apply succ_pos_find_last_of_le].
Qed.

(** [stream_lines] is the sequence of the results of [getline], up to the
    one that sets [eofbit]. *)
Lemma stream_lines_getline (ff : string) :
  stream_lines ff =
  let '(line, rest) := getline ff in
  line :: match rest with
          | Some r => stream_lines r
          | None => []
          end.
Proof.
  induction ff as [|c r IH]; simpl; [reflexivity|].
  destruct (Ascii.eqb c newline); [reflexivity|].
  rewrite IH. destruct (getline r) as [line rest]. reflexivity.
Qed.

Lemma prefix_app (p s : string) :
  String.prefix p s = true <-> exists post, s = p ++ post.
Proof.
  revert s. induction p as [|a p IH]; intros s; simpl.
  - split; [intros _; exists s; reflexivity | destruct s; reflexivity].
  - destruct s as [|b s]; simpl.
    + split; [discriminate | intros [post H]; discriminate].
    + destruct (ascii_dec a b) as [->|Hne].
      * rewrite IH. split; intros [post H]; exists post;
          [rewrite H; reflexivity | injection H; auto].
      * split; [discriminate | intros [post H]; injection H; congruence].
Qed.

(** [Str.contains pat s] holds exactly when [pat] occurs in [s], at
    whatever position. *)
Lemma contains_occurs (pat s : string) :
  Str.contains pat s = true <-> exists pre post, s = pre ++ pat ++ post.
Proof.
  induction s as [|b s IH].
  - cbn [Str.contains]. rewrite orb_false_r, prefix_app. split.
    + intros [post H]. exists "", post. exact H.
    + intros [pre [post H]]. destruct pre; [exists post; exact H|].
      discriminate.
  - cbn [Str.contains]. rewrite orb_true_iff, IH, prefix_app. split.
    + intros [[post H] | [pre [post H]]].
      * exists "", post. exact H.
      * exists (String b pre), post. simpl. rewrite H. reflexivity.
    + intros [pre [post H]]. destruct pre as [|a pre].
      * left. exists post. exact H.
      * right. exists pre, post. simpl in H. injection H; auto.
Qed.

Lemma has_fetch_scheme_occurs (compressedf : string) :
  has_fetch_scheme compressedf = true <->
  exists scheme pre post,
    In scheme ["https://"; "http://"; "file://"]
    /\ compressedf = pre ++ scheme ++ post.
Proof.
  unfold has_fetch_scheme. rewrite !orb_true_iff, !contains_occurs. split.
  - intros [[[pre [post H]] | [pre [post H]]] | [pre [post H]]];
      eexists _, pre, post; (split; [|exact H]); simpl; auto.
  - intros [scheme [pre [post [Hin H]]]]. simpl in Hin.
    destruct Hin as [<- | [<- | [<- | []]]]; eauto.
Qed.

(** ** The correspondence table *)

Lemma hcorresp_empty_spec (h : gmap Z string) :
  hcorresp_empty h = true <-> h = ∅.
Proof. unfold hcorresp_empty. apply bool_decide_eq_true. Qed.

Lemma get_hcorresp_present (i : Z) (m : MLModel) (v : string) :
  _hcorresp m !! i = Some v -> get_hcorresp i m = (v, m).
Proof.
  intros H. unfold get_hcorresp.
  destruct (hcorresp_empty (_hcorresp m)) eqn:E.
  - apply hcorresp_empty_spec in E. rewrite E in H.
    rewrite lookup_empty in H. discriminate.
  - unfold hcorresp_subscript. rewrite H. destruct m; reflexivity.
Qed.

Lemma get_hcorresp_empty (i : Z) (m : MLModel) :
  _hcorresp m = ∅ -> get_hcorresp i m = (Str.to_string i, m).
Proof.
  intros H. unfold get_hcorresp.
  apply hcorresp_empty_spec in H. rewrite H. reflexivity.
Qed.

(** An index absent from a table that is not empty: the subscript inserts
    it with an empty label, which is what the call returns. *)
Lemma get_hcorresp_absent (i : Z) (m : MLModel) :
  _hcorresp m !! i = None -> _hcorresp m <> ∅ ->
  get_hcorresp i m = ("", set_hcorresp (<[i := ""]> (_hcorresp m)) m).
Proof.
  intros H Hne. unfold get_hcorresp.
  destruct (hcorresp_empty (_hcorresp m)) eqn:E.
  - apply hcorresp_empty_spec in E. contradiction.
  - unfold hcorresp_subscript. rewrite H. reflexivity.
Qed.

(** The entries that the table holds are never rewritten by a lookup. *)
Lemma get_hcorresp_keeps_entries (i j : Z) (m : MLModel) (v : string) :
  _hcorresp m !! j = Some v ->
  _hcorresp (snd (get_hcorresp i m)) !! j = Some v.
Proof.
  intros Hj. destruct (_hcorresp m !! i) as [vi|] eqn:Hi.
  - rewrite (get_hcorresp_present _ _ _ Hi). exact Hj.
  - rewrite get_hcorresp_absent; [|exact Hi|].
    + simpl. rewrite lookup_insert_ne; [exact Hj|congruence].
    + intros E. rewrite E, lookup_empty in Hj. discriminate.
Qed.

Example to_string_examples :
  Str.to_string 7 = "7" /\ Str.to_string 0 = "0"
  /\ Str.to_string (-12) = "-12" /\ Str.to_string 2147483647 = "2147483647".
Proof. repeat split. Qed.

Example stoi_examples :
  stoi "3" = StoiValue 3 /\ stoi "-12" = StoiValue (-12)
  /\ stoi "12abc" = StoiValue 12 /\ stoi "dog" = StoiInvalidArgument
  /\ stoi "-" = StoiInvalidArgument /\ stoi "2147483648" = StoiOutOfRange.
Proof. repeat split. Qed.

Example cat_dog_lines :
  stream_lines Demo.cat_dog_file = ["3 cat"; "5 dog"; ""]
  /\ map line_key (stream_lines Demo.cat_dog_file) = ["3"; "5"; ""]
  /\ map line_value (stream_lines Demo.cat_dog_file) = ["cat"; "dog"; ""].
Proof. repeat split. Qed.

Lemma corresp_line_outcome (line : string) (h : gmap Z string) :
  if line_passes line
  then exists h', corresp_line line h = Ret h'
  else exists e, is_stoi_exception e /\ corresp_line line h = Throw e.
Proof.
  unfold line_passes, key_parses, corresp_line, is_stoi_exception.
  destruct (Str.empty (line_key line)); simpl; [eauto|].
  destruct (stoi (line_key line)); eauto.
Qed.

Lemma corresp_lines_all_pass (lines : list string) (h : gmap Z string) :
  forallb line_passes lines = true ->
  fst (corresp_lines lines h) = Ret tt.
Proof.
  revert h. induction lines as [|line rest IH]; intros h H; [reflexivity|].
  simpl in H. apply andb_true_iff in H as [Hl Hr]. simpl.
  pose proof (corresp_line_outcome line h) as Ho. rewrite Hl in Ho.
  destruct Ho as [h' ->]. apply IH, Hr.
Qed.

Lemma corresp_lines_some_fail (lines : list string) (h : gmap Z string) :
  forallb line_passes lines = false ->
  exists e, is_stoi_exception e /\ fst (corresp_lines lines h) = Throw e.
Proof.
  revert h. induction lines as [|line rest IH]; intros h H; [discriminate|].
  simpl in H. simpl.
  pose proof (corresp_line_outcome line h) as Ho.
  destruct (line_passes line).
  - destruct Ho as [h' ->]. apply IH, H.
  - destruct Ho as [e [He ->]]. exists e. split; [exact He|reflexivity].
Qed.

Lemma line_passes_spec (line : string) :
  line_passes line = true <->
  (line_key line <> "" -> exists k, stoi (line_key line) = StoiValue k).
Proof.
  unfold line_passes, key_parses. destruct (line_key line) as [|c key] eqn:E.
  - simpl. split; [intros _ H; contradiction | reflexivity].
  - cbn [Str.empty orb]. destruct (stoi (String c key)) as [k| |]; split;
      try (intros _ _; exists k; reflexivity); try reflexivity;
      try discriminate; intros H; destruct H as [k H];
      try discriminate; try exact I.
Qed.

Lemma forallb_line_passes (lines : list string) :
  forallb line_passes lines = true <->
  (forall line, In line lines -> line_key line <> "" ->
                exists k, stoi (line_key line) = StoiValue k).
Proof.
  rewrite forallb_forall. split; intros H line Hin.
  - apply line_passes_spec, H, Hin.
  - apply line_passes_spec, H, Hin.
Qed.

(** C1, as the code has it: [get_hcorresp(i)] returns the label stored for
    [i] when [i] is present in the table, and the decimal string of [i]
    when the table is empty; it returns a string for every table and every
    index.  After loading the file ["3 cat\n5 dog\n"], the lookup of [3]
    yields ["cat"] and the lookup of [5] yields ["dog"]. *)
Theorem get_hcorresp_label_or_index (m : MLModel) (i : Z) :
  (forall v, _hcorresp m !! i = Some v -> fst (get_hcorresp i m) = v)
  /\ (_hcorresp m = ∅ -> fst (get_hcorresp i m) = Str.to_string i)
  /\ (exists v m', get_hcorresp i m = (v, m'))
  /\ fst (get_hcorresp 3 (Demo.loaded Demo.cat_dog_file)) = "cat"
  /\ fst (get_hcorresp 5 (Demo.loaded Demo.cat_dog_file)) = "dog".
Proof.
  split; [|split; [|split; [|split]]].
  - intros v H. rewrite (get_hcorresp_present _ _ _ H). reflexivity.
  - intros H. rewrite (get_hcorresp_empty _ _ H). reflexivity.
  - destruct (get_hcorresp i m) as [v m']. exists v, m'. reflexivity.
  - vm_compute. reflexivity.
  - vm_compute. reflexivity.
Qed.

Lemma get_hcorresp_label_or_index_witness :
  (_hcorresp (Demo.loaded Demo.cat_dog_file) !! 5 = Some "dog"
   /\ fst (get_hcorresp 5 (Demo.loaded Demo.cat_dog_file)) = "dog")
  /\ (_hcorresp MLModel_default = ∅
      /\ fst (get_hcorresp 42 MLModel_default) = "42").
Proof.
  split; split.
  - vm_compute. reflexivity.
  - apply (proj1 (get_hcorresp_label_or_index
                    (Demo.loaded Demo.cat_dog_file) 5) "dog").
    vm_compute. reflexivity.
  - reflexivity.
  - apply (proj1 (proj2 (get_hcorresp_label_or_index MLModel_default 42))).
    reflexivity.
Defined.

(** C1 as stated fails: in the table loaded from ["3 cat\n5 dog\n"] the
    key [7] is absent, and its lookup yields the empty string, not ["7"]. *)
Lemma get_hcorresp_absent_key_counterexample :
  _hcorresp (Demo.loaded Demo.cat_dog_file) !! 7 = None
  /\ fst (get_hcorresp 7 (Demo.loaded Demo.cat_dog_file)) = ""
  /\ fst (get_hcorresp 7 (Demo.loaded Demo.cat_dog_file)) <> Str.to_string 7.
Proof.
  split; [|split].
  - vm_compute. reflexivity.
  - vm_compute. reflexivity.
  - vm_compute. discriminate.
Qed.

(** C7 at the failing input: in the table loaded from ["3 cat\n5 dog\n"],
    [get_hcorresp(7)] adds the entry [7 -> ""] to [_hcorresp], which is no
    longer the table that was loaded. *)
Theorem get_hcorresp_inserts_absent_key :
  _hcorresp (snd (get_hcorresp 7 (Demo.loaded Demo.cat_dog_file)))
  = <[7 := ""]> (_hcorresp (Demo.loaded Demo.cat_dog_file))
  /\ _hcorresp (snd (get_hcorresp 7 (Demo.loaded Demo.cat_dog_file))) !! 7
     = Some ""
  /\ _hcorresp (Demo.loaded Demo.cat_dog_file) !! 7 = None
  /\ _hcorresp (snd (get_hcorresp 7 (Demo.loaded Demo.cat_dog_file)))
     <> _hcorresp (Demo.loaded Demo.cat_dog_file).
Proof.
  assert (Hnone : _hcorresp (Demo.loaded Demo.cat_dog_file) !! 7 = None)
    by (vm_compute; reflexivity).
  assert (Hne : _hcorresp (Demo.loaded Demo.cat_dog_file) <> ∅).
  { intros E. apply (f_equal (fun h => h !! 3)) in E.
    vm_compute in E. discriminate. }
  revert Hnone Hne. generalize (Demo.loaded Demo.cat_dog_file).
  intros m Hnone Hne.
  rewrite (get_hcorresp_absent _ _ Hnone Hne).
  cbn [snd _hcorresp set_hcorresp].
  split; [reflexivity|]. split; [apply lookup_insert_eq|].
  split; [exact Hnone|].
  intros E. apply (f_equal (fun h => h !! 7)) in E.
  rewrite lookup_insert_eq, Hnone in E. discriminate.
Qed.

(** Where [get_hcorresp] does leave the table as it is: on an empty table
    and on a key that the table holds. *)
Lemma get_hcorresp_frame (i : Z) (m : MLModel) :
  _hcorresp m = ∅ \/ is_Some (_hcorresp m !! i) ->
  snd (get_hcorresp i m) = m.
Proof.
  intros [H | [v H]].
  - rewrite (get_hcorresp_empty _ _ H). reflexivity.
  - rewrite (get_hcorresp_present _ _ _ H). reflexivity.
Qed.

(** ** The keys that [std::stoi] reads *)

Lemma skip_spaces_app (ws s : string) :
  all_spaces ws = true -> skip_spaces (ws ++ s) = skip_spaces s.
Proof.
  induction ws as [|c ws IH]; intros H; [reflexivity|].
  simpl in H. apply andb_true_iff in H as [Hc Hws].
  change (String c ws ++ s) with (String c (ws ++ s)).
  cbn [skip_spaces]. rewrite Hc. apply IH, Hws.
Qed.

Lemma skip_spaces_split (s : string) :
  exists ws, s = ws ++ skip_spaces s /\ all_spaces ws = true.
Proof.
  induction s as [|c r IH]; [exists ""; split; reflexivity|].
  cbn [skip_spaces]. destruct (isspace c) eqn:E.
  - destruct IH as [ws [Hs Hws]]. exists (String c ws). split.
    + change (String c ws ++ skip_spaces r)
        with (String c (ws ++ skip_spaces r)).
      rewrite <- Hs. reflexivity.
    + simpl. rewrite E. exact Hws.
  - exists "". split; reflexivity.
Qed.

Lemma skip_spaces_head (s : string) (c : ascii) (r : string) :
  skip_spaces s = String c r -> isspace c = false.
Proof.
  induction s as [|a s IH]; [discriminate|].
  cbn [skip_spaces]. destruct (isspace a) eqn:E; [exact IH|].
  intros H. injection H as <- _. exact E.
Qed.

Lemma stoi_skip_spaces (s : string) : stoi s = stoi (skip_spaces s).
Proof.
  assert (H : skip_spaces (skip_spaces s) = skip_spaces s).
  { destruct (skip_spaces_split s) as [ws [Hs Hws]].
    rewrite Hs at 2. rewrite (skip_spaces_app _ _ Hws). reflexivity. }
  unfold stoi. rewrite H. reflexivity.
Qed.

Lemma digits_value_run (ds rest : string) (acc : Z) :
  all_digits ds = true -> starts_with_digit rest = false ->
  digits_value acc (ds ++ rest) = numeral_value acc ds.
Proof.
  revert acc. induction ds as [|c ds IH]; intros acc Hds Hrest.
  - destruct rest as [|c r]; [reflexivity|].
    cbn [starts_with_digit] in Hrest.
    change ("" ++ String c r) with (String c r).
    cbn [digits_value numeral_value]. rewrite Hrest. reflexivity.
  - cbn [all_digits] in Hds. apply andb_true_iff in Hds as [Hc Hds].
    change (String c ds ++ rest) with (String c (ds ++ rest)).
    cbn [digits_value numeral_value]. rewrite Hc. apply IH; assumption.
Qed.

Lemma digit_run (s : string) :
  exists ds rest,
    s = ds ++ rest /\ all_digits ds = true /\ starts_with_digit rest = false
    /\ (starts_with_digit s = true -> ds <> "").
Proof.
  induction s as [|c r IH].
  - exists "", "". repeat split. discriminate.
  - destruct (isdigit c) eqn:E.
    + destruct IH as [ds [rest [Hs [Hds [Hrest _]]]]].
      exists (String c ds), rest. repeat split.
      * change (String c ds ++ rest) with (String c (ds ++ rest)).
        rewrite <- Hs. reflexivity.
      * cbn [all_digits]. rewrite E. exact Hds.
      * exact Hrest.
      * discriminate.
    + exists "", (String c r). repeat split.
      * exact E.
      * cbn [starts_with_digit]. rewrite E. discriminate.
Qed.

(** [std::stoi] on a string that begins with a sign, and on one that
    begins with neither white space nor a sign. *)
Lemma stoi_signed (r : string) :
  stoi (String "-" r)
  = (if starts_with_digit r
     then if (INT_MIN <=? - digits_value 0 r) && (- digits_value 0 r <=? INT_MAX)
          then StoiValue (- digits_value 0 r) else StoiOutOfRange
     else StoiInvalidArgument)
  /\ stoi (String "+" r)
     = (if starts_with_digit r
        then if (INT_MIN <=? digits_value 0 r) && (digits_value 0 r <=? INT_MAX)
             then StoiValue (digits_value 0 r) else StoiOutOfRange
        else StoiInvalidArgument).
Proof.
  destruct r as [|c r]; [split; reflexivity|].
  split; cbn [starts_with_digit]; reflexivity.
Qed.

Lemma stoi_unsigned (c : ascii) (r : string) :
  isspace c = false -> c <> "-"%char -> c <> "+"%char ->
  stoi (String c r)
  = (if isdigit c
     then if (INT_MIN <=? digits_value 0 (String c r))
             && (digits_value 0 (String c r) <=? INT_MAX)
          then StoiValue (digits_value 0 (String c r)) else StoiOutOfRange
     else StoiInvalidArgument).
Proof.
  destruct c as [[] [] [] [] [] [] [] []]; intros Hs Hm Hp;
    first [reflexivity | discriminate Hs | congruence].
Qed.

Lemma valid_integer_unsigned (c : ascii) (r : string) :
  isdigit c = true ->
  valid_integer (String c r)
  = all_digits r
    && (INT_MIN <=? numeral_value 0 (String c r))
    && (numeral_value 0 (String c r) <=? INT_MAX)
  /\ integer_value (String c r) = numeral_value 0 (String c r).
Proof.
  destruct c as [[] [] [] [] [] [] [] []]; intros H;
    first [discriminate H | split; reflexivity].
Qed.

Lemma valid_integer_head (body : string) :
  valid_integer body = true ->
  exists c r, body = String c r /\ isspace c = false
    /\ ((c = "-"%char \/ c = "+"%char)
        /\ starts_with_digit r = true /\ all_digits r = true
        \/ c <> "-"%char /\ c <> "+"%char /\ isdigit c = true
           /\ all_digits r = true).
Proof.
  destruct body as [|c r]; [discriminate|]. intros H. exists c, r.
  split; [reflexivity|].
  destruct c as [[] [] [] [] [] [] [] []];
    try discriminate H;
    (split; [reflexivity|]);
    unfold valid_integer in H; cbn [Str.empty negb andb all_digits isdigit] in H.
  all: try (right; repeat split; try discriminate;
            apply andb_true_iff in H as [H _];
            apply andb_true_iff in H as [H _]; exact H).
  all: left; (split; [auto|]);
    apply andb_true_iff in H as [H _]; apply andb_true_iff in H as [H _];
    apply andb_true_iff in H as [Hn Hd];
    (split; [|exact Hd]); destruct r as [|a r]; [discriminate Hn|];
    simpl in Hd; apply andb_true_iff in Hd as [Ha _]; exact Ha.
Qed.

Lemma starts_with_digit_app (r rest : string) :
  starts_with_digit r = true -> starts_with_digit (r ++ rest) = true.
Proof. destruct r as [|a r]; [discriminate|]. intros H. exact H. Qed.

Lemma stoi_integer_prefixed (key : string) (k : Z) :
  stoi key = StoiValue k <-> integer_prefixed key k.
Proof.
  split.
  - intros H. rewrite stoi_skip_spaces in H.
    destruct (skip_spaces_split key) as [ws [Hkey Hws]].
    destruct (skip_spaces key) as [|c r] eqn:E; [discriminate H|].
    pose proof (skip_spaces_head _ _ _ E) as Hsp.
    destruct (digit_run r) as [ds [rest [Hr [Hds [Hrest Hne]]]]].
    pose proof (digits_value_run ds rest 0 Hds Hrest) as Hval.
    rewrite <- Hr in Hval.
    destruct (ascii_dec c "-") as [->|Hm];
      [|destruct (ascii_dec c "+") as [->|Hp]].
    + rewrite (proj1 (stoi_signed r)) in H.
      destruct (starts_with_digit r) eqn:Hd; [|discriminate H].
      rewrite Hval in H.
      destruct ((INT_MIN <=? - numeral_value 0 ds)
                && (- numeral_value 0 ds <=? INT_MAX)) eqn:Hrange;
        [|discriminate H].
      injection H as <-.
      exists ws, (String "-" ds), rest. repeat split.
      * rewrite Hkey, Hr. reflexivity.
      * exact Hws.
      * unfold valid_integer. cbn [integer_value].
        rewrite Hds, <- andb_assoc, Hrange.
        destruct ds; [exfalso; apply Hne; reflexivity|reflexivity].
      * exact Hrest.
    + rewrite (proj2 (stoi_signed r)) in H.
      destruct (starts_with_digit r) eqn:Hd; [|discriminate H].
      rewrite Hval in H.
      destruct ((INT_MIN <=? numeral_value 0 ds)
                && (numeral_value 0 ds <=? INT_MAX)) eqn:Hrange;
        [|discriminate H].
      injection H as <-.
      exists ws, (String "+" ds), rest. repeat split.
      * rewrite Hkey, Hr. reflexivity.
      * exact Hws.
      * unfold valid_integer. cbn [integer_value].
        rewrite Hds, <- andb_assoc, Hrange.
        destruct ds; [exfalso; apply Hne; reflexivity|reflexivity].
      * exact Hrest.
    + rewrite (stoi_unsigned c r Hsp Hm Hp) in H.
      destruct (isdigit c) eqn:Hd; [|discriminate H].
      assert (Hv : digits_value 0 (String c r)
                   = numeral_value 0 (String c ds)).
      { rewrite Hr. apply (digits_value_run (String c ds) rest 0);
          [cbn [all_digits]; rewrite Hd; exact Hds | exact Hrest]. }
      rewrite Hv in H.
      destruct ((INT_MIN <=? numeral_value 0 (String c ds))
                && (numeral_value 0 (String c ds) <=? INT_MAX)) eqn:Hrange;
        [|discriminate H].
      injection H as <-.
      destruct (valid_integer_unsigned c ds Hd) as [Hvalid Hint].
      exists ws, (String c ds), rest. repeat split.
      * rewrite Hkey, Hr. reflexivity.
      * exact Hws.
      * rewrite Hvalid, Hds, <- andb_assoc, Hrange. reflexivity.
      * exact Hint.
      * exact Hrest.
  - intros [ws [body [rest [-> [Hws [Hv [Hk Hrest]]]]]]].
    rewrite stoi_skip_spaces, (skip_spaces_app _ _ Hws), <- stoi_skip_spaces.
    destruct (valid_integer_head body Hv) as [c [r [-> [Hsp Hcase]]]].
    change (String c r ++ rest) with (String c (r ++ rest)).
    destruct Hcase as [[Hsign [Hd Hds]] | [Hm [Hp [Hd Hds]]]].
    + pose proof (digits_value_run r rest 0 Hds Hrest) as Hval.
      pose proof (starts_with_digit_app r rest Hd) as Hd'.
      unfold valid_integer in Hv.
      destruct Hsign as [-> | ->]; cbn [integer_value] in Hv, Hk;
        rewrite <- andb_assoc in Hv; apply andb_true_iff in Hv as [_ Hrange].
      * rewrite (proj1 (stoi_signed (r ++ rest))), Hd', Hval, Hrange, Hk.
        reflexivity.
      * rewrite (proj2 (stoi_signed (r ++ rest))), Hd', Hval, Hrange, Hk.
        reflexivity.
    + destruct (valid_integer_unsigned c r Hd) as [Hvalid Hint].
      rewrite Hvalid, <- andb_assoc in Hv.
      apply andb_true_iff in Hv as [_ Hrange].
      rewrite (stoi_unsigned c (r ++ rest) Hsp Hm Hp), Hd.
      assert (Hval : digits_value 0 (String c (r ++ rest))
                     = numeral_value 0 (String c r)).
      { apply (digits_value_run (String c r) rest 0);
          [cbn [all_digits]; rewrite Hd; exact Hds | exact Hrest]. }
      rewrite Hval, Hrange, <- Hint, Hk. reflexivity.
Qed.

(** A valid integer is a key that [std::stoi] reads, with its value. *)
Lemma stoi_valid_integer (key : string) :
  valid_integer key = true -> stoi key = StoiValue (integer_value key).
Proof.
  intros H. apply stoi_integer_prefixed. exists "", key, "".
  split; [|split; [reflexivity|split; [exact H|split; reflexivity]]].
  change ("" ++ key ++ "") with (key ++ "").
  clear H. induction key as [|c r IH]; [reflexivity|].
  change (String c r ++ "") with (String c (r ++ "")).
  rewrite <- IH. reflexivity.
Qed.

(** C9, as the code has it: when the correspondence file is open and one
    of its lines has a key (the part before the first space) that is not
    empty and from which [std::stoi] reads no [int], [read_corresp_file]
    ends with the exception of [std::stoi].  It returns exactly when
    [std::stoi] reads an [int] from every non-empty key, that is when every
    non-empty key is white space, then a valid integer, then either nothing
    or text that does not begin with a digit.  In particular it returns
    when every non-empty key is a valid integer. *)
Theorem read_corresp_file_stoi_uncaught
    {PS : ParamStore} {CO : Collaborators} (s : state) (content : string) :
  Str.empty (_corresp (self s)) = false ->
  fs_ifstream (world s) (_corresp (self s)) = Some content ->
  ((exists line, In line (stream_lines content)
                 /\ line_key line <> ""
                 /\ (forall k, stoi (line_key line) <> StoiValue k)) ->
   exists e, is_stoi_exception e /\ fst (read_corresp_file s) = Throw e)
  /\ (fst (read_corresp_file s) = Ret tt <->
      forall line, In line (stream_lines content) ->
                   line_key line <> "" ->
                   exists k, stoi (line_key line) = StoiValue k)
  /\ (fst (read_corresp_file s) = Ret tt <->
      forall line, In line (stream_lines content) ->
                   line_key line <> "" ->
                   exists k, integer_prefixed (line_key line) k)
  /\ ((forall line, In line (stream_lines content) ->
                    line_key line <> "" ->
                    valid_integer (line_key line) = true) ->
      fst (read_corresp_file s) = Ret tt).
Proof.
  intros Hpath Hopen.
  assert (Hrun : fst (read_corresp_file s)
                 = fst (corresp_lines (stream_lines content)
                                      (_hcorresp (self s)))).
  { unfold read_corresp_file, bind, get_self, query. rewrite Hpath. simpl.
    rewrite Hopen. cbn [self adg world trace].
    destruct (corresp_lines (stream_lines content) (_hcorresp (self s)));
      reflexivity. }
  rewrite Hrun.
  assert (Hret : fst (corresp_lines (stream_lines content)
                                    (_hcorresp (self s))) = Ret tt <->
                 forall line, In line (stream_lines content) ->
                              line_key line <> "" ->
                              exists k, stoi (line_key line) = StoiValue k).
  { destruct (forallb line_passes (stream_lines content)) eqn:E.
    - pose proof (proj1 (forallb_line_passes _) E) as Hall.
      split; [intros _; exact Hall|].
      intros _. apply corresp_lines_all_pass, E.
    - destruct (corresp_lines_some_fail _ (_hcorresp (self s)) E)
        as [e [He Hthrow]].
      rewrite Hthrow. split; [discriminate|].
      intros Hall. apply forallb_line_passes in Hall. congruence. }
  split; [|split; [exact Hret|split]].
  - intros [line [Hin [Hkey Hno]]].
    destruct (forallb line_passes (stream_lines content)) eqn:E.
    + pose proof (proj1 (forallb_line_passes _) E) as Hall.
      destruct (Hall line Hin Hkey) as [k Hk]. exfalso. exact (Hno k Hk).
    + exact (corresp_lines_some_fail _ (_hcorresp (self s)) E).
  - rewrite Hret. split; intros Hall line Hin Hkey;
      destruct (Hall line Hin Hkey) as [k Hk]; exists k;
      apply stoi_integer_prefixed, Hk.
  - intros Hall. apply Hret. intros line Hin Hkey.
    exists (integer_value (line_key line)).
    apply stoi_valid_integer, Hall; assumption.
Qed.

Lemma read_corresp_file_stoi_uncaught_witness :
  exists e, is_stoi_exception e
            /\ fst (read_corresp_file (Demo.corresp_state Demo.bad_key_file))
               = Throw e.
Proof.
  apply (proj1 (read_corresp_file_stoi_uncaught
                  (Demo.corresp_state Demo.bad_key_file)
                  Demo.bad_key_file eq_refl eq_refl)).
  exists "dog 5". split; [vm_compute; auto|].
  split; [vm_compute; discriminate|].
  intros k. vm_compute. discriminate.
Defined.

(** C9 as stated fails: the keys ["3.5"], ["12abc"], ["0x1A"] and ["1e3"]
    are not empty and none of them is a valid integer, yet
    [read_corresp_file] returns on the file that holds them, and the table
    has the entries [3], [12], [0] and [1]. *)
Lemma read_corresp_file_lax_key_counterexample :
  map line_key (stream_lines Demo.lax_key_file)
  = ["3.5"; "12abc"; "0x1A"; "1e3"; ""]
  /\ map valid_integer ["3.5"; "12abc"; "0x1A"; "1e3"]
     = [false; false; false; false]
  /\ fst (read_corresp_file (Demo.corresp_state Demo.lax_key_file)) = Ret tt
  /\ _hcorresp (Demo.loaded Demo.lax_key_file) !! 3 = Some "cat"
  /\ _hcorresp (Demo.loaded Demo.lax_key_file) !! 12 = Some "dog"
  /\ _hcorresp (Demo.loaded Demo.lax_key_file) !! 0 = Some "bird"
  /\ _hcorresp (Demo.loaded Demo.lax_key_file) !! 1 = Some "fish".
Proof. repeat split; vm_compute; reflexivity. Qed.

(** ** The initialisation of the repository *)

(** Unfolding of the monad: one step of a method on a state. *)
Ltac run :=
  repeat (unfold bind, ret, throw, null_deref, get_self, put_self, get_adg,
            put_adg, query, action, emit, logger_call, if_logger;
          cbn beta iota zeta delta [self adg world trace fst snd negb andb orb]).

Lemma set_repo_repo (repo : string) (m : MLModel) :
  _repo (set_repo repo m) = repo.
Proof. reflexivity. Qed.

Lemma after_checks_repo {PS : ParamStore} {CO : Collaborators}
    (ad : APIData) (s : state) :
  _repo (self (after_checks ad s)) = repository ad.
Proof.
  unfold after_checks. cbn [self].
  destruct (ad_has ad "index_preload" && ad_get_bool ad "index_preload");
    reflexivity.
Qed.

(** When the first part goes through, [init_repo_dir] comes to the
    installation from the archive in the state [after_checks]. *)
Lemma init_repo_dir_checks {PS : ParamStore} {CO : Collaborators}
    (ad : APIData) (logger : logger_ptr) (s : state) :
  checks_pass ad (world s) = true ->
  init_repo_dir ad logger s =
  if ad_has ad "init" then install_archive ad logger (after_checks ad s)
  else (Ret tt, after_checks ad s).
Proof.
  unfold checks_pass, conflict, after_checks, world_after_create, creates_dir,
    repository.
  intros H. apply andb_true_iff in H as [Hc Hw].
  unfold init_repo_dir. run.
  destruct (fs_file_exists_dir (world s) (ad_get_string ad "repository"))
    as [exists_ isDir] eqn:E.
  cbn [fst snd] in *. apply negb_true_iff in Hc. rewrite Hc. run.
  destruct (negb exists_ &&
            (ad_has ad "create_repository"
             && ad_get_bool ad "create_repository")) eqn:Ecreate; run;
    rewrite Hw; run;
    destruct (ad_has ad "index_preload" && ad_get_bool ad "index_preload");
    run; destruct (ad_has ad "init"); rewrite <- ?app_assoc; reflexivity.
Qed.

(** With a logger, a file in the place of the repository ends
    [init_repo_dir] with the exception, after the one query of the file
    system and the error message: no directory is created, nothing is
    tested for writing, fetched or extracted. *)
Lemma init_repo_dir_conflict_live {PS : ParamStore} {CO : Collaborators}
    (ad : APIData) (s : state) :
  fs_file_exists_dir (world s) (repository ad) = (true, false) ->
  let errmsg := "file exists with same name as repository " ++ repository ad in
  init_repo_dir ad live_logger s =
  (Throw (MLLibBadParamException errmsg),
   {| self := set_repo (repository ad) (self s);
      adg := adg s;
      world := world s;
      trace := trace s ++ [EvFileExists (repository ad);
                           EvLog LvlError errmsg []] |}).
Proof.
  unfold repository. intros H. unfold init_repo_dir. run. rewrite H. run.
  rewrite <- ?app_assoc. reflexivity.
Qed.

Lemma init_repo_dir_conflict_null {PS : ParamStore} {CO : Collaborators}
    (ad : APIData) (s : state) :
  fs_file_exists_dir (world s) (repository ad) = (true, false) ->
  init_repo_dir ad nullptr s =
  (NullDeref,
   {| self := set_repo (repository ad) (self s);
      adg := adg s;
      world := world s;
      trace := trace s ++ [EvFileExists (repository ad)] |}).
Proof.
  unfold repository. intros H. unfold init_repo_dir. run. rewrite H. run.
  reflexivity.
Qed.

(** The installation when the archive that reaches the fetch decision
    holds none of the schemes: no fetch, the archive is extracted as it
    is. *)
Lemma install_archive_skip {PS : ParamStore} {CO : Collaborators}
    (ad : APIData) (logger : logger_ptr) (s : state) :
  _repo (self s) = repository ad ->
  has_fetch_scheme (archive_to_install ad (world s)) = false ->
  let archive := archive_to_install ad (world s) in
  let r := fs_uncompress (world s) archive (repository ad) in
  fst (install_archive ad logger s) = extraction_outcome logger (fst r)
  /\ world (snd (install_archive ad logger s)) = snd r
  /\ trace (snd (install_archive ad logger s))
     = (trace s
        ++ EvFileExists (staged_path ad)
           :: staged_notice logger
                (fs_file_exists (world s) (staged_path ad)) (staged_path ad)
        ++ EvUncompress archive (repository ad)
           :: extraction_report logger (fst r))%list.
Proof.
  unfold archive_to_install, staged_path, init_locator, extraction_outcome,
    extraction_report, staged_notice.
  intros Hrepo Hscheme. unfold install_archive. run. rewrite Hrepo.
  destruct (fs_file_exists (world s)
              (repository ad ++ "/" ++ base_model_fname (ad_get_string ad "init")))
    eqn:Estaged;
    destruct logger; run; rewrite Hscheme; run;
    match goal with
    | |- context [fs_uncompress ?w ?a ?d] =>
        destruct (fs_uncompress w a d) as [failed w'] eqn:Eun
    end; run; destruct (failed =? 0); run;
    (split; [reflexivity|]); (split; [reflexivity|]);
    rewrite <- ?app_assoc; reflexivity.
Qed.

(** The installation when the archive that reaches the fetch decision
    holds one of the schemes: it is fetched; a fetch that throws ends the
    installation, a fetch that returns is written to the staged path,
    which is then extracted. *)
Lemma install_archive_fetch {PS : ParamStore} {CO : Collaborators}
    (ad : APIData) (logger : logger_ptr) (s : state) :
  _repo (self s) = repository ad ->
  has_fetch_scheme (archive_to_install ad (world s)) = true ->
  let archive := archive_to_install ad (world s) in
  let r := http_get_call (world s) archive "GET" in
  let before :=
    (EvFileExists (staged_path ad)
     :: staged_notice logger
          (fs_file_exists (world s) (staged_path ad)) (staged_path ad)
     ++ download_info logger archive)%list in
  match fst r with
  | HttpThrow outcode =>
      fst (install_archive ad logger s)
      = fetch_failure_outcome logger archive outcode
      /\ world (snd (install_archive ad logger s)) = snd r
      /\ trace (snd (install_archive ad logger s))
         = (trace s ++ before
            ++ EvHttpGet archive "GET"
               :: fetch_report logger archive outcode)%list
  | HttpReturn _ content =>
      let w2 := fs_ofstream_write (snd r) (staged_path ad) content in
      let u := fs_uncompress w2 (staged_path ad) (repository ad) in
      fst (install_archive ad logger s) = extraction_outcome logger (fst u)
      /\ world (snd (install_archive ad logger s)) = snd u
      /\ trace (snd (install_archive ad logger s))
         = (trace s ++ before
            ++ EvHttpGet archive "GET"
               :: EvOfstreamWrite (staged_path ad) content
               :: EvUncompress (staged_path ad) (repository ad)
               :: extraction_report logger (fst u))%list
  end.
Proof.
  unfold archive_to_install, staged_path, init_locator, extraction_outcome,
    fetch_failure_outcome, extraction_report, fetch_report, staged_notice,
    download_info.
  intros Hrepo Hscheme. unfold install_archive. run. rewrite Hrepo.
  destruct (fs_file_exists (world s)
              (repository ad ++ "/" ++ base_model_fname (ad_get_string ad "init")))
    eqn:Estaged;
    destruct logger; run; rewrite Hscheme; run;
    match goal with
    | |- context [http_get_call ?w ?a ?d] =>
        destruct (http_get_call w a d) as [[outcode content | outcode] w']
          eqn:Eget
    end; run;
    try match goal with
    | |- context [fs_uncompress ?w ?a ?d] =>
        destruct (fs_uncompress w a d) as [failed w''] eqn:Eun;
        run; destruct (failed =? 0); run
    end;
    (split; [reflexivity|]); (split; [reflexivity|]);
    rewrite <- ?app_assoc; reflexivity.
Qed.

Lemma no_http_get_in (evs : list event) :
  forallb (fun ev => negb (is_http_get ev)) evs = true ->
  forall url method, ~ In (EvHttpGet url method) evs.
Proof.
  intros H url method Hin.
  apply (proj1 (forallb_forall _ _) H) in Hin. discriminate.
Qed.

Lemma no_uncompress_in (evs : list event) :
  forallb (fun ev => negb (is_uncompress ev)) evs = true ->
  forall archive dest, ~ In (EvUncompress archive dest) evs.
Proof.
  intros H archive dest Hin.
  apply (proj1 (forallb_forall _ _) H) in Hin. discriminate.
Qed.

(** The events of the first part of [init_repo_dir] are neither fetches
    nor extractions. *)
Lemma after_checks_trace {PS : ParamStore} {CO : Collaborators}
    (ad : APIData) (s : state) :
  exists evs0 : list event,
    trace (after_checks ad s) = (trace s ++ evs0)%list
    /\ forallb (fun ev => negb (is_http_get ev)) evs0 = true
    /\ forallb (fun ev => negb (is_uncompress ev)) evs0 = true.
Proof.
  unfold after_checks. cbn [trace].
  destruct (creates_dir ad (world s)); eexists; (split; [reflexivity|]);
    split; reflexivity.
Qed.

(** With or without a logger, a directory that is not writable ends
    [init_repo_dir]: by the exception when there is a logger to report
    to, by the dereference of the null pointer otherwise. *)
Lemma init_repo_dir_not_writable {PS : ParamStore} {CO : Collaborators}
    (ad : APIData) (logger : logger_ptr) (s : state) :
  conflict ad (world s) = false ->
  fs_is_directory_writable (world_after_create ad (world s)) (repository ad)
  = false ->
  fst (init_repo_dir ad logger s) =
  match logger with
  | nullptr => NullDeref
  | live_logger =>
      Throw (MLLibBadParamException
               ("destination model directory " ++ repository ad
                ++ " is not writable"))
  end.
Proof.
  unfold conflict, world_after_create, creates_dir, repository.
  intros Hc Hw. unfold init_repo_dir. run.
  destruct (fs_file_exists_dir (world s) (ad_get_string ad "repository"))
    as [exists_ isDir] eqn:E.
  cbn [fst snd] in *. rewrite Hc. run.
  destruct (negb exists_ &&
            (ad_has ad "create_repository"
             && ad_get_bool ad "create_repository")); run;
    rewrite Hw; run; destruct logger; reflexivity.
Qed.

Lemma init_repo_dir_conflict {PS : ParamStore} {CO : Collaborators}
    (ad : APIData) (logger : logger_ptr) (s : state) :
  conflict ad (world s) = true ->
  fst (init_repo_dir ad logger s) =
  match logger with
  | nullptr => NullDeref
  | live_logger =>
      Throw (MLLibBadParamException
               ("file exists with same name as repository " ++ repository ad))
  end.
Proof.
  unfold conflict. intros H. apply andb_true_iff in H as [He Hd].
  apply negb_true_iff in Hd.
  assert (E : fs_file_exists_dir (world s) (repository ad) = (true, false)).
  { destruct (fs_file_exists_dir (world s) (repository ad)); simpl in *.
    congruence. }
  destruct logger.
  - rewrite (init_repo_dir_conflict_null _ _ E). reflexivity.
  - rewrite (init_repo_dir_conflict_live _ _ E). reflexivity.
Qed.

(** The messages left with the logger are neither fetches nor
    extractions. *)
Lemma reports_no_http_get (logger : logger_ptr) (staged : bool)
    (modelf compressedf : string) (failed outcode : Z) :
  forallb (fun ev => negb (is_http_get ev))
          (staged_notice logger staged modelf) = true
  /\ forallb (fun ev => negb (is_http_get ev))
             (download_info logger compressedf) = true
  /\ forallb (fun ev => negb (is_http_get ev))
             (extraction_report logger failed) = true
  /\ forallb (fun ev => negb (is_http_get ev))
             (fetch_report logger compressedf outcode) = true.
Proof.
  unfold staged_notice, download_info, extraction_report, fetch_report.
  destruct logger, staged, (negb (failed =? 0)); repeat split.
Qed.

Lemma reports_no_uncompress (logger : logger_ptr) (staged : bool)
    (modelf compressedf : string) (failed outcode : Z) :
  forallb (fun ev => negb (is_uncompress ev))
          (staged_notice logger staged modelf) = true
  /\ forallb (fun ev => negb (is_uncompress ev))
             (download_info logger compressedf) = true
  /\ forallb (fun ev => negb (is_uncompress ev))
             (extraction_report logger failed) = true
  /\ forallb (fun ev => negb (is_uncompress ev))
             (fetch_report logger compressedf outcode) = true.
Proof.
  unfold staged_notice, download_info, extraction_report, fetch_report.
  destruct logger, staged, (negb (failed =? 0)); repeat split.
Qed.

(** When [init_repo_dir] comes to the installation and the archive is
    already staged in the repository, under a staged path that holds none
    of ["https://"], ["http://"], ["file://"], the HTTP client is not
    called and [uncompress] is called on the staged file with the
    repository as destination. *)
Lemma staged_archive_skips_fetch
    {PS : ParamStore} {CO : Collaborators}
    (ad : APIData) (logger : logger_ptr) (s : state) :
  checks_pass ad (world s) = true ->
  ad_has ad "init" = true ->
  fs_file_exists (world_after_create ad (world s)) (staged_path ad) = true ->
  has_fetch_scheme (staged_path ad) = false ->
  exists evs1 evs2 : list event,
    trace (snd (init_repo_dir ad logger s))
    = (trace s ++ evs1
       ++ EvUncompress (staged_path ad) (repository ad) :: evs2)%list
    /\ (forall url method, ~ In (EvHttpGet url method) (evs1 ++ evs2)%list).
Proof.
  intros Hchecks Hinit Hstaged Hscheme.
  rewrite (init_repo_dir_checks _ _ _ Hchecks), Hinit.
  assert (Harch : archive_to_install ad (world (after_checks ad s))
                  = staged_path ad).
  { unfold archive_to_install. cbn [after_checks world].
    rewrite Hstaged. reflexivity. }
  destruct (install_archive_skip ad logger (after_checks ad s)
              (after_checks_repo ad s)) as [_ [_ Ht]].
  { rewrite Harch. exact Hscheme. }
  cbv zeta in Ht. rewrite Harch in Ht.
  destruct (after_checks_trace ad s) as [evs0 [H0 [Hh0 _]]].
  rewrite H0 in Ht.
  exists (evs0 ++ EvFileExists (staged_path ad)
               :: staged_notice logger
                    (fs_file_exists (world (after_checks ad s))
                                    (staged_path ad))
                    (staged_path ad))%list,
         (extraction_report logger
            (fst (fs_uncompress (world (after_checks ad s)) (staged_path ad)
                                (repository ad)))).
  split.
  - rewrite Ht, <- !app_assoc. reflexivity.
  - apply no_http_get_in. rewrite !forallb_app, Hh0. cbn [forallb].
    rewrite (proj1 (reports_no_http_get logger _ _ "" 0 0)).
    rewrite (proj1 (proj2 (proj2 (reports_no_http_get logger false "" ""
                                    _ 0)))).
    reflexivity.
Qed.

Lemma staged_archive_skips_fetch_example :
  exists evs1 evs2 : list event,
    trace (snd (init_repo_dir Demo.plain_staged_ad live_logger
                              Demo.plain_staged_state))
    = (trace Demo.plain_staged_state ++ evs1
       ++ EvUncompress (staged_path Demo.plain_staged_ad)
                       (repository Demo.plain_staged_ad) :: evs2)%list
    /\ (forall url method, ~ In (EvHttpGet url method) (evs1 ++ evs2)%list).
Proof.
  apply (staged_archive_skips_fetch Demo.plain_staged_ad live_logger
           Demo.plain_staged_state); reflexivity.
Defined.

(** C3 at the failing input: the archive ["m.tar"] is staged in the
    repository ["models/http://cache"], whose own path holds ["http://"].
    The run tells the logger that it is not fetching the archive, then
    takes the staged path for a remote locator and calls the HTTP client
    on it; the fetch fails and nothing is extracted. *)
Theorem staged_archive_fetched :
  checks_pass Demo.staged_ad (world Demo.staged_state) = true
  /\ base_model_fname (init_locator Demo.staged_ad) = "m.tar"
  /\ fs_file_exists (world_after_create Demo.staged_ad
                                        (world Demo.staged_state))
                    (repository Demo.staged_ad ++ "/" ++ "m.tar") = true
  /\ trace (snd (init_repo_dir Demo.staged_ad live_logger Demo.staged_state))
     = [EvFileExists "models/http://cache";
        EvIsDirectoryWritable "models/http://cache";
        EvFileExists "models/http://cache/m.tar";
        EvLog LvlWarn
              "Init model {} is already in directory, not fetching it"
              ["models/http://cache/m.tar"];
        EvLog LvlInfo "Downloading init model {}"
              ["models/http://cache/m.tar"];
        EvHttpGet "models/http://cache/m.tar" "GET";
        EvLog LvlError
              "failed fetching model archive: models/http://cache/m.tar with code: -1"
              []]
  /\ fst (init_repo_dir Demo.staged_ad live_logger Demo.staged_state)
     = Throw (MLLibBadParamException
                "failed fetching model archive: models/http://cache/m.tar with code: -1").
Proof.
  repeat split.
Qed.

(** C10: for a locator that is not staged, [init_repo_dir] calls the HTTP
    client on the locator, before any extraction, as soon as
    ["https://"], ["http://"] or ["file://"] occurs in it at whatever
    position; when none of them occurs in it, the HTTP client is not
    called and [uncompress] is called on the locator itself. *)
Theorem fetch_decision_is_substring_test
    {PS : ParamStore} {CO : Collaborators}
    (ad : APIData) (logger : logger_ptr) (s : state) :
  checks_pass ad (world s) = true ->
  ad_has ad "init" = true ->
  fs_file_exists (world_after_create ad (world s)) (staged_path ad) = false ->
  ((exists scheme pre post,
       In scheme ["https://"; "http://"; "file://"]
       /\ init_locator ad = pre ++ scheme ++ post) ->
   exists evs1 evs2 : list event,
     trace (snd (init_repo_dir ad logger s))
     = (trace s ++ evs1 ++ EvHttpGet (init_locator ad) "GET" :: evs2)%list
     /\ (forall archive dest, ~ In (EvUncompress archive dest) evs1))
  /\ ((forall scheme pre post,
          In scheme ["https://"; "http://"; "file://"] ->
          init_locator ad <> pre ++ scheme ++ post) ->
      exists evs1 evs2 : list event,
        trace (snd (init_repo_dir ad logger s))
        = (trace s ++ evs1
           ++ EvUncompress (init_locator ad) (repository ad) :: evs2)%list
        /\ (forall url method, ~ In (EvHttpGet url method) (evs1 ++ evs2)%list)
        /\ (forall archive dest, ~ In (EvUncompress archive dest) evs1)).
Proof.
  intros Hchecks Hinit Hstaged.
  rewrite (init_repo_dir_checks _ _ _ Hchecks), Hinit.
  assert (Harch : archive_to_install ad (world (after_checks ad s))
                  = init_locator ad).
  { unfold archive_to_install. cbn [after_checks world].
    rewrite Hstaged. reflexivity. }
  assert (Hst : fs_file_exists (world (after_checks ad s)) (staged_path ad)
                = false) by exact Hstaged.
  destruct (after_checks_trace ad s) as [evs0 [H0 [Hh0 Hu0]]].
  split.
  - intros Hocc. apply has_fetch_scheme_occurs in Hocc.
    pose proof (install_archive_fetch ad logger (after_checks ad s)
                  (after_checks_repo ad s)) as Hrun.
    rewrite Harch, Hst in Hrun. specialize (Hrun Hocc). cbv zeta in Hrun.
    exists (evs0 ++ EvFileExists (staged_path ad)
                 :: download_info logger (init_locator ad))%list.
    assert (Hno : forall archive dest,
               ~ In (EvUncompress archive dest)
                    (evs0 ++ EvFileExists (staged_path ad)
                          :: download_info logger (init_locator ad))%list).
    { apply no_uncompress_in. rewrite forallb_app, Hu0. cbn [forallb].
      rewrite (proj1 (proj2 (reports_no_uncompress logger false "" _ 0 0))).
      reflexivity. }
    destruct (fst (http_get_call (world (after_checks ad s))
                                 (init_locator ad) "GET"))
      as [outcode content | outcode].
    + destruct Hrun as [_ [_ Ht]]. eexists. split; [|exact Hno].
      rewrite Ht, H0, <- !app_assoc. reflexivity.
    + destruct Hrun as [_ [_ Ht]]. eexists. split; [|exact Hno].
      rewrite Ht, H0, <- !app_assoc. reflexivity.
  - intros Hnone.
    assert (Hscheme : has_fetch_scheme (init_locator ad) = false).
    { destruct (has_fetch_scheme (init_locator ad)) eqn:E; [|reflexivity].
      apply has_fetch_scheme_occurs in E.
      destruct E as [scheme [pre [post [Hin Heq]]]].
      exfalso. exact (Hnone scheme pre post Hin Heq). }
    pose proof (install_archive_skip ad logger (after_checks ad s)
                  (after_checks_repo ad s)) as Hrun.
    rewrite Harch, Hst in Hrun. specialize (Hrun Hscheme). cbv zeta in Hrun.
    destruct Hrun as [_ [_ Ht]].
    exists (evs0 ++ [EvFileExists (staged_path ad)])%list,
           (extraction_report logger
              (fst (fs_uncompress (world (after_checks ad s))
                                  (init_locator ad) (repository ad)))).
    split; [|split].
    + rewrite Ht, H0, <- !app_assoc. reflexivity.
    + apply no_http_get_in. rewrite !forallb_app, Hh0. cbn [forallb].
      rewrite (proj1 (proj2 (proj2 (reports_no_http_get logger false "" ""
                                      _ 0)))).
      reflexivity.
    + apply no_uncompress_in. rewrite forallb_app, Hu0. reflexivity.
Qed.

Lemma fetch_decision_is_substring_test_witness :
  (exists evs1 evs2 : list event,
     trace (snd (init_repo_dir Demo.remote_ad nullptr Demo.remote_state))
     = (trace Demo.remote_state ++ evs1
        ++ EvHttpGet (init_locator Demo.remote_ad) "GET" :: evs2)%list
     /\ (forall archive dest, ~ In (EvUncompress archive dest) evs1))
  /\ (exists evs1 evs2 : list event,
        trace (snd (init_repo_dir Demo.local_ad nullptr Demo.local_state))
        = (trace Demo.local_state ++ evs1
           ++ EvUncompress (init_locator Demo.local_ad)
                           (repository Demo.local_ad) :: evs2)%list
        /\ (forall url method, ~ In (EvHttpGet url method) (evs1 ++ evs2)%list)
        /\ (forall archive dest, ~ In (EvUncompress archive dest) evs1)).
Proof.
  split.
  - apply (proj1 (fetch_decision_is_substring_test
                    Demo.remote_ad nullptr Demo.remote_state
                    eq_refl eq_refl eq_refl)).
    exists "https://", "", "host/m.tar". split; [simpl; auto | reflexivity].
  - apply (proj2 (fetch_decision_is_substring_test
                    Demo.local_ad nullptr Demo.local_state
                    eq_refl eq_refl eq_refl)).
    intros scheme pre post Hin Heq.
    assert (H : has_fetch_scheme (init_locator Demo.local_ad) = true).
    { apply has_fetch_scheme_occurs. exists scheme, pre, post. auto. }
    vm_compute in H. discriminate.
Defined.

(** Two runs: a locator that starts with ["https://"] is fetched, written
    to the staged path and extracted; a local path with ["http://"] in the
    middle is given to the HTTP client all the same. *)
Example remote_archive_run :
  fst (init_repo_dir Demo.remote_ad nullptr Demo.remote_state) = Ret tt
  /\ Demo.files (world (snd (init_repo_dir Demo.remote_ad nullptr
                                           Demo.remote_state)))
     = [("models/m2/m.tar", "archive")]
  /\ trace (snd (init_repo_dir Demo.remote_ad nullptr Demo.remote_state))
     = [EvFileExists "models/m2";
        EvIsDirectoryWritable "models/m2";
        EvFileExists "models/m2/m.tar";
        EvHttpGet "https://host/m.tar" "GET";
        EvOfstreamWrite "models/m2/m.tar" "archive";
        EvUncompress "models/m2/m.tar" "models/m2"].
Proof. repeat split. Qed.

Example embedded_scheme_run :
  trace (snd (init_repo_dir Demo.embedded_ad live_logger Demo.local_state))
  = [EvFileExists "models/m2";
     EvIsDirectoryWritable "models/m2";
     EvFileExists "models/m2/m.tar";
     EvLog LvlInfo "Downloading init model {}" ["/data/http://mirror/m.tar"];
     EvHttpGet "/data/http://mirror/m.tar" "GET";
     EvLog LvlError
           "failed fetching model archive: /data/http://mirror/m.tar with code: -1"
           []].
Proof. reflexivity. Qed.

(** How [init_repo_dir] ends once it has come to the installation. *)
Lemma init_repo_dir_fetch_throws {PS : ParamStore} {CO : Collaborators}
    (ad : APIData) (logger : logger_ptr) (s : state) (outcode : Z) :
  let w1 := world_after_create ad (world s) in
  let archive := archive_to_install ad w1 in
  checks_pass ad (world s) = true ->
  ad_has ad "init" = true ->
  has_fetch_scheme archive = true ->
  fst (http_get_call w1 archive "GET") = HttpThrow outcode ->
  fst (init_repo_dir ad logger s)
  = fetch_failure_outcome logger archive outcode.
Proof.
  intros w1 archive Hchecks Hinit Hscheme Hget.
  rewrite (init_repo_dir_checks _ _ _ Hchecks), Hinit.
  pose proof (install_archive_fetch ad logger (after_checks ad s)
                (after_checks_repo ad s) Hscheme) as Hrun.
  cbv zeta in Hrun. cbn [after_checks world] in Hrun.
  fold w1 in Hrun. fold archive in Hrun. rewrite Hget in Hrun.
  exact (proj1 Hrun).
Qed.

Lemma init_repo_dir_fetch_returns {PS : ParamStore} {CO : Collaborators}
    (ad : APIData) (logger : logger_ptr) (s : state)
    (outcode : Z) (content : string) :
  let w1 := world_after_create ad (world s) in
  let archive := archive_to_install ad w1 in
  let w2 := fs_ofstream_write (snd (http_get_call w1 archive "GET"))
                              (staged_path ad) content in
  checks_pass ad (world s) = true ->
  ad_has ad "init" = true ->
  has_fetch_scheme archive = true ->
  fst (http_get_call w1 archive "GET") = HttpReturn outcode content ->
  fst (init_repo_dir ad logger s)
  = extraction_outcome logger
      (fst (fs_uncompress w2 (staged_path ad) (repository ad))).
Proof.
  intros w1 archive w2 Hchecks Hinit Hscheme Hget.
  rewrite (init_repo_dir_checks _ _ _ Hchecks), Hinit.
  pose proof (install_archive_fetch ad logger (after_checks ad s)
                (after_checks_repo ad s) Hscheme) as Hrun.
  cbv zeta in Hrun. cbn [after_checks world] in Hrun.
  fold w1 in Hrun. fold archive in Hrun. rewrite Hget in Hrun.
  exact (proj1 Hrun).
Qed.

Lemma init_repo_dir_no_fetch {PS : ParamStore} {CO : Collaborators}
    (ad : APIData) (logger : logger_ptr) (s : state) :
  let w1 := world_after_create ad (world s) in
  let archive := archive_to_install ad w1 in
  checks_pass ad (world s) = true ->
  ad_has ad "init" = true ->
  has_fetch_scheme archive = false ->
  fst (init_repo_dir ad logger s)
  = extraction_outcome logger
      (fst (fs_uncompress w1 archive (repository ad))).
Proof.
  intros w1 archive Hchecks Hinit Hscheme.
  rewrite (init_repo_dir_checks _ _ _ Hchecks), Hinit.
  exact (proj1 (install_archive_skip ad logger (after_checks ad s)
                  (after_checks_repo ad s) Hscheme)).
Qed.

Lemma extraction_outcome_null (failed : Z) :
  (failed <> 0 -> extraction_outcome nullptr failed = NullDeref)
  /\ (failed = 0 -> extraction_outcome nullptr failed = Ret tt).
Proof.
  unfold extraction_outcome. split; intros H.
  - apply Z.eqb_neq in H. rewrite H. reflexivity.
  - subst failed. reflexivity.
Qed.

(** With the null logger, [init_repo_dir] never ends with an exception. *)
Lemma init_repo_dir_null_never_throws {PS : ParamStore} {CO : Collaborators}
    (ad : APIData) (s : state) (e : exn) :
  fst (init_repo_dir ad nullptr s) <> Throw e.
Proof.
  destruct (conflict ad (world s)) eqn:Ec.
  { rewrite (init_repo_dir_conflict _ nullptr _ Ec). discriminate. }
  destruct (fs_is_directory_writable (world_after_create ad (world s))
                                     (repository ad)) eqn:Ew.
  2:{ rewrite (init_repo_dir_not_writable _ nullptr _ Ec Ew). discriminate. }
  assert (Hchecks : checks_pass ad (world s) = true).
  { unfold checks_pass. rewrite Ec, Ew. reflexivity. }
  destruct (ad_has ad "init") eqn:Hinit.
  2:{ rewrite (init_repo_dir_checks _ _ _ Hchecks), Hinit. discriminate. }
  assert (Hex : forall failed, extraction_outcome nullptr failed <> Throw e).
  { intros failed. unfold extraction_outcome.
    destruct (negb (failed =? 0)); discriminate. }
  destruct (has_fetch_scheme
              (archive_to_install ad (world_after_create ad (world s))))
    eqn:Hscheme.
  - destruct (fst (http_get_call (world_after_create ad (world s))
                     (archive_to_install ad (world_after_create ad (world s)))
                     "GET")) as [outcode content | outcode] eqn:Hget.
    + rewrite (init_repo_dir_fetch_returns _ nullptr _ _ _
                 Hchecks Hinit Hscheme Hget). apply Hex.
    + rewrite (init_repo_dir_fetch_throws _ nullptr _ _
                 Hchecks Hinit Hscheme Hget). discriminate.
  - rewrite (init_repo_dir_no_fetch _ nullptr _ Hchecks Hinit Hscheme).
    apply Hex.
Qed.

(** Both constructors without a logger are [init_repo_dir] with the null
    pointer; the second starts from the object whose [_repo] is [repo]. *)
Lemma constructors_pass_nullptr {PS : ParamStore} {CO : Collaborators}
    (ad : APIData) (repo : string) (s : state) :
  MLModel_ad ad s = init_repo_dir ad nullptr s
  /\ MLModel_ad_repo ad repo s
     = init_repo_dir ad nullptr
         {| self := set_repo repo (self s); adg := adg s;
            world := world s; trace := trace s |}.
Proof. split; reflexivity. Qed.

(** C8: the constructors [MLModel(ad)] and [MLModel(ad, repo)] run
    [init_repo_dir] with the null logger.  On each of the four fatal
    branches (a file in the place of the repository, a directory that is
    not writable, a fetch that throws, an extraction that fails) the run
    ends in the dereference of the null pointer by [logger->error], and in
    no case with an exception; the notice of a staged archive and the
    message of a download are guarded, and the run goes through them to a
    normal return. *)
Theorem null_logger_dereferenced_on_fatal_branches
    {PS : ParamStore} {CO : Collaborators}
    (ad : APIData) (repo0 : string) (s : state) (construct : M unit) :
  construct = MLModel_ad ad \/ construct = MLModel_ad_repo ad repo0 ->
  let w1 := world_after_create ad (world s) in
  let archive := archive_to_install ad w1 in
  let fetched := http_get_call w1 archive "GET" in
  (conflict ad (world s) = true -> fst (construct s) = NullDeref)
  /\ (conflict ad (world s) = false ->
      fs_is_directory_writable w1 (repository ad) = false ->
      fst (construct s) = NullDeref)
  /\ (checks_pass ad (world s) = true -> ad_has ad "init" = true ->
      has_fetch_scheme archive = true ->
      forall outcode, fst fetched = HttpThrow outcode ->
      fst (construct s) = NullDeref)
  /\ (checks_pass ad (world s) = true -> ad_has ad "init" = true ->
      has_fetch_scheme archive = false ->
      fst (fs_uncompress w1 archive (repository ad)) <> 0 ->
      fst (construct s) = NullDeref)
  /\ (checks_pass ad (world s) = true -> ad_has ad "init" = true ->
      has_fetch_scheme archive = true ->
      forall outcode content, fst fetched = HttpReturn outcode content ->
      fst (fs_uncompress
             (fs_ofstream_write (snd fetched) (staged_path ad) content)
             (staged_path ad) (repository ad)) <> 0 ->
      fst (construct s) = NullDeref)
  /\ (forall e, fst (construct s) <> Throw e)
  /\ (checks_pass ad (world s) = true -> ad_has ad "init" = true ->
      fs_file_exists w1 (staged_path ad) = true ->
      has_fetch_scheme archive = false ->
      fst (fs_uncompress w1 archive (repository ad)) = 0 ->
      fst (construct s) = Ret tt)
  /\ (checks_pass ad (world s) = true -> ad_has ad "init" = true ->
      has_fetch_scheme archive = true ->
      forall outcode content, fst fetched = HttpReturn outcode content ->
      fst (fs_uncompress
             (fs_ofstream_write (snd fetched) (staged_path ad) content)
             (staged_path ad) (repository ad)) = 0 ->
      fst (construct s) = Ret tt).
Proof.
  intros Hc.
  assert (Hrun : exists s0, construct s = init_repo_dir ad nullptr s0
                            /\ world s0 = world s).
  { destruct Hc as [-> | ->].
    - exists s. split; reflexivity.
    - eexists. split; [apply constructors_pass_nullptr | reflexivity]. }
  destruct Hrun as [s0 [-> Hw]]. rewrite <- Hw. clear Hc Hw.
  cbv zeta. repeat split.
  - intros H. rewrite (init_repo_dir_conflict _ nullptr _ H). reflexivity.
  - intros Hno Hw.
    rewrite (init_repo_dir_not_writable _ nullptr _ Hno Hw). reflexivity.
  - intros Hchecks Hinit Hscheme outcode Hget.
    rewrite (init_repo_dir_fetch_throws _ nullptr _ _
               Hchecks Hinit Hscheme Hget). reflexivity.
  - intros Hchecks Hinit Hscheme Hfail.
    rewrite (init_repo_dir_no_fetch _ nullptr _ Hchecks Hinit Hscheme).
    apply extraction_outcome_null, Hfail.
  - intros Hchecks Hinit Hscheme outcode content Hget Hfail.
    rewrite (init_repo_dir_fetch_returns _ nullptr _ _ _
               Hchecks Hinit Hscheme Hget).
    apply extraction_outcome_null, Hfail.
  - apply init_repo_dir_null_never_throws.
  - intros Hchecks Hinit _ Hscheme Hok.
    rewrite (init_repo_dir_no_fetch _ nullptr _ Hchecks Hinit Hscheme).
    apply extraction_outcome_null, Hok.
  - intros Hchecks Hinit Hscheme outcode content Hget Hok.
    rewrite (init_repo_dir_fetch_returns _ nullptr _ _ _
               Hchecks Hinit Hscheme Hget).
    apply extraction_outcome_null, Hok.
Qed.

Lemma null_logger_dereferenced_on_fatal_branches_witness :
  fst (MLModel_ad_repo Demo.local_ad "models/m2" Demo.missing_archive_state)
  = NullDeref
  /\ fst (MLModel_ad Demo.plain_staged_ad Demo.plain_staged_state) = Ret tt.
Proof.
  split.
  - apply (proj1 (proj2 (proj2 (proj2
             (null_logger_dereferenced_on_fatal_branches
                Demo.local_ad "models/m2" Demo.missing_archive_state
                (MLModel_ad_repo Demo.local_ad "models/m2")
                (or_intror eq_refl)))))); try reflexivity.
    vm_compute. discriminate.
  - apply (proj1 (proj2 (proj2 (proj2 (proj2 (proj2 (proj2
             (null_logger_dereferenced_on_fatal_branches
                Demo.plain_staged_ad "" Demo.plain_staged_state
                (MLModel_ad Demo.plain_staged_ad)
                (or_introl eq_refl))))))))); reflexivity.
Defined.

(** With a logger, the same four branches end with the exception. *)
Lemma live_logger_throws_on_fatal_branches
    {PS : ParamStore} {CO : Collaborators} (ad : APIData) (s : state) :
  let w1 := world_after_create ad (world s) in
  let archive := archive_to_install ad w1 in
  (conflict ad (world s) = true ->
   exists what,
     fst (init_repo_dir ad live_logger s) = Throw (MLLibBadParamException what))
  /\ (conflict ad (world s) = false ->
      fs_is_directory_writable w1 (repository ad) = false ->
      exists what,
        fst (init_repo_dir ad live_logger s)
        = Throw (MLLibBadParamException what))
  /\ (checks_pass ad (world s) = true -> ad_has ad "init" = true ->
      has_fetch_scheme archive = true ->
      forall outcode,
        fst (http_get_call w1 archive "GET") = HttpThrow outcode ->
        exists what,
          fst (init_repo_dir ad live_logger s)
          = Throw (MLLibBadParamException what))
  /\ (checks_pass ad (world s) = true -> ad_has ad "init" = true ->
      has_fetch_scheme archive = false ->
      fst (fs_uncompress w1 archive (repository ad)) <> 0 ->
      exists what,
        fst (init_repo_dir ad live_logger s)
        = Throw (MLLibBadParamException what)).
Proof.
  cbv zeta. repeat split.
  - intros H. rewrite (init_repo_dir_conflict _ live_logger _ H). eauto.
  - intros Hno Hw.
    rewrite (init_repo_dir_not_writable _ live_logger _ Hno Hw). eauto.
  - intros Hchecks Hinit Hscheme outcode Hget.
    rewrite (init_repo_dir_fetch_throws _ live_logger _ _
               Hchecks Hinit Hscheme Hget). unfold fetch_failure_outcome.
    eauto.
  - intros Hchecks Hinit Hscheme Hfail.
    rewrite (init_repo_dir_no_fetch _ live_logger _ Hchecks Hinit Hscheme).
    unfold extraction_outcome. apply Z.eqb_neq in Hfail. rewrite Hfail.
    simpl. eauto.
Qed.

(** C4 at the failing input: [MLModel(ad)] on a repository path taken by
    the regular file ["model.bin"].  The run ends in the dereference of the
    null logger, not with the exception of the conflict. *)
Theorem repository_conflict_null_logger :
  fs_file_exists_dir (world Demo.conflict_state)
                     (repository Demo.conflict_ad) = (true, false)
  /\ fst (MLModel_ad Demo.conflict_ad Demo.conflict_state) = NullDeref
  /\ (forall what,
        fst (MLModel_ad Demo.conflict_ad Demo.conflict_state)
        <> Throw (MLLibBadParamException what))
  /\ trace (snd (MLModel_ad Demo.conflict_ad Demo.conflict_state))
     = [EvFileExists "model.bin"].
Proof.
  repeat split. intros what. vm_compute. discriminate.
Qed.

(** ** The configuration overlay *)

(** Without [config.json], [read_config_json] asks the file system once
    and returns. *)
Lemma read_config_json_absent {PS : ParamStore} {CO : Collaborators}
    (logger : logger_ptr) (s : state) :
  fs_file_exists (world s) (_repo (self s) ++ "/config.json") = false ->
  read_config_json logger s =
  (Ret tt, {| self := self s; adg := adg s; world := world s;
              trace := trace s
                       ++ [EvFileExists (_repo (self s) ++ "/config.json")] |}).
Proof.
  intros H. unfold read_config_json. run. rewrite H. run. reflexivity.
Qed.

(** On a [config.json] that the parser rejects, [read_config_json] reports
    the error through the logger and throws; the object, the parameter set
    and the world stay as they were. *)
Lemma read_config_json_malformed {PS : ParamStore} {CO : Collaborators}
    (logger : logger_ptr) (s : state) :
  let cf := _repo (self s) ++ "/config.json" in
  let jbuf := match fs_ifstream (world s) cf with
              | Some content => content
              | None => ""
              end in
  fs_file_exists (world s) cf = true ->
  Parse jbuf = None ->
  fst (read_config_json logger s) =
    match logger with
    | nullptr => NullDeref
    | live_logger =>
        Throw (MLLibBadParamException ("Failed parsing config file " ++ cf))
    end
  /\ self (snd (read_config_json logger s)) = self s
  /\ adg (snd (read_config_json logger s)) = adg s
  /\ world (snd (read_config_json logger s)) = world s.
Proof.
  intros cf jbuf H Hparse. unfold read_config_json. run. fold cf. rewrite H.
  run. fold jbuf. rewrite Hparse. destruct logger; run; repeat split.
Qed.

(** When [config.json] holds malformed JSON, [read_config_json] called
    with a logger raises the bad-parameter exception, and with or without
    a logger it leaves the caller's parameter set as it was; when
    [config.json] is absent it returns without raising and leaves the
    parameter set as it was. *)
Lemma read_config_json_malformed_or_absent
    {PS : ParamStore} {CO : Collaborators} (logger : logger_ptr) (s : state) :
  let cf := _repo (self s) ++ "/config.json" in
  let jbuf := match fs_ifstream (world s) cf with
              | Some content => content
              | None => ""
              end in
  (fs_file_exists (world s) cf = true -> Parse jbuf = None ->
   (logger = live_logger ->
    fst (read_config_json logger s)
    = Throw (MLLibBadParamException ("Failed parsing config file " ++ cf)))
   /\ adg (snd (read_config_json logger s)) = adg s)
  /\ (fs_file_exists (world s) cf = false ->
      fst (read_config_json logger s) = Ret tt
      /\ adg (snd (read_config_json logger s)) = adg s
      /\ self (snd (read_config_json logger s)) = self s
      /\ world (snd (read_config_json logger s)) = world s).
Proof.
  intros cf jbuf. split.
  - intros H Hparse.
    destruct (read_config_json_malformed logger s H Hparse)
      as [Hout [_ [Hadg _]]].
    split; [|exact Hadg]. intros ->. exact Hout.
  - intros H. rewrite (read_config_json_absent logger s H). repeat split.
Qed.

Lemma read_config_json_malformed_or_absent_example :
  (fst (read_config_json live_logger Demo.malformed_config_state)
   = Throw (MLLibBadParamException
              "Failed parsing config file models/m1/config.json")
   /\ adg (snd (read_config_json live_logger Demo.malformed_config_state))
      = adg Demo.malformed_config_state)
  /\ (fst (read_config_json live_logger Demo.no_config_state) = Ret tt
      /\ adg (snd (read_config_json live_logger Demo.no_config_state))
         = adg Demo.no_config_state).
Proof.
  split.
  - destruct (proj1 (read_config_json_malformed_or_absent
                       live_logger Demo.malformed_config_state)
                    eq_refl eq_refl) as [Hthrow Hadg].
    split; [exact (Hthrow eq_refl) | exact Hadg].
  - destruct (proj2 (read_config_json_malformed_or_absent
                       live_logger Demo.no_config_state) eq_refl)
      as [Hret [Hadg _]].
    split; [exact Hret | exact Hadg].
Defined.

(** C2 at the failing input: [MLModel(ad, adg, logger)] with an empty
    [logger] on a repository whose archive is staged and whose
    [config.json] holds ["{"].  [init_repo_dir] goes through, its messages
    being guarded; [read_config_json] then reports the parse error through
    the null pointer instead of raising the exception.  The parameter set
    is left as it was. *)
Theorem read_config_json_null_logger :
  fs_file_exists (world Demo.malformed_config_state)
                 "models/m1/config.json" = true
  /\ Demo.parse "{" = None
  /\ fst (read_config_json nullptr Demo.malformed_config_state) = NullDeref
  /\ fst (MLModel_ad_adg_logger Demo.plain_staged_ad nullptr
                                Demo.malformed_init_state) = NullDeref
  /\ trace (snd (MLModel_ad_adg_logger Demo.plain_staged_ad nullptr
                                       Demo.malformed_init_state))
     = [EvFileExists "models/m1";
        EvIsDirectoryWritable "models/m1";
        EvFileExists "models/m1/m.tar";
        EvUncompress "models/m1/m.tar" "models/m1";
        EvFileExists "models/m1/config.json";
        EvIfstream "models/m1/config.json";
        EvParse "{"]
  /\ adg (snd (MLModel_ad_adg_logger Demo.plain_staged_ad nullptr
                                     Demo.malformed_init_state))
     = adg Demo.malformed_init_state
  /\ fst (MLModel_ad_adg_logger Demo.plain_staged_ad live_logger
                                Demo.malformed_init_state)
     = Throw (MLLibBadParamException
                "Failed parsing config file models/m1/config.json").
Proof.
  repeat split.
Qed.

(** ** The similarity-search index *)

Lemma constructed_snoc (tr : list event) (ev : event) :
  constructed (tr ++ [ev])
  = (constructed tr + if is_new_SearchEngine ev then 1 else 0)%nat.
Proof.
  unfold constructed. rewrite List.filter_app, length_app. simpl.
  destruct (is_new_SearchEngine ev); reflexivity.
Qed.

(** A call of a backend routine leaves the object as it is and adds its
    own event to the trace. *)
Lemma backend_call_state {PS : ParamStore} {CO : Collaborators}
    (ev : event) (f : SearchEngine -> World -> option exn * World)
    (se : SearchEngine) (s : state) :
  self (snd (backend_call ev f se s)) = self s
  /\ trace (snd (backend_call ev f se s)) = (trace s ++ [ev])%list.
Proof.
  unfold backend_call. run. destruct (f se (world s)) as [[e|] w]; run;
    split; reflexivity.
Qed.

Lemma create_sim_search_existing {PS : ParamStore} {CO : Collaborators}
    (BUILD : backend) (dim : Z) (output_params : OutputConnector)
    (s : state) (se : SearchEngine) :
  _se (self s) = Some se ->
  create_sim_search BUILD dim output_params s = (Ret tt, s).
Proof.
  intros H. unfold create_sim_search. run. rewrite H. reflexivity.
Qed.

(** The first call: one object is constructed, tuned and stored in [_se]
    before the backend creates the index. *)
Lemma create_sim_search_first {PS : ParamStore} {CO : Collaborators}
    (BUILD : backend) (dim : Z) (output_params : OutputConnector)
    (s : state) :
  _se (self s) = None ->
  let s' := snd (create_sim_search BUILD dim output_params s) in
  _se (self s')
  = Some (tuned_SearchEngine BUILD (self s) dim output_params)
  /\ trace s'
     = (trace s ++ [EvNewSearchEngine BUILD dim (_repo (self s));
                    EvCreateIndex])%list.
Proof.
  intros H. unfold create_sim_search. run. rewrite H. run.
  match goal with
  | |- context [backend_call ?ev ?f ?se ?st] =>
      destruct (backend_call_state ev f se st) as [Hs Ht]
  end.
  cbn [self trace] in Hs, Ht. cbv zeta. rewrite Hs, Ht.
  split; [reflexivity | rewrite <- app_assoc; reflexivity].
Qed.

Lemma create_sim_search_has_index {PS : ParamStore} {CO : Collaborators}
    (BUILD : backend) (dim : Z) (output_params : OutputConnector)
    (s : state) :
  exists se,
    _se (self (snd (create_sim_search BUILD dim output_params s))) = Some se.
Proof.
  destruct (_se (self s)) as [se|] eqn:E.
  - rewrite (create_sim_search_existing _ _ _ _ _ E). exists se. exact E.
  - destruct (create_sim_search_first BUILD dim output_params s E) as [H _].
    eexists. exact H.
Qed.

Lemma run_op_invariant {PS : ParamStore} {CO : Collaborators}
    (BUILD : backend) (op : lifecycle_op) (s : state) :
  index_invariant s -> index_invariant (snd (run_op BUILD op s)).
Proof.
  unfold index_invariant. intros Hinv.
  destruct op as [dim output_params | | |]; cbn [run_op].
  - destruct (_se (self s)) as [se|] eqn:E.
    + rewrite (create_sim_search_existing _ _ _ _ _ E). cbn [snd].
      rewrite E. exact Hinv.
    + destruct (create_sim_search_first BUILD dim output_params s E)
        as [Hs Ht].
      cbv zeta in Hs, Ht. rewrite Hs, Ht.
      change [EvNewSearchEngine BUILD dim (_repo (self s)); EvCreateIndex]
        with ([EvNewSearchEngine BUILD dim (_repo (self s))]
              ++ [EvCreateIndex])%list.
      rewrite app_assoc, !constructed_snoc. simpl. lia.
  - unfold create_index. run. destruct (_se (self s)) as [se|] eqn:E.
    + destruct (backend_call_state EvCreateIndex se_create_index se s)
        as [Hs Ht].
      rewrite Hs, Ht, E, constructed_snoc. simpl. lia.
    + cbn [snd]. rewrite E. exact Hinv.
  - unfold build_index. run. destruct (_se (self s)) as [se|] eqn:E.
    + destruct (backend_call_state EvUpdateIndex se_update_index se s)
        as [Hs Ht].
      rewrite Hs, Ht, E, constructed_snoc. simpl. lia.
    + cbn [snd]. rewrite E. exact Hinv.
  - unfold remove_index. run. destruct (_se (self s)) as [se|] eqn:E.
    + destruct (backend_call_state EvRemoveIndex se_remove_index se s)
        as [Hs Ht].
      rewrite Hs, Ht, E, constructed_snoc. simpl. lia.
    + cbn [snd]. rewrite E. exact Hinv.
Qed.

Lemma run_ops_invariant {PS : ParamStore} {CO : Collaborators}
    (BUILD : backend) (ops : list lifecycle_op) (s : state) :
  index_invariant s -> index_invariant (run_ops BUILD ops s).
Proof.
  revert s. induction ops as [|op rest IH]; intros s Hinv; [exact Hinv|].
  cbn [run_ops]. apply IH, run_op_invariant, Hinv.
Qed.

(** C5: a call of [create_sim_search] on an object that has an index
    returns at once and leaves the object, the world and the trace as they
    are: no second index object is constructed.  So a second call after a
    first one changes nothing, and over any sequence of index operations on
    a new repository at most one index object is ever constructed. *)
Theorem create_sim_search_idempotent
    {PS : ParamStore} {CO : Collaborators} (BUILD : backend) (s : state)
    (dim1 dim2 : Z) (params1 params2 : OutputConnector) :
  (forall se, _se (self s) = Some se ->
              create_sim_search BUILD dim2 params2 s = (Ret tt, s))
  /\ (let s1 := snd (create_sim_search BUILD dim1 params1 s) in
      create_sim_search BUILD dim2 params2 s1 = (Ret tt, s1))
  /\ (forall ops,
        _se (self s) = None -> constructed (trace s) = 0%nat ->
        (constructed (trace (run_ops BUILD ops s)) <= 1)%nat).
Proof.
  split; [|split].
  - intros se H. exact (create_sim_search_existing _ _ _ _ _ H).
  - cbv zeta.
    destruct (create_sim_search_has_index BUILD dim1 params1 s) as [se H].
    exact (create_sim_search_existing _ _ _ _ _ H).
  - intros ops Hnone Hzero.
    assert (Hinv : index_invariant s).
    { unfold index_invariant. rewrite Hnone, Hzero. lia. }
    pose proof (run_ops_invariant BUILD ops s Hinv) as H.
    unfold index_invariant in H.
    destruct (_se (self (run_ops BUILD ops s))); lia.
Qed.

Lemma create_sim_search_idempotent_witness :
  create_sim_search (USE_FAISS true) 64 Demo.tuning Demo.indexed_state
  = (Ret tt, Demo.indexed_state)
  /\ (constructed
        (trace (run_ops (USE_FAISS true)
                  [OpCreateSimSearch 128 Demo.tuning; OpBuildIndex;
                   OpCreateSimSearch 64 Demo.tuning; OpRemoveIndex;
                   OpCreateSimSearch 32 Demo.tuning]
                  Demo.new_state)) <= 1)%nat.
Proof.
  split.
  - destruct (create_sim_search_has_index (USE_FAISS true) 128 Demo.tuning
                Demo.new_state) as [se H].
    exact (proj1 (create_sim_search_idempotent (USE_FAISS true)
                    Demo.indexed_state 128 64 Demo.tuning Demo.tuning)
                 se H).
  - exact (proj2 (proj2 (create_sim_search_idempotent (USE_FAISS true)
                           Demo.new_state 128 64 Demo.tuning Demo.tuning))
                 _ eq_refl eq_refl).
Defined.

(** C6: on an object without an index, [build_index] and [remove_index]
    return at once and leave the object, the world and the trace as they
    are: no exception, no call of the backend, nothing written or removed. *)
Theorem index_operations_without_index
    {PS : ParamStore} {CO : Collaborators} (s : state) :
  _se (self s) = None ->
  build_index s = (Ret tt, s) /\ remove_index s = (Ret tt, s).
Proof.
  intros H. unfold build_index, remove_index. run. rewrite H.
  split; reflexivity.
Qed.

Lemma index_operations_without_index_witness :
  build_index Demo.new_state = (Ret tt, Demo.new_state)
  /\ remove_index Demo.new_state = (Ret tt, Demo.new_state).
Proof.
  apply (index_operations_without_index Demo.new_state).
  reflexivity.
Defined.

(** The tuning that the first call applies under [USE_FAISS] with
    [USE_GPU_FAISS]: the fields given replace the defaults, and a list of
    devices turns the GPU on. *)
Example create_sim_search_tuning :
  _se (self Demo.indexed_state)
  = Some {| se_dim := 128; se_repo := "models/m1";
            _tse := TFaiss {| _index_key := "IVF20,SQ8";
                              _train_samples_size := 100000;
                              _ondisk := false; _nprobe := 4;
                              _gpu := true; _gpuids := [0; 1] |} |}
  /\ trace Demo.indexed_state
     = [EvNewSearchEngine (USE_FAISS true) 128 "models/m1"; EvCreateIndex].
Proof. split; reflexivity. Qed.

(** * Further properties of the class *)

(** ** Cutting lines and paths *)

Lemma find_char_take (c : ascii) (s : string) (n : nat) :
  Str.find_char c s = Some n ->
  s = Str.take n s ++ String c (Str.substr_from (S n) s)
  /\ Str.find_char c (Str.take n s) = None
  /\ String.length (Str.take n s) = n.
Proof.
  revert n. induction s as [|a r IH]; intros n H; simpl in H; [discriminate|].
  destruct (Ascii.eqb a c) eqn:E.
  - injection H as <-. apply Ascii.eqb_eq in E. subst a. repeat split.
  - destruct (Str.find_char c r) as [p|] eqn:Ep; [|discriminate].
    injection H as <-. destruct (IH p eq_refl) as [H1 [H2 H3]].
    change (Str.substr_from (S (S p)) (String a r))
      with (Str.substr_from (S p) r).
    change (Str.take (S p) (String a r)) with (String a (Str.take p r)).
    repeat split.
    + change (String a r
              = String a (Str.take p r
                          ++ String c (Str.substr_from (S p) r))).
      f_equal. exact H1.
    + cbn [Str.find_char]. rewrite E, H2. reflexivity.
    + cbn [String.length]. f_equal. exact H3.
Qed.

(** A line with a space is cut at its first space: the key has no space,
    the value is all that follows, and the line is the key, the space and
    the value.  A line without a space is both its key and its value. *)
Theorem line_key_value_split (line : string) :
  match Str.find_char " " line with
  | Some n =>
      line = line_key line ++ String " " (line_value line)
      /\ Str.find_char " " (line_key line) = None
      /\ String.length (line_key line) = n
  | None => line_key line = line /\ line_value line = line
  end.
Proof.
  unfold line_key, line_value.
  destruct (Str.find_char " " line) as [n|] eqn:E.
  - exact (find_char_take _ _ _ E).
  - split; reflexivity.
Qed.

Lemma find_last_of_none (c : ascii) (s : string) :
  Str.find_last_of c s = None -> Str.find_char c s = None.
Proof.
  induction s as [|a r IH]; simpl; [reflexivity|].
  destruct (Str.find_last_of c r); [discriminate|].
  destruct (Ascii.eqb a c); [discriminate|]. intros _.
  rewrite IH; reflexivity.
Qed.

(** The base name of a locator holds no ["/"], and the locator is what
    comes before its last ["/"], that ["/"] and the base name; a locator
    without ["/"] is its own base name. *)
Theorem base_model_fname_suffix (compressedf : string) :
  Str.find_char "/" (base_model_fname compressedf) = None
  /\ match Str.find_last_of "/" compressedf with
     | Some n =>
         compressedf
         = Str.take n compressedf ++ String "/" (base_model_fname compressedf)
     | None => base_model_fname compressedf = compressedf
     end.
Proof.
  unfold base_model_fname.
  induction compressedf as [|a r IH]; [split; reflexivity|].
  cbn [Str.find_last_of].
  destruct (Str.find_last_of "/" r) as [p|] eqn:E.
  - change (Str.succ_pos (Some (S p))) with (S (S p)).
    change (Str.substr_from (S (S p)) (String a r))
      with (Str.substr_from (S p) r).
    change (Str.take (S p) (String a r)) with (String a (Str.take p r)).
    change (Str.succ_pos (Some p)) with (S p) in IH.
    destruct IH as [H1 H2]. split; [exact H1|].
    change (String a r
            = String a (Str.take p r
                        ++ String "/" (Str.substr_from (S p) r))).
    f_equal. exact H2.
  - change (Str.succ_pos None) with 0%nat in IH.
    change (Str.substr_from 0 r) with r in IH.
    destruct IH as [H1 _]. destruct (Ascii.eqb a "/") eqn:Ea.
    + change (Str.succ_pos (Some 0%nat)) with 1%nat.
      change (Str.substr_from 1 (String a r)) with r.
      change (Str.take 0 (String a r)) with EmptyString.
      apply Ascii.eqb_eq in Ea. subst a. split; [exact H1 | reflexivity].
    + change (Str.succ_pos None) with 0%nat.
      change (Str.substr_from 0 (String a r)) with (String a r).
      split; [|reflexivity].
      cbn [Str.find_char]. rewrite Ea, H1. reflexivity.
Qed.

(** ** The lines of a stream *)

Lemma stream_lines_nonempty (ff : string) : stream_lines ff <> [].
Proof.
  induction ff as [|c r IH]; simpl; [discriminate|].
  destruct (Ascii.eqb c newline); [discriminate|].
  destruct (stream_lines r); [contradiction|discriminate].
Qed.

Lemma stream_lines_app (line rest : string) :
  Str.find_char newline line = None ->
  stream_lines (line ++ String newline rest) = line :: stream_lines rest.
Proof.
  induction line as [|c l IH]; intros H.
  - simpl. reflexivity.
  - simpl in H. destruct (Ascii.eqb c newline) eqn:E; [discriminate|].
    destruct (Str.find_char newline l) eqn:El; [discriminate|].
    change (String c l ++ String newline rest)
      with (String c (l ++ String newline rest)).
    cbn [stream_lines]. rewrite E, (IH eq_refl). reflexivity.
Qed.

Lemma stream_lines_single (line : string) :
  Str.find_char newline line = None -> stream_lines line = [line].
Proof.
  induction line as [|c l IH]; intros H; [reflexivity|].
  simpl in H. destruct (Ascii.eqb c newline) eqn:E; [discriminate|].
  destruct (Str.find_char newline l) eqn:El; [discriminate|].
  cbn [stream_lines]. rewrite E, (IH eq_refl). reflexivity.
Qed.

(** The loop of [read_corresp_file] reads every character of the stream
    once: the lines it reads hold no newline, there is at least one, and
    joined by newlines they are the stream.  Conversely a text made of
    lines joined by newlines is read back as these lines. *)
Theorem stream_lines_join (ff : string) (lines : list string) :
  (join_lines (stream_lines ff) = ff
   /\ Forall (fun line => Str.find_char newline line = None)
             (stream_lines ff)
   /\ stream_lines ff <> [])
  /\ (lines <> [] ->
      Forall (fun line => Str.find_char newline line = None) lines ->
      stream_lines (join_lines lines) = lines).
Proof.
  split.
  - split; [|split; [|apply stream_lines_nonempty]].
    + induction ff as [|c r IH]; [reflexivity|].
      cbn [stream_lines]. destruct (Ascii.eqb c newline) eqn:E.
      * apply Ascii.eqb_eq in E. subst c.
        pose proof (stream_lines_nonempty r) as Hne.
        destruct (stream_lines r) as [|l ls]; [contradiction|].
        change (join_lines (EmptyString :: l :: ls))
          with (String newline (join_lines (l :: ls))).
        rewrite IH. reflexivity.
      * pose proof (stream_lines_nonempty r) as Hne.
        destruct (stream_lines r) as [|l ls]; [contradiction|].
        rewrite <- IH. destruct ls; reflexivity.
    + induction ff as [|c r IH]; [repeat constructor|].
      cbn [stream_lines]. destruct (Ascii.eqb c newline) eqn:E.
      * constructor; [reflexivity | exact IH].
      * destruct (stream_lines r) as [|l ls]; [repeat constructor|].
        -- simpl. rewrite E. reflexivity.
        -- inversion IH as [|? ? Hl Hls]; subst. constructor; [|exact Hls].
           simpl. rewrite E, Hl. reflexivity.
  - induction lines as [|l ls IH]; intros Hne Hall; [contradiction|].
    inversion Hall as [|? ? Hl Hls]; subst.
    destruct ls as [|l' ls'].
    + simpl. apply stream_lines_single, Hl.
    + change (join_lines (l :: l' :: ls'))
        with (l ++ String newline (join_lines (l' :: ls'))).
      rewrite (stream_lines_app _ _ Hl), IH; [reflexivity|discriminate|exact Hls].
Qed.

Lemma stream_lines_join_witness :
  stream_lines (join_lines ["3 cat"; "5 dog"; ""]) = ["3 cat"; "5 dog"; ""].
Proof.
  apply (proj2 (stream_lines_join "" ["3 cat"; "5 dog"; ""])).
  - discriminate.
  - repeat constructor.
Defined.

(** ** [std::to_string] read back by [std::stoi] *)

Lemma digits_value_of_uint_acc (d : Decimal.uint) (acc : positive) :
  digits_value (Z.pos acc) (NilEmpty.string_of_uint d)
  = Z.pos (Pos.of_uint_acc d acc).
Proof.
  revert acc.
  induction d as [|d IH|d IH|d IH|d IH|d IH|d IH|d IH|d IH|d IH|d IH];
    intros acc;
    cbn [NilEmpty.string_of_uint Pos.of_uint_acc digits_value];
    [reflexivity|..];
    match goal with
    | |- context [isdigit ?c] => change (isdigit c) with true; cbn iota
    end;
    match goal with
    | |- context [digit_value ?c] =>
        let v := eval vm_compute in (digit_value c) in
        change (digit_value c) with v
    end;
    rewrite <- IH; f_equal; lia.
Qed.

Lemma digits_value_of_uint (d : Decimal.uint) :
  digits_value 0 (NilEmpty.string_of_uint d) = Z.of_N (Pos.of_uint d).
Proof.
  induction d as [|d IH|d IH|d IH|d IH|d IH|d IH|d IH|d IH|d IH|d IH];
    cbn [NilEmpty.string_of_uint Pos.of_uint digits_value];
    [reflexivity|..];
    match goal with
    | |- context [isdigit ?c] => change (isdigit c) with true; cbn iota
    end;
    match goal with
    | |- context [digit_value ?c] =>
        let v := eval vm_compute in (digit_value c) in
        change (digit_value c) with v
    end;
    [exact IH | ..]; cbn [Z.of_N Z.mul Z.add];
    apply digits_value_of_uint_acc.
Qed.

Lemma string_of_uint_first_digit (d : Decimal.uint) :
  d <> Decimal.Nil ->
  exists c r, NilEmpty.string_of_uint d = String c r /\ isdigit c = true.
Proof.
  destruct d; [contradiction|..]; intros _; eexists _, _;
    (split; [reflexivity|reflexivity]).
Qed.

Lemma stoi_digits (c : ascii) (r : string) :
  isdigit c = true ->
  stoi (String c r)
  = (if (INT_MIN <=? digits_value 0 (String c r))
        && (digits_value 0 (String c r) <=? INT_MAX)
     then StoiValue (digits_value 0 (String c r))
     else StoiOutOfRange)
  /\ stoi (String "-" (String c r))
     = (if (INT_MIN <=? - digits_value 0 (String c r))
           && (- digits_value 0 (String c r) <=? INT_MAX)
        then StoiValue (- digits_value 0 (String c r))
        else StoiOutOfRange).
Proof.
  intros H.
  destruct c as [[] [] [] [] [] [] [] []]; try discriminate H;
    split; reflexivity.
Qed.

Lemma find_char_string_of_uint (c : ascii) (d : Decimal.uint) :
  isdigit c = false -> Str.find_char c (NilEmpty.string_of_uint d) = None.
Proof.
  intros H.
  induction d as [|d IH|d IH|d IH|d IH|d IH|d IH|d IH|d IH|d IH|d IH];
    cbn [NilEmpty.string_of_uint Str.find_char]; [reflexivity|..];
    match goal with
    | |- context [Ascii.eqb ?a c] =>
        destruct (Ascii.eqb_spec a c) as [<-|_]; [discriminate H|]
    end;
    rewrite IH; reflexivity.
Qed.

(** The decimal string of an index is not empty and holds only digits
    after an optional minus sign: no other character is found in it. *)
Lemma to_string_chars (i : Z) (c : ascii) :
  isdigit c = false -> c <> "-"%char ->
  Str.find_char c (Str.to_string i) = None /\ Str.to_string i <> EmptyString.
Proof.
  intros Hd Hm. unfold Str.to_string.
  assert (Hu : forall p,
             Str.find_char c (NilZero.string_of_uint (Pos.to_uint p)) = None
             /\ NilZero.string_of_uint (Pos.to_uint p) <> EmptyString).
  { intros p. pose proof (Unsigned.to_uint_nonnil p) as Hn.
    destruct (string_of_uint_first_digit _ Hn) as [a [r [Ha _]]].
    assert (E : NilZero.string_of_uint (Pos.to_uint p)
                = NilEmpty.string_of_uint (Pos.to_uint p)).
    { destruct (Pos.to_uint p); [contradiction|..]; reflexivity. }
    rewrite E. split; [apply find_char_string_of_uint, Hd|].
    rewrite Ha. discriminate. }
  destruct i as [|p|p]; cbn [Z.to_int NilZero.string_of_int].
  - split; [|discriminate].
    exact (find_char_string_of_uint c (Decimal.D0 Decimal.Nil) Hd).
  - apply Hu.
  - destruct (Hu p) as [H1 H2]. split; [|discriminate].
    cbn [Str.find_char].
    destruct (Ascii.eqb_spec "-" c) as [E|_]; [congruence|].
    rewrite H1. reflexivity.
Qed.

Lemma stoi_of_to_string (i : Z) :
  INT_MIN <= i <= INT_MAX -> stoi (Str.to_string i) = StoiValue i.
Proof.
  intros [Hlo Hhi]. unfold Str.to_string.
  assert (Hu : forall p,
             exists c r,
               NilZero.string_of_uint (Pos.to_uint p) = String c r
               /\ isdigit c = true
               /\ digits_value 0 (String c r) = Z.pos p).
  { intros p. pose proof (Unsigned.to_uint_nonnil p) as Hn.
    destruct (string_of_uint_first_digit _ Hn) as [c [r [Hc Hd]]].
    assert (E : NilZero.string_of_uint (Pos.to_uint p)
                = NilEmpty.string_of_uint (Pos.to_uint p)).
    { destruct (Pos.to_uint p); [contradiction|..]; reflexivity. }
    exists c, r. rewrite E. split; [exact Hc|]. split; [exact Hd|].
    rewrite <- Hc, digits_value_of_uint, Unsigned.of_to. reflexivity. }
  destruct i as [|p|p]; cbn [Z.to_int NilZero.string_of_int].
  - reflexivity.
  - destruct (Hu p) as [c [r [-> [Hd Hv]]]].
    rewrite (proj1 (stoi_digits c r Hd)), Hv.
    apply Z.leb_le in Hlo, Hhi. rewrite Hlo, Hhi. reflexivity.
  - destruct (Hu p) as [c [r [-> [Hd Hv]]]].
    rewrite (proj2 (stoi_digits c r Hd)), Hv.
    change (- Z.pos p) with (Z.neg p).
    apply Z.leb_le in Hlo, Hhi. rewrite Hlo, Hhi. reflexivity.
Qed.

(** Round trip of an [int] through its decimal string: [std::stoi] reads
    [std::to_string(i)] back as [i]. *)
Theorem stoi_to_string (i : Z) :
  INT_MIN <= i <= INT_MAX -> stoi (Str.to_string i) = StoiValue i.
Proof. exact (stoi_of_to_string i). Qed.

Lemma stoi_to_string_witness :
  stoi (Str.to_string (-2147483648)) = StoiValue (-2147483648).
Proof.
  apply (stoi_to_string (-2147483648)). unfold INT_MIN, INT_MAX. lia.
Defined.

(** ** Loading the correspondence table *)

(** [read_corresp_file] on a file that opens: the loop runs on the lines
    of the file, the table is what the loop leaves, and the only call is
    the opening of the file. *)
Lemma read_corresp_file_open {PS : ParamStore} {CO : Collaborators}
    (s : state) (content : string) :
  Str.empty (_corresp (self s)) = false ->
  fs_ifstream (world s) (_corresp (self s)) = Some content ->
  read_corresp_file s
  = (fst (corresp_lines (stream_lines content) (_hcorresp (self s))),
     {| self := set_hcorresp
                  (snd (corresp_lines (stream_lines content)
                                      (_hcorresp (self s))))
                  (self s);
        adg := adg s;
        world := world s;
        trace := trace s ++ [EvIfstream (_corresp (self s))] |}).
Proof.
  intros Hpath Hopen. unfold read_corresp_file. run. rewrite Hpath. run.
  rewrite Hopen. cbn [self adg world trace].
  destruct (corresp_lines (stream_lines content) (_hcorresp (self s)));
    reflexivity.
Qed.

Lemma corresp_line_parsed (line : string) (h : gmap Z string) :
  line_passes line = true ->
  corresp_line line h
  = Ret match parsed_entry line with
        | Some (k, v) => hcorresp_insert k v h
        | None => h
        end.
Proof.
  unfold line_passes, key_parses, corresp_line, parsed_entry.
  destruct (Str.empty (line_key line)); cbn [negb orb]; [reflexivity|].
  destruct (stoi (line_key line)); [reflexivity|discriminate..].
Qed.

Lemma hcorresp_insert_lookup (k k' : Z) (v : string) (h : gmap Z string) :
  hcorresp_insert k' v h !! k
  = match h !! k with
    | Some v0 => Some v0
    | None => if k' =? k then Some v else None
    end.
Proof.
  unfold hcorresp_insert. destruct (Z.eqb_spec k' k) as [->|Hne].
  - destruct (h !! k) eqn:E; [exact E|]. apply lookup_insert_eq.
  - destruct (h !! k') eqn:E'.
    + destruct (h !! k); reflexivity.
    + rewrite lookup_insert_ne by exact Hne. destruct (h !! k); reflexivity.
Qed.

Lemma corresp_lines_lookup (lines : list string) (h : gmap Z string) (k : Z) :
  forallb line_passes lines = true ->
  fst (corresp_lines lines h) = Ret tt
  /\ snd (corresp_lines lines h) !! k
     = match h !! k with
       | Some v => Some v
       | None => first_entry k lines
       end.
Proof.
  revert h. induction lines as [|line rest IH]; intros h H.
  - split; [reflexivity|]. simpl. destruct (h !! k); reflexivity.
  - simpl in H. apply andb_true_iff in H as [Hl Hr].
    cbn [corresp_lines first_entry]. rewrite (corresp_line_parsed _ h Hl).
    destruct (parsed_entry line) as [[k' v]|].
    + destruct (IH (hcorresp_insert k' v h) Hr) as [H1 H2].
      split; [exact H1|]. rewrite H2, hcorresp_insert_lookup.
      destruct (h !! k); [reflexivity|].
      destruct (k' =? k); reflexivity.
    + exact (IH h Hr).
Qed.

Lemma read_corresp_file_lookup
    {PS : ParamStore} {CO : Collaborators}
    (s : state) (content : string) (k : Z) :
  Str.empty (_corresp (self s)) = false ->
  fs_ifstream (world s) (_corresp (self s)) = Some content ->
  forallb line_passes (stream_lines content) = true ->
  fst (read_corresp_file s) = Ret tt
  /\ _hcorresp (self (snd (read_corresp_file s))) !! k
     = match _hcorresp (self s) !! k with
       | Some v => Some v
       | None => first_entry k (stream_lines content)
       end
  /\ world (snd (read_corresp_file s)) = world s.
Proof.
  intros Hpath Hopen Hall. rewrite (read_corresp_file_open s content Hpath Hopen).
  destruct (corresp_lines_lookup _ (_hcorresp (self s)) k Hall) as [H1 H2].
  cbn [fst snd self world set_hcorresp _hcorresp].
  split; [exact H1|]. split; [exact H2|reflexivity].
Qed.

(** On a file whose lines all pass, [read_corresp_file] returns and the
    table maps an index to the label it already had or, failing that, to
    the label of the first line that gives this index: entries are never
    overwritten, neither by a later line nor by a second load. *)
Theorem read_corresp_file_first_entry_wins
    {PS : ParamStore} {CO : Collaborators}
    (s : state) (content : string) (k : Z) :
  Str.empty (_corresp (self s)) = false ->
  fs_ifstream (world s) (_corresp (self s)) = Some content ->
  forallb line_passes (stream_lines content) = true ->
  fst (read_corresp_file s) = Ret tt
  /\ _hcorresp (self (snd (read_corresp_file s))) !! k
     = match _hcorresp (self s) !! k with
       | Some v => Some v
       | None => first_entry k (stream_lines content)
       end
  /\ world (snd (read_corresp_file s)) = world s.
Proof. exact (read_corresp_file_lookup s content k). Qed.

Lemma read_corresp_file_first_entry_wins_witness :
  _hcorresp (self (snd (read_corresp_file
                          (Demo.corresp_state Demo.dup_key_file)))) !! 3
  = Some "cat".
Proof.
  exact (proj1 (proj2 (read_corresp_file_first_entry_wins
                         (Demo.corresp_state Demo.dup_key_file)
                         Demo.dup_key_file 3 eq_refl eq_refl eq_refl))).
Defined.

Lemma corresp_lines_stop (good rest : list string) (bad : string)
    (h : gmap Z string) :
  forallb line_passes good = true ->
  line_passes bad = false ->
  corresp_lines (good ++ bad :: rest) h
  = (match corresp_line bad (snd (corresp_lines good h)) with
     | Ret _ => Ret tt
     | Throw e => Throw e
     | NullDeref => NullDeref
     end, snd (corresp_lines good h))
  /\ exists e, is_stoi_exception e
               /\ corresp_line bad (snd (corresp_lines good h)) = Throw e.
Proof.
  revert h. induction good as [|line good IH]; intros h Hg Hb.
  - pose proof (corresp_line_outcome bad h) as Ho. rewrite Hb in Ho.
    destruct Ho as [e [He Ht]]. cbn [app corresp_lines snd]. rewrite Ht.
    split; [reflexivity|]. exists e. split; [exact He|reflexivity].
  - simpl in Hg. apply andb_true_iff in Hg as [Hl Hr].
    cbn [app corresp_lines]. rewrite (corresp_line_parsed _ h Hl).
    exact (IH _ Hr Hb).
Qed.

(** A line that does not pass stops the load where it stands: the
    exception of [std::stoi] leaves [read_corresp_file], the entries of
    the lines before it are in the table, and no line after it is read. *)
Theorem read_corresp_file_partial_load
    {PS : ParamStore} {CO : Collaborators}
    (s : state) (content : string) (good rest : list string) (bad : string)
    (k : Z) :
  Str.empty (_corresp (self s)) = false ->
  fs_ifstream (world s) (_corresp (self s)) = Some content ->
  stream_lines content = (good ++ bad :: rest)%list ->
  forallb line_passes good = true ->
  line_passes bad = false ->
  (exists e, is_stoi_exception e /\ fst (read_corresp_file s) = Throw e)
  /\ _hcorresp (self (snd (read_corresp_file s))) !! k
     = match _hcorresp (self s) !! k with
       | Some v => Some v
       | None => first_entry k good
       end.
Proof.
  intros Hpath Hopen Hlines Hg Hb.
  rewrite (read_corresp_file_open s content Hpath Hopen), Hlines.
  destruct (corresp_lines_stop good rest bad (_hcorresp (self s)) Hg Hb)
    as [-> [e [He Ht]]].
  cbn [fst snd self set_hcorresp _hcorresp]. rewrite Ht. split.
  - exists e. split; [exact He|reflexivity].
  - exact (proj2 (corresp_lines_lookup good (_hcorresp (self s)) k Hg)).
Qed.

Lemma read_corresp_file_partial_load_witness :
  (exists e, is_stoi_exception e
             /\ fst (read_corresp_file
                       (Demo.corresp_state Demo.late_bad_key_file)) = Throw e)
  /\ _hcorresp (self (snd (read_corresp_file
                             (Demo.corresp_state Demo.late_bad_key_file))))
     !! 9
     = None.
Proof.
  exact (read_corresp_file_partial_load
           (Demo.corresp_state Demo.late_bad_key_file)
           Demo.late_bad_key_file ["3 cat"; "5 dog"] ["9 fish"; ""] "bird 7" 9
           eq_refl eq_refl eq_refl eq_refl eq_refl).
Defined.

(** Without a file name [read_corresp_file] does nothing at all; with the
    name of a file that does not open it returns all the same, after one
    message on [std::cerr], and leaves the object and the world as they
    were. *)
Theorem read_corresp_file_no_file
    {PS : ParamStore} {CO : Collaborators} (s : state) :
  (Str.empty (_corresp (self s)) = true -> read_corresp_file s = (Ret tt, s))
  /\ (Str.empty (_corresp (self s)) = false ->
      fs_ifstream (world s) (_corresp (self s)) = None ->
      read_corresp_file s
      = (Ret tt,
         {| self := self s; adg := adg s; world := world s;
            trace := trace s
                     ++ [EvIfstream (_corresp (self s));
                         EvCerr ("cannot open model corresp file="
                                 ++ _corresp (self s))] |})).
Proof.
  split.
  - intros H. unfold read_corresp_file. run. rewrite H. reflexivity.
  - intros H Hno. unfold read_corresp_file. run. rewrite H. run.
    rewrite Hno. run. rewrite <- app_assoc. reflexivity.
Qed.

Lemma read_corresp_file_no_file_witness :
  read_corresp_file Demo.no_corresp_state = (Ret tt, Demo.no_corresp_state)
  /\ fst (read_corresp_file Demo.missing_corresp_state) = Ret tt
  /\ self (snd (read_corresp_file Demo.missing_corresp_state))
     = self Demo.missing_corresp_state.
Proof.
  split.
  - exact (proj1 (read_corresp_file_no_file Demo.no_corresp_state) eq_refl).
  - rewrite (proj2 (read_corresp_file_no_file Demo.missing_corresp_state)
               eq_refl eq_refl).
    split; reflexivity.
Defined.

Lemma find_char_app_none (c : ascii) (a b : string) :
  Str.find_char c a = None -> Str.find_char c b = None ->
  Str.find_char c (a ++ b) = None.
Proof.
  induction a as [|x a IH]; intros Ha Hb; [exact Hb|].
  cbn [Str.find_char] in Ha.
  change (String x a ++ b) with (String x (a ++ b)). cbn [Str.find_char].
  destruct (Ascii.eqb x c); [discriminate|].
  destruct (Str.find_char c a); [discriminate|].
  rewrite (IH eq_refl Hb). reflexivity.
Qed.

Lemma cut_at_separator (c : ascii) (a b : string) :
  Str.find_char c a = None ->
  Str.find_char c (a ++ String c b) = Some (String.length a)
  /\ Str.take (String.length a) (a ++ String c b) = a
  /\ Str.substr_from (S (String.length a)) (a ++ String c b) = b.
Proof.
  induction a as [|x a IH]; intros Ha.
  - change (EmptyString ++ String c b) with (String c b).
    cbn [Str.find_char String.length]. rewrite Ascii.eqb_refl.
    repeat split.
  - cbn [Str.find_char] in Ha.
    change (String x a ++ String c b) with (String x (a ++ String c b)).
    destruct (Ascii.eqb x c) eqn:E; [discriminate|].
    destruct (Str.find_char c a) eqn:Ea; [discriminate|].
    destruct (IH eq_refl) as [H1 [H2 H3]].
    cbn [String.length Str.find_char]. rewrite E, H1.
    change (Str.take (S (String.length a)) (String x (a ++ String c b)))
      with (String x (Str.take (String.length a) (a ++ String c b))).
    change (Str.substr_from (S (S (String.length a)))
                            (String x (a ++ String c b)))
      with (Str.substr_from (S (String.length a)) (a ++ String c b)).
    rewrite H2, H3. repeat split.
Qed.

Lemma parsed_entry_render (k : Z) (v : string) :
  INT_MIN <= k <= INT_MAX ->
  parsed_entry (render_entry (k, v)) = Some (k, v)
  /\ line_passes (render_entry (k, v)) = true.
Proof.
  intros Hk.
  destruct (to_string_chars k " ") as [Hsp Hne];
    [reflexivity | discriminate |].
  destruct (cut_at_separator " " (Str.to_string k) v Hsp) as [H1 [H2 H3]].
  assert (Hkey : line_key (render_entry (k, v)) = Str.to_string k).
  { unfold line_key, render_entry. cbn [fst snd]. rewrite H1. exact H2. }
  assert (Hval : line_value (render_entry (k, v)) = v).
  { unfold line_value, render_entry. cbn [fst snd]. rewrite H1. exact H3. }
  unfold parsed_entry, line_passes, key_parses.
  rewrite Hkey, Hval, (stoi_of_to_string k Hk).
  destruct (Str.to_string k); [contradiction|]. split; reflexivity.
Qed.

Lemma render_file_lines (entries : list (Z * string)) :
  Forall (fun e => Str.find_char newline (snd e) = None) entries ->
  stream_lines (render_file entries)
  = (map render_entry entries ++ [EmptyString])%list.
Proof.
  induction entries as [|[k v] rest IH]; intros H; [reflexivity|].
  inversion H as [|? ? Hv Hrest]; subst. cbn [render_file map app].
  rewrite stream_lines_app, (IH Hrest); [reflexivity|].
  unfold render_entry. cbn [fst snd]. apply find_char_app_none.
  - apply to_string_chars; [reflexivity|discriminate].
  - cbn [Str.find_char]. cbn in Hv. rewrite Hv. reflexivity.
Qed.

Lemma rendered_lines_pass (entries : list (Z * string)) (k : Z) :
  Forall (fun e => INT_MIN <= fst e <= INT_MAX) entries ->
  forallb line_passes (map render_entry entries ++ [EmptyString])%list = true
  /\ first_entry k (map render_entry entries ++ [EmptyString])%list
     = assoc_first k entries.
Proof.
  induction entries as [|[k' v] rest IH]; intros H; [split; reflexivity|].
  inversion H as [|? ? Hk Hrest]; subst. cbn [fst] in Hk.
  destruct (parsed_entry_render k' v Hk) as [Hp Hl].
  destruct (IH Hrest) as [H1 H2].
  cbn [map app forallb first_entry assoc_first]. rewrite Hp, Hl, H1, H2.
  split; reflexivity.
Qed.

(** Round trip of the table through its file: a file written with one
    line ["<index> <label>"] per entry (indices in the range of [int],
    labels free of newlines, spaces allowed) and loaded into an empty
    table maps every index to the label of its first entry, and
    [get_hcorresp] returns that label. *)
Theorem render_file_round_trip
    {PS : ParamStore} {CO : Collaborators}
    (s : state) (entries : list (Z * string)) (k : Z) :
  Str.empty (_corresp (self s)) = false ->
  fs_ifstream (world s) (_corresp (self s)) = Some (render_file entries) ->
  _hcorresp (self s) = ∅ ->
  Forall (fun e => INT_MIN <= fst e <= INT_MAX) entries ->
  Forall (fun e => Str.find_char newline (snd e) = None) entries ->
  fst (read_corresp_file s) = Ret tt
  /\ _hcorresp (self (snd (read_corresp_file s))) !! k
     = assoc_first k entries
  /\ (forall v, assoc_first k entries = Some v ->
                fst (get_hcorresp k (self (snd (read_corresp_file s)))) = v).
Proof.
  intros Hpath Hopen Hempty Hrange Hnl.
  destruct (rendered_lines_pass entries k Hrange) as [Hpass Hfirst].
  rewrite <- (render_file_lines entries Hnl) in Hpass, Hfirst.
  destruct (read_corresp_file_lookup s _ k Hpath Hopen Hpass)
    as [H1 [H2 _]].
  rewrite Hempty, lookup_empty, Hfirst in H2.
  split; [exact H1|]. split; [exact H2|].
  intros v Hv. rewrite Hv in H2.
  rewrite (get_hcorresp_present _ _ _ H2). reflexivity.
Qed.

Lemma render_file_round_trip_witness :
  fst (get_hcorresp (-1) (self (snd (read_corresp_file Demo.rendered_state))))
  = "unknown class"
  /\ fst (get_hcorresp 3 (self (snd (read_corresp_file Demo.rendered_state))))
     = "cat".
Proof.
  assert (Hr : Forall (fun e : Z * string => INT_MIN <= fst e <= INT_MAX)
                      Demo.labels).
  { repeat constructor; unfold INT_MIN, INT_MAX; cbn; lia. }
  assert (Hn : Forall (fun e : Z * string =>
                         Str.find_char newline (snd e) = None) Demo.labels).
  { repeat constructor. }
  split.
  - exact (proj2 (proj2 (render_file_round_trip Demo.rendered_state
                           Demo.labels (-1) eq_refl eq_refl eq_refl Hr Hn))
                 _ eq_refl).
  - exact (proj2 (proj2 (render_file_round_trip Demo.rendered_state
                           Demo.labels 3 eq_refl eq_refl eq_refl Hr Hn))
                 _ eq_refl).
Defined.

(** A second load of the same file changes nothing: every index it gives
    is in the table already, and [insert] keeps the entry that is there. *)
Theorem read_corresp_file_twice
    {PS : ParamStore} {CO : Collaborators} (s : state) (content : string) :
  Str.empty (_corresp (self s)) = false ->
  fs_ifstream (world s) (_corresp (self s)) = Some content ->
  forallb line_passes (stream_lines content) = true ->
  fst (read_corresp_file (snd (read_corresp_file s))) = Ret tt
  /\ self (snd (read_corresp_file (snd (read_corresp_file s))))
     = self (snd (read_corresp_file s)).
Proof.
  intros Hpath Hopen Hall.
  rewrite (read_corresp_file_open s content Hpath Hopen). cbn [snd].
  set (h1 := snd (corresp_lines (stream_lines content) (_hcorresp (self s)))).
  rewrite (read_corresp_file_open _ content); [|exact Hpath|exact Hopen].
  cbn [fst snd self set_hcorresp _hcorresp].
  assert (E : snd (corresp_lines (stream_lines content) h1) = h1).
  { apply map_eq. intros k.
    rewrite (proj2 (corresp_lines_lookup _ h1 k Hall)).
    destruct (h1 !! k) eqn:E1; [reflexivity|].
    unfold h1 in E1.
    rewrite (proj2 (corresp_lines_lookup _ (_hcorresp (self s)) k Hall))
      in E1.
    destruct (_hcorresp (self s) !! k); [discriminate|exact E1]. }
  split.
  - exact (proj1 (corresp_lines_lookup _ h1 0 Hall)).
  - rewrite E. reflexivity.
Qed.

Lemma read_corresp_file_twice_witness :
  self (snd (read_corresp_file
               (snd (read_corresp_file
                       (Demo.corresp_state Demo.dup_key_file)))))
  = self (snd (read_corresp_file (Demo.corresp_state Demo.dup_key_file))).
Proof.
  exact (proj2 (read_corresp_file_twice
                  (Demo.corresp_state Demo.dup_key_file) Demo.dup_key_file
                  eq_refl eq_refl eq_refl)).
Defined.

(** ** What [init_repo_dir] does and leaves alone *)

(** Every path of a method: the monad is unfolded and each test met on
    the way is decided both ways. *)
Ltac break_match :=
  match goal with
  | |- context [match ?x with _ => _ end] =>
      lazymatch x with
      | context [match _ with _ => _ end] => fail
      | _ => destruct x eqn:?
      end
  end.

Ltac explore := repeat (run; try break_match).

Lemma skipn_length_app {A : Type} (l r : list A) :
  skipn (length l) (l ++ r) = r.
Proof. induction l as [|x l IH]; [reflexivity | exact IH]. Qed.

(** All the paths of [init_repo_dir] at once: what each of them leaves
    in the object and in the trace. *)
Lemma init_repo_dir_paths
    {PS : ParamStore} {CO : Collaborators}
    (ad : APIData) (logger : logger_ptr) (s : state) :
  let s' := snd (init_repo_dir ad logger s) in
  let evs := new_events (init_repo_dir ad logger) s in
  (_repo (self s') = ad_get_string ad "repository"
   /\ _hcorresp (self s') = _hcorresp (self s)
   /\ _corresp (self s') = _corresp (self s)
   /\ _se (self s') = _se (self s)
   /\ _mlmodel_template_repo (self s') = _mlmodel_template_repo (self s)
   /\ _best_model_filename (self s') = _best_model_filename (self s)
   /\ adg s' = adg s
   /\ (_index_preload (self s) = true -> _index_preload (self s') = true)
   /\ trace s' = (trace s ++ evs)%list)
  /\ (exists rest : list event,
        evs = (EvFileExists (repository ad)
               :: (if creates_dir ad (world s)
                   then [EvCreateDir (repository ad) mode_0775] else [])
               ++ rest)%list
        /\ forallb (fun ev => negb (is_create_dir ev)) rest = true)
  /\ install_order 0 evs = true
  /\ (ad_has ad "init" = false ->
      forallb (fun ev => negb (is_http_get ev || is_ofstream_write ev
                               || is_uncompress ev)) evs = true).
Proof.
  unfold new_events, creates_dir, repository, init_repo_dir, install_archive.
  explore;
    try solve [exfalso;
               match goal with
               | H1 : ?b && negb _ = true, H2 : negb ?b && _ = true |- _ =>
                   destruct b; simpl in H1, H2; discriminate
               end];
    cbn [snd adg self trace _repo _hcorresp _corresp _se
         _mlmodel_template_repo _best_model_filename _index_preload
         set_repo set_index_preload];
    rewrite <- ?app_assoc, ?skipn_length_app;
    (split; [repeat split; auto|]);
    (split; [eexists; split; reflexivity|]);
    (split; [reflexivity|]);
    intros Hinit; first [discriminate Hinit | reflexivity].
Qed.

(** [init_repo_dir] takes [_repo] from the parameters first, whatever
    comes next; it leaves alone the correspondence table, the name of the
    correspondence file, the search index, the two constant names and the
    caller's parameter set; it never clears [_index_preload]; and it only
    adds to the trace. *)
Theorem init_repo_dir_frame
    {PS : ParamStore} {CO : Collaborators}
    (ad : APIData) (logger : logger_ptr) (s : state) :
  let s' := snd (init_repo_dir ad logger s) in
  _repo (self s') = ad_get_string ad "repository"
  /\ _hcorresp (self s') = _hcorresp (self s)
  /\ _corresp (self s') = _corresp (self s)
  /\ _se (self s') = _se (self s)
  /\ _mlmodel_template_repo (self s') = _mlmodel_template_repo (self s)
  /\ _best_model_filename (self s') = _best_model_filename (self s)
  /\ adg s' = adg s
  /\ (_index_preload (self s) = true -> _index_preload (self s') = true)
  /\ trace s' = (trace s ++ new_events (init_repo_dir ad logger) s)%list.
Proof. exact (proj1 (init_repo_dir_paths ad logger s)). Qed.

Lemma init_repo_dir_frame_witness :
  _index_preload
    (self (snd (init_repo_dir Demo.plain_staged_ad nullptr
                  {| self := set_index_preload true MLModel_default;
                     adg := adg Demo.plain_staged_state;
                     world := world Demo.plain_staged_state;
                     trace := [] |})))
  = true.
Proof.
  apply (proj1 (proj2 (proj2 (proj2 (proj2 (proj2 (proj2 (proj2
           (init_repo_dir_frame Demo.plain_staged_ad nullptr
              {| self := set_index_preload true MLModel_default;
                 adg := adg Demo.plain_staged_state;
                 world := world Demo.plain_staged_state;
                 trace := [] |}))))))))).
  reflexivity.
Defined.

(** The [repo] given to [MLModel(ad, repo)] has no effect: [init_repo_dir]
    replaces it by the repository of the parameters before it reads it,
    so that the constructor does what [MLModel(ad)] does. *)
Theorem MLModel_ad_repo_ignores_repo
    {PS : ParamStore} {CO : Collaborators}
    (ad : APIData) (repo : string) (s : state) :
  MLModel_ad_repo ad repo s = MLModel_ad ad s.
Proof. reflexivity. Qed.

(** [init_repo_dir] creates a directory exactly when nothing has the name
    of the repository and [create_repository] is set; the directory it
    creates is the repository, with the permission bits [0775]. *)
Theorem init_repo_dir_create_dir
    {PS : ParamStore} {CO : Collaborators}
    (ad : APIData) (logger : logger_ptr) (s : state)
    (path : string) (mode : Z) :
  In (EvCreateDir path mode) (new_events (init_repo_dir ad logger) s)
  <-> creates_dir ad (world s) = true
      /\ path = repository ad /\ mode = 509.
Proof.
  destruct (init_repo_dir_paths ad logger s) as [_ [[rest [-> Hrest]] _]].
  assert (Hno : ~ In (EvCreateDir path mode) rest).
  { intros Hin. apply (proj1 (forallb_forall _ _) Hrest) in Hin.
    discriminate. }
  destruct (creates_dir ad (world s)); cbn [app In]; split.
  - intros [H | [H | H]]; [discriminate | | contradiction].
    injection H as <- <-. repeat split.
  - intros [_ [-> ->]]. right. left. reflexivity.
  - intros [H | H]; [discriminate | contradiction].
  - intros [H _]. discriminate.
Qed.

Lemma init_repo_dir_create_dir_witness :
  In (EvCreateDir "models/new" 509)
     (new_events (init_repo_dir Demo.create_ad live_logger) Demo.empty_state)
  /\ ~ In (EvCreateDir "models/new" 509)
          (new_events (init_repo_dir Demo.no_create_ad live_logger)
                      Demo.empty_state).
Proof.
  split.
  - apply (proj2 (init_repo_dir_create_dir Demo.create_ad live_logger
                    Demo.empty_state "models/new" 509)).
    repeat split.
  - intros Hin.
    apply (proj1 (init_repo_dir_create_dir Demo.no_create_ad live_logger
                    Demo.empty_state "models/new" 509)) in Hin.
    destruct Hin as [H _]. discriminate.
Defined.

(** On every path of [init_repo_dir] the calls of an installation come in
    order: at most one fetch, the fetched archive written only after the
    fetch, one extraction at most, either without fetch or after the
    archive is written, and no fetch, write or extraction after it. *)
Theorem init_repo_dir_install_order
    {PS : ParamStore} {CO : Collaborators}
    (ad : APIData) (logger : logger_ptr) (s : state) :
  install_order 0 (new_events (init_repo_dir ad logger) s) = true.
Proof. exact (proj1 (proj2 (proj2 (init_repo_dir_paths ad logger s)))). Qed.

(** Without [init] in the parameters [init_repo_dir] installs nothing: no
    fetch, no file written, no extraction, on any path; and when the
    directory passes the checks it returns, the world being what the
    creation of the directory left. *)
Theorem init_repo_dir_without_init
    {PS : ParamStore} {CO : Collaborators}
    (ad : APIData) (logger : logger_ptr) (s : state) :
  ad_has ad "init" = false ->
  forallb (fun ev => negb (is_http_get ev || is_ofstream_write ev
                           || is_uncompress ev))
          (new_events (init_repo_dir ad logger) s) = true
  /\ (checks_pass ad (world s) = true ->
      fst (init_repo_dir ad logger s) = Ret tt
      /\ world (snd (init_repo_dir ad logger s))
         = world_after_create ad (world s)).
Proof.
  intros Hinit. split.
  - exact (proj2 (proj2 (proj2 (init_repo_dir_paths ad logger s))) Hinit).
  - intros Hchecks. rewrite (init_repo_dir_checks _ _ _ Hchecks), Hinit.
    split; reflexivity.
Qed.

Lemma init_repo_dir_without_init_witness :
  fst (init_repo_dir Demo.create_ad nullptr Demo.empty_state) = Ret tt
  /\ Demo.dirs (world (snd (init_repo_dir Demo.create_ad nullptr
                                          Demo.empty_state)))
     = [("models/new", true)].
Proof.
  destruct (proj2 (init_repo_dir_without_init Demo.create_ad nullptr
                     Demo.empty_state eq_refl) eq_refl) as [H1 H2].
  split; [exact H1|]. rewrite H2. reflexivity.
Defined.

(** A directory that is not writable ends [init_repo_dir] after the test:
    by the exception with a logger, by the dereference of the null
    pointer without.  A directory created just before stays: the world
    is what the creation left, and no call follows but the report. *)
Theorem init_repo_dir_not_writable_state
    {PS : ParamStore} {CO : Collaborators}
    (ad : APIData) (logger : logger_ptr) (s : state) :
  conflict ad (world s) = false ->
  fs_is_directory_writable (world_after_create ad (world s)) (repository ad)
  = false ->
  let errmsg := "destination model directory " ++ repository ad
                ++ " is not writable" in
  fst (init_repo_dir ad logger s)
  = match logger with
    | nullptr => NullDeref
    | live_logger => Throw (MLLibBadParamException errmsg)
    end
  /\ world (snd (init_repo_dir ad logger s))
     = world_after_create ad (world s)
  /\ new_events (init_repo_dir ad logger) s
     = (EvFileExists (repository ad)
        :: (if creates_dir ad (world s)
            then [EvCreateDir (repository ad) mode_0775] else [])
        ++ EvIsDirectoryWritable (repository ad)
        :: match logger with
           | nullptr => []
           | live_logger => [EvLog LvlError errmsg []]
           end)%list.
Proof.
  unfold new_events, conflict, world_after_create, creates_dir, repository.
  intros Hc Hw. unfold init_repo_dir. run.
  destruct (fs_file_exists_dir (world s) (ad_get_string ad "repository"))
    as [exists_ isDir] eqn:E.
  cbn [fst snd] in *. rewrite Hc. run.
  destruct (negb exists_ &&
            (ad_has ad "create_repository"
             && ad_get_bool ad "create_repository")); run;
    rewrite Hw; run; destruct logger; run;
    rewrite <- ?app_assoc, ?skipn_length_app; repeat split.
Qed.

Lemma init_repo_dir_not_writable_state_witness :
  fst (init_repo_dir Demo.read_only_ad live_logger Demo.read_only_state)
  = Throw (MLLibBadParamException
             "destination model directory models/ro is not writable")
  /\ new_events (init_repo_dir Demo.read_only_ad live_logger)
                Demo.read_only_state
     = [EvFileExists "models/ro"; EvIsDirectoryWritable "models/ro";
        EvLog LvlError
              "destination model directory models/ro is not writable" []].
Proof.
  destruct (init_repo_dir_not_writable_state Demo.read_only_ad live_logger
              Demo.read_only_state eq_refl eq_refl) as [H1 [_ H3]].
  split; [exact H1 | exact H3].
Defined.

(** A fetch that returns is installed whatever its status code: the body
    is written as it is under the staged path of the repository, and it is
    this file, not the locator, that is extracted; the run ends as the
    extraction does. *)
Theorem fetched_archive_is_installed
    {PS : ParamStore} {CO : Collaborators}
    (ad : APIData) (logger : logger_ptr) (s : state)
    (outcode : Z) (content : string) :
  let w1 := world_after_create ad (world s) in
  let archive := archive_to_install ad w1 in
  let fetched := http_get_call w1 archive "GET" in
  let written := fs_ofstream_write (snd fetched) (staged_path ad) content in
  let extracted := fs_uncompress written (staged_path ad) (repository ad) in
  checks_pass ad (world s) = true ->
  ad_has ad "init" = true ->
  has_fetch_scheme archive = true ->
  fst fetched = HttpReturn outcode content ->
  fst (init_repo_dir ad logger s) = extraction_outcome logger (fst extracted)
  /\ world (snd (init_repo_dir ad logger s)) = snd extracted
  /\ exists before : list event,
       trace (snd (init_repo_dir ad logger s))
       = (before
          ++ EvHttpGet archive "GET"
             :: EvOfstreamWrite (staged_path ad) content
             :: EvUncompress (staged_path ad) (repository ad)
             :: extraction_report logger (fst extracted))%list.
Proof.
  intros w1 archive fetched written extracted Hchecks Hinit Hscheme Hget.
  rewrite (init_repo_dir_checks _ _ _ Hchecks), Hinit.
  pose proof (install_archive_fetch ad logger (after_checks ad s)
                (after_checks_repo ad s) Hscheme) as Hrun.
  cbv zeta in Hrun. cbn [after_checks world] in Hrun.
  fold w1 in Hrun. fold archive in Hrun. fold fetched in Hrun.
  rewrite Hget in Hrun. destruct Hrun as [H1 [H2 H3]].
  split; [exact H1|]. split; [exact H2|].
  eexists. rewrite H3, app_assoc. reflexivity.
Qed.

Lemma fetched_archive_is_installed_witness :
  fst (init_repo_dir Demo.remote_ad live_logger Demo.not_found_state)
  = Throw (MLLibBadParamException
             "failed installing model from archive, check 'init' argument to model")
  /\ Demo.files (world (snd (init_repo_dir Demo.remote_ad live_logger
                                           Demo.not_found_state)))
     = [("models/m2/m.tar", "404 not found")].
Proof.
  destruct (@fetched_archive_is_installed
              Demo.param_store Demo.http_404
              Demo.remote_ad live_logger Demo.not_found_state
              404 "404 not found"
              eq_refl eq_refl eq_refl eq_refl) as [H1 [H2 _]].
  split; [exact H1|]. rewrite H2. reflexivity.
Defined.

(** ** The configuration overlay and the constructor that loads it *)

(** On a [config.json] that parses and converts, [read_config_json]
    returns, with or without a logger, and the only change is to the
    caller's parameter set: the object ["parameters"] of the file is added
    to it under the key ["parameters"], nothing else of the file is. *)
Theorem read_config_json_merge
    {PS : ParamStore} {CO : Collaborators}
    (logger : logger_ptr) (s : state) (d : Document) (adcj : APIData) :
  let cf := _repo (self s) ++ "/config.json" in
  let jbuf := match fs_ifstream (world s) cf with
              | Some content => content
              | None => ""
              end in
  fs_file_exists (world s) cf = true ->
  Parse jbuf = Some d ->
  fromRapidJson d = inr adcj ->
  read_config_json logger s
  = (Ret tt,
     {| self := self s;
        adg := ad_add (adg s) "parameters" (ad_getobj adcj "parameters");
        world := world s;
        trace := trace s ++ [EvFileExists cf; EvIfstream cf; EvParse jbuf;
                             EvFromRapidJson] |}).
Proof.
  intros cf jbuf H Hparse Hconv. unfold read_config_json. run. fold cf.
  rewrite H. run. fold jbuf. rewrite Hparse. run. rewrite Hconv. run.
  rewrite <- !app_assoc. reflexivity.
Qed.

Lemma read_config_json_merge_witness :
  fst (read_config_json nullptr Demo.good_config_state) = Ret tt
  /\ adg (snd (read_config_json nullptr Demo.good_config_state))
     = [("parameters", Demo.VObject []); ("mllib", Demo.VString "caffe")].
Proof.
  rewrite (read_config_json_merge nullptr Demo.good_config_state
             ([] : Demo.store) ([] : Demo.store) eq_refl eq_refl eq_refl).
  split; reflexivity.
Defined.

(** On a [config.json] that parses but does not convert,
    [read_config_json] reports the message of the conversion and throws
    the bad-parameter exception when it has a logger; the parameter set,
    the object and the world are left as they were. *)
Theorem read_config_json_conversion_error
    {PS : ParamStore} {CO : Collaborators}
    (logger : logger_ptr) (s : state) (d : Document) (what : string) :
  let cf := _repo (self s) ++ "/config.json" in
  let jbuf := match fs_ifstream (world s) cf with
              | Some content => content
              | None => ""
              end in
  fs_file_exists (world s) cf = true ->
  Parse jbuf = Some d ->
  fromRapidJson d = inl what ->
  fst (read_config_json logger s)
  = match logger with
    | nullptr => NullDeref
    | live_logger =>
        Throw (MLLibBadParamException
                 "Failed converting JSON file to internal data format")
    end
  /\ adg (snd (read_config_json logger s)) = adg s
  /\ self (snd (read_config_json logger s)) = self s
  /\ world (snd (read_config_json logger s)) = world s
  /\ (logger = live_logger ->
      In (EvLog LvlError "JSON error {}" [what])
         (trace (snd (read_config_json logger s)))).
Proof.
  intros cf jbuf H Hparse Hconv. unfold read_config_json. run. fold cf.
  rewrite H. run. fold jbuf. rewrite Hparse. run. rewrite Hconv.
  destruct logger; run; repeat split; try discriminate.
  intros _. apply in_or_app. right. left. reflexivity.
Qed.

Lemma read_config_json_conversion_error_witness :
  fst (read_config_json live_logger Demo.unconvertible_state)
  = Throw (MLLibBadParamException
             "Failed converting JSON file to internal data format")
  /\ adg (snd (read_config_json live_logger Demo.unconvertible_state))
     = adg Demo.unconvertible_state.
Proof.
  destruct (@read_config_json_conversion_error
              Demo.failing_conversion Demo.collaborators
              live_logger Demo.unconvertible_state
              ([] : Demo.store) "value is not an object"
              eq_refl eq_refl eq_refl) as [H1 [H2 _]].
  split; [exact H1 | exact H2].
Defined.

(** [read_config_json] changes nothing of the object or of the world, and
    changes the parameter set only when it returns. *)
Lemma read_config_json_frame {PS : ParamStore} {CO : Collaborators}
    (logger : logger_ptr) (s : state) :
  self (snd (read_config_json logger s)) = self s
  /\ world (snd (read_config_json logger s)) = world s
  /\ (fst (read_config_json logger s) <> Ret tt ->
      adg (snd (read_config_json logger s)) = adg s).
Proof.
  unfold read_config_json. explore; cbn [fst snd self world adg];
    repeat split; intros H; try reflexivity; exfalso; apply H; reflexivity.
Qed.

Lemma bind_run {PS : ParamStore} {CO : Collaborators} {A B : Type}
    (m : M A) (k : A -> M B) (s : state) :
  bind m k s
  = match fst (m s) with
    | Ret a => k a (snd (m s))
    | Throw e => (Throw e, snd (m s))
    | NullDeref => (NullDeref, snd (m s))
    end.
Proof. unfold bind. destruct (m s) as [[a|e|] s']; reflexivity. Qed.

(** The constructor [MLModel(ad, adg, logger)] reads [config.json] only
    after [init_repo_dir] has returned, and only when [init] is among the
    parameters; whenever it does not return, the caller's parameter set is
    as it was. *)
Theorem MLModel_ad_adg_logger_config
    {PS : ParamStore} {CO : Collaborators}
    (ad : APIData) (logger : logger_ptr) (s : state) :
  (ad_has ad "init" = false ->
   MLModel_ad_adg_logger ad logger s = init_repo_dir ad logger s)
  /\ (fst (init_repo_dir ad logger s) <> Ret tt ->
      MLModel_ad_adg_logger ad logger s = init_repo_dir ad logger s)
  /\ (fst (init_repo_dir ad logger s) = Ret tt -> ad_has ad "init" = true ->
      MLModel_ad_adg_logger ad logger s
      = read_config_json logger (snd (init_repo_dir ad logger s)))
  /\ (fst (MLModel_ad_adg_logger ad logger s) <> Ret tt ->
      adg (snd (MLModel_ad_adg_logger ad logger s)) = adg s).
Proof.
  pose proof (proj1 (init_repo_dir_paths ad logger s)) as Hframe.
  cbv zeta in Hframe.
  destruct Hframe as [_ [_ [_ [_ [_ [_ [Hadg _]]]]]]].
  unfold MLModel_ad_adg_logger. rewrite bind_run.
  destruct (init_repo_dir ad logger s) as [[[]|e|] s1] eqn:E;
    cbn [fst snd] in *.
  - destruct (ad_has ad "init") eqn:Hinit.
    + split; [discriminate|].
      split; [intros H; exfalso; apply H; reflexivity|].
      split; [reflexivity|].
      intros H. rewrite (proj2 (proj2 (read_config_json_frame logger s1)) H).
      exact Hadg.
    + split; [reflexivity|]. split; [reflexivity|].
      split; [intros _ H; discriminate H|].
      intros H. exfalso. apply H. reflexivity.
  - split; [reflexivity|]. split; [reflexivity|].
    split; [intros H; discriminate H|]. intros _. exact Hadg.
  - split; [reflexivity|]. split; [reflexivity|].
    split; [intros H; discriminate H|]. intros _. exact Hadg.
Qed.

Lemma MLModel_ad_adg_logger_config_witness :
  fst (MLModel_ad_adg_logger Demo.no_init_ad nullptr
                             Demo.malformed_no_init_state) = Ret tt
  /\ adg (snd (MLModel_ad_adg_logger Demo.plain_staged_ad live_logger
                                     Demo.malformed_init_state))
     = adg Demo.malformed_init_state.
Proof.
  split.
  - rewrite (proj1 (MLModel_ad_adg_logger_config Demo.no_init_ad nullptr
                      Demo.malformed_no_init_state) eq_refl).
    reflexivity.
  - apply (proj2 (proj2 (proj2 (MLModel_ad_adg_logger_config
                                  Demo.plain_staged_ad live_logger
                                  Demo.malformed_init_state)))).
    vm_compute. discriminate.
Defined.

(** ** The life of the search index *)

Lemma backend_call_run {PS : ParamStore} {CO : Collaborators}
    (ev : event) (f : SearchEngine -> World -> option exn * World)
    (se : SearchEngine) (s : state) :
  backend_call ev f se s
  = (match fst (f se (world s)) with
     | None => Ret tt
     | Some e => Throw e
     end,
     {| self := self s; adg := adg s; world := snd (f se (world s));
        trace := trace s ++ [ev] |}).
Proof.
  unfold backend_call. run. destruct (f se (world s)) as [[e|] w]; reflexivity.
Qed.

Lemma index_operations_run
    {PS : ParamStore} {CO : Collaborators} (s : state) (se : SearchEngine) :
  _se (self s) = Some se ->
  let outcome_of (r : option exn * World) : outcome unit :=
    match fst r with
    | None => Ret tt
    | Some e => Throw e
    end in
  let after (ev : event) (r : option exn * World) : state :=
    {| self := self s; adg := adg s; world := snd r;
       trace := trace s ++ [ev] |} in
  create_index s
  = (outcome_of (se_create_index se (world s)),
     after EvCreateIndex (se_create_index se (world s)))
  /\ build_index s
     = (outcome_of (se_update_index se (world s)),
        after EvUpdateIndex (se_update_index se (world s)))
  /\ remove_index s
     = (outcome_of (se_remove_index se (world s)),
        after EvRemoveIndex (se_remove_index se (world s))).
Proof.
  intros H. cbv zeta. unfold create_index, build_index, remove_index.
  rewrite !bind_run. unfold get_self. cbn [fst snd]. rewrite H.
  rewrite !backend_call_run. repeat split.
Qed.

(** With an index, each operation is one call of the routine of the
    backend on the object held by [_se]: the world is what the routine
    leaves, an exception of the routine leaves the operation, and the
    object is as it was. *)
Theorem index_operations_with_index
    {PS : ParamStore} {CO : Collaborators} (s : state) (se : SearchEngine) :
  _se (self s) = Some se ->
  let outcome_of (r : option exn * World) : outcome unit :=
    match fst r with
    | None => Ret tt
    | Some e => Throw e
    end in
  let after (ev : event) (r : option exn * World) : state :=
    {| self := self s; adg := adg s; world := snd r;
       trace := trace s ++ [ev] |} in
  create_index s
  = (outcome_of (se_create_index se (world s)),
     after EvCreateIndex (se_create_index se (world s)))
  /\ build_index s
     = (outcome_of (se_update_index se (world s)),
        after EvUpdateIndex (se_update_index se (world s)))
  /\ remove_index s
     = (outcome_of (se_remove_index se (world s)),
        after EvRemoveIndex (se_remove_index se (world s))).
Proof. exact (index_operations_run s se). Qed.

Lemma index_operations_with_index_witness :
  trace (snd (build_index Demo.indexed_state))
  = [EvNewSearchEngine (USE_FAISS true) 128 "models/m1"; EvCreateIndex;
     EvUpdateIndex]
  /\ _se (self (snd (remove_index Demo.indexed_state)))
     = _se (self Demo.indexed_state).
Proof.
  destruct (create_sim_search_has_index (USE_FAISS true) 128 Demo.tuning
              Demo.new_state) as [se H].
  destruct (index_operations_with_index Demo.indexed_state se H)
    as [_ [Hb Hr]].
  rewrite Hb, Hr. split; reflexivity.
Defined.

Lemma create_sim_search_first_run {PS : ParamStore} {CO : Collaborators}
    (BUILD : backend) (dim : Z) (output_params : OutputConnector)
    (s : state) :
  _se (self s) = None ->
  let se := tuned_SearchEngine BUILD (self s) dim output_params in
  create_sim_search BUILD dim output_params s
  = (match fst (se_create_index se (world s)) with
     | None => Ret tt
     | Some e => Throw e
     end,
     {| self := set_se (Some se) (self s); adg := adg s;
        world := snd (se_create_index se (world s));
        trace := trace s ++ [EvNewSearchEngine BUILD dim (_repo (self s));
                             EvCreateIndex] |}).
Proof.
  intros H. cbv zeta. unfold create_sim_search. run. rewrite H. run.
  rewrite backend_call_run. cbn [self adg world trace].
  rewrite <- app_assoc. reflexivity.
Qed.

(** The index object, once there, is never replaced nor dropped:
    whatever index operations follow, [remove_index] included, [_se]
    holds the same object with the dimension and the tuning it was built
    with.  None of these operations touches the repository path, the
    correspondence table or the caller's parameter set. *)
Theorem index_object_persists
    {PS : ParamStore} {CO : Collaborators}
    (BUILD : backend) (ops : list lifecycle_op) (s : state) :
  (forall se, _se (self s) = Some se ->
              _se (self (run_ops BUILD ops s)) = Some se)
  /\ _repo (self (run_ops BUILD ops s)) = _repo (self s)
  /\ _hcorresp (self (run_ops BUILD ops s)) = _hcorresp (self s)
  /\ _corresp (self (run_ops BUILD ops s)) = _corresp (self s)
  /\ _index_preload (self (run_ops BUILD ops s)) = _index_preload (self s)
  /\ adg (run_ops BUILD ops s) = adg s.
Proof.
  revert s. induction ops as [|op rest IH]; intros s.
  - repeat split. intros se H. exact H.
  - cbn [run_ops].
    assert (Hop : (forall se, _se (self s) = Some se ->
                     _se (self (snd (run_op BUILD op s))) = Some se)
                  /\ _repo (self (snd (run_op BUILD op s))) = _repo (self s)
                  /\ _hcorresp (self (snd (run_op BUILD op s)))
                     = _hcorresp (self s)
                  /\ _corresp (self (snd (run_op BUILD op s)))
                     = _corresp (self s)
                  /\ _index_preload (self (snd (run_op BUILD op s)))
                     = _index_preload (self s)
                  /\ adg (snd (run_op BUILD op s)) = adg s).
    { destruct (_se (self s)) as [se|] eqn:E.
      - destruct (index_operations_run s se E) as [Hc [Hb Hr]].
        cbv zeta in Hc, Hb, Hr.
        destruct op as [dim output_params | | |]; cbn [run_op].
        + rewrite (create_sim_search_existing _ _ _ _ _ E). cbn [snd].
          repeat split. intros se' H. rewrite <- H. exact E.
        + rewrite Hc. cbn [snd self adg]. repeat split.
          intros se' H. rewrite <- H. exact E.
        + rewrite Hb. cbn [snd self adg]. repeat split.
          intros se' H. rewrite <- H. exact E.
        + rewrite Hr. cbn [snd self adg]. repeat split.
          intros se' H. rewrite <- H. exact E.
      - destruct op as [dim output_params | | |]; cbn [run_op].
        + rewrite (create_sim_search_first_run _ _ _ _ E). cbn [snd self adg].
          repeat split. intros se' H. discriminate H.
        + unfold create_index. rewrite bind_run. unfold get_self.
          cbn [fst snd]. rewrite E. repeat split. intros se' H. discriminate H.
        + unfold build_index. rewrite bind_run. unfold get_self.
          cbn [fst snd]. rewrite E. repeat split. intros se' H. discriminate H.
        + unfold remove_index. rewrite bind_run. unfold get_self.
          cbn [fst snd]. rewrite E. repeat split. intros se' H.
          discriminate H. }
    destruct Hop as [H1 [H2 [H3 [H4 [H5 H6]]]]].
    destruct (IH (snd (run_op BUILD op s))) as [I1 [I2 [I3 [I4 [I5 I6]]]]].
    split; [intros se H; exact (I1 se (H1 se H))|].
    rewrite I2, I3, I4, I5, I6. repeat split; assumption.
Qed.

Lemma index_object_persists_witness :
  _se (self (run_ops (USE_FAISS true)
               [OpRemoveIndex; OpCreateSimSearch 64 Demo.no_tuning;
                OpBuildIndex]
               Demo.indexed_state))
  = _se (self Demo.indexed_state).
Proof.
  destruct (create_sim_search_has_index (USE_FAISS true) 128 Demo.tuning
              Demo.new_state) as [se H].
  rewrite (proj1 (index_object_persists (USE_FAISS true)
                    [OpRemoveIndex; OpCreateSimSearch 64 Demo.no_tuning;
                     OpBuildIndex]
                    Demo.indexed_state) se H).
  symmetry. exact H.
Defined.

(** When the creation of the index throws in [create_sim_search], the
    exception leaves the method but the object stays in [_se]: a second
    [create_sim_search] returns at once and does not try again. *)
Theorem create_sim_search_failure_not_retried
    {PS : ParamStore} {CO : Collaborators}
    (BUILD : backend) (s : state) (dim dim' : Z)
    (output_params output_params' : OutputConnector) (e : exn) :
  _se (self s) = None ->
  fst (se_create_index (tuned_SearchEngine BUILD (self s) dim output_params)
                       (world s)) = Some e ->
  let s1 := snd (create_sim_search BUILD dim output_params s) in
  fst (create_sim_search BUILD dim output_params s) = Throw e
  /\ _se (self s1)
     = Some (tuned_SearchEngine BUILD (self s) dim output_params)
  /\ create_sim_search BUILD dim' output_params' s1 = (Ret tt, s1).
Proof.
  intros Hnone Hthrow. cbv zeta.
  rewrite (create_sim_search_first_run BUILD dim output_params s Hnone).
  cbv zeta. rewrite Hthrow. cbn [fst snd]. split; [reflexivity|].
  split; [reflexivity|].
  apply (create_sim_search_existing _ _ _ _
           (tuned_SearchEngine BUILD (self s) dim output_params)).
  reflexivity.
Qed.

Lemma create_sim_search_failure_not_retried_witness :
  fst (create_sim_search USE_ANNOY 128 Demo.no_tuning Demo.failing_state)
  = Throw (backend_exception "cannot create index")
  /\ fst (create_sim_search USE_ANNOY 128 Demo.no_tuning
            (snd (create_sim_search USE_ANNOY 128 Demo.no_tuning
                                    Demo.failing_state)))
     = Ret tt.
Proof.
  destruct (create_sim_search_failure_not_retried USE_ANNOY
              Demo.failing_state 128 128 Demo.no_tuning Demo.no_tuning
              (backend_exception "cannot create index") eq_refl eq_refl)
    as [H1 [_ H3]].
  split; [exact H1|]. rewrite H3. reflexivity.
Defined.

(** Under [USE_FAISS] the first [create_sim_search] builds the object for
    the dimension and the repository, and each tuning field is the one
    given by the caller when it is given, the default of the backend
    otherwise.  The GPU fields are touched only under [USE_GPU_FAISS],
    where a list of devices turns the GPU on whatever [index_gpu] says. *)
Theorem create_sim_search_faiss_tuning
    {PS : ParamStore} {CO : Collaborators}
    (gpu_build : bool) (dim : Z) (output_params : OutputConnector)
    (s : state) :
  _se (self s) = None ->
  exists f : FaissSE,
    _se (self (snd (create_sim_search (USE_FAISS gpu_build) dim
                                      output_params s)))
    = Some {| se_dim := dim; se_repo := _repo (self s); _tse := TFaiss f |}
    /\ _index_key f
       = match index_type output_params with
         | Some v => v
         | None => _index_key (faiss_new dim (_repo (self s)))
         end
    /\ _train_samples_size f
       = match train_samples output_params with
         | Some v => v
         | None => _train_samples_size (faiss_new dim (_repo (self s)))
         end
    /\ _ondisk f
       = match ondisk output_params with
         | Some v => v
         | None => _ondisk (faiss_new dim (_repo (self s)))
         end
    /\ _nprobe f
       = match nprobe output_params with
         | Some v => v
         | None => _nprobe (faiss_new dim (_repo (self s)))
         end
    /\ _gpu f
       = (if gpu_build then
            match index_gpuid output_params with
            | Some _ => true
            | None => index_gpu output_params
            end
          else _gpu (faiss_new dim (_repo (self s))))
    /\ _gpuids f
       = (if gpu_build then
            match index_gpuid output_params with
            | Some ids => ids
            | None => _gpuids (faiss_new dim (_repo (self s)))
            end
          else _gpuids (faiss_new dim (_repo (self s)))).
Proof.
  intros H.
  rewrite (create_sim_search_first_run (USE_FAISS gpu_build) dim
             output_params s H).
  cbv zeta. cbn [snd self set_se _se tuned_SearchEngine].
  eexists. split; [reflexivity|].
  unfold tune_faiss, if_set.
  destruct output_params as [it ts od np ig ids].
  cbn [index_type train_samples ondisk nprobe index_gpu index_gpuid].
  destruct it, ts, od, np, ids, gpu_build; repeat split.
Qed.

Lemma create_sim_search_faiss_tuning_witness :
  exists f : FaissSE,
    _se (self (snd (create_sim_search (USE_FAISS false) 64 Demo.tuning
                                      Demo.new_state)))
    = Some {| se_dim := 64; se_repo := "models/m1"; _tse := TFaiss f |}
    /\ _index_key f = "IVF20,SQ8"
    /\ _train_samples_size f = 100000
    /\ _gpu f = false
    /\ _gpuids f = [].
Proof.
  destruct (create_sim_search_faiss_tuning false 64 Demo.tuning
              Demo.new_state eq_refl)
    as [f [H1 [H2 [H3 [_ [_ [H6 H7]]]]]]].
  exists f. repeat split; assumption.
Defined.

(** Under [USE_ANNOY] the first [create_sim_search] takes nothing from
    the tuning it is given: two calls that differ only by it do the same.
    The one field it sets, [_map_populate], is [_index_preload]. *)
Theorem create_sim_search_annoy
    {PS : ParamStore} {CO : Collaborators}
    (dim : Z) (output_params output_params' : OutputConnector) (s : state) :
  create_sim_search USE_ANNOY dim output_params s
  = create_sim_search USE_ANNOY dim output_params' s
  /\ (_se (self s) = None ->
      exists a : AnnoySE,
        _se (self (snd (create_sim_search USE_ANNOY dim output_params s)))
        = Some {| se_dim := dim; se_repo := _repo (self s);
                  _tse := TAnnoy a |}
        /\ _map_populate a = _index_preload (self s)).
Proof.
  split; [reflexivity|]. intros H.
  rewrite (create_sim_search_first_run USE_ANNOY dim output_params s H).
  cbv zeta. cbn [snd self set_se _se tuned_SearchEngine].
  eexists. split; reflexivity.
Qed.

Lemma create_sim_search_annoy_witness :
  exists a : AnnoySE,
    _se (self (snd (create_sim_search USE_ANNOY 128 Demo.tuning
                                      Demo.new_state)))
    = Some {| se_dim := 128; se_repo := "models/m1"; _tse := TAnnoy a |}
    /\ _map_populate a = false.
Proof.
  exact (proj2 (create_sim_search_annoy 128 Demo.tuning Demo.no_tuning
                  Demo.new_state) eq_refl).
Defined.

Lemma install_archive_self {PS : ParamStore} {CO : Collaborators}
    (ad : APIData) (logger : logger_ptr) (s : state) :
  self (snd (install_archive ad logger s)) = self s.
Proof. unfold install_archive. explore; reflexivity. Qed.

Lemma init_repo_dir_returns {PS : ParamStore} {CO : Collaborators}
    (ad : APIData) (logger : logger_ptr) (s : state) :
  fst (init_repo_dir ad logger s) = Ret tt ->
  checks_pass ad (world s) = true.
Proof.
  intros H. unfold checks_pass.
  destruct (conflict ad (world s)) eqn:Ec.
  { rewrite (init_repo_dir_conflict _ logger _ Ec) in H.
    destruct logger; discriminate H. }
  destruct (fs_is_directory_writable (world_after_create ad (world s))
                                     (repository ad)) eqn:Ew;
    [reflexivity|].
  rewrite (init_repo_dir_not_writable _ logger _ Ec Ew) in H.
  destruct logger; discriminate H.
Qed.

(** When [init_repo_dir] returns, [_index_preload] is set if it was set
    before or if [index_preload] is given and true in the parameters; the
    flag is what an Annoy index built afterwards takes as
    [_map_populate]. *)
Theorem init_repo_dir_index_preload
    {PS : ParamStore} {CO : Collaborators}
    (ad : APIData) (logger : logger_ptr) (s : state)
    (dim : Z) (output_params : OutputConnector) :
  fst (init_repo_dir ad logger s) = Ret tt ->
  let s1 := snd (init_repo_dir ad logger s) in
  let preload :=
    _index_preload (self s)
    || (ad_has ad "index_preload" && ad_get_bool ad "index_preload") in
  _index_preload (self s1) = preload
  /\ (_se (self s) = None ->
      _se (self (snd (create_sim_search USE_ANNOY dim output_params s1)))
      = Some {| se_dim := dim; se_repo := ad_get_string ad "repository";
                _tse := TAnnoy (with_map_populate preload
                                  (annoy_new dim
                                     (ad_get_string ad "repository"))) |}).
Proof.
  intros Hret. cbv zeta.
  pose proof (init_repo_dir_returns ad logger s Hret) as Hchecks.
  pose proof (proj1 (init_repo_dir_paths ad logger s)) as Hframe.
  cbv zeta in Hframe.
  destruct Hframe as [Hrepo [_ [_ [Hse _]]]].
  assert (Hp : _index_preload (self (snd (init_repo_dir ad logger s)))
               = _index_preload (self s)
                 || (ad_has ad "index_preload"
                     && ad_get_bool ad "index_preload")).
  { rewrite (init_repo_dir_checks _ _ _ Hchecks).
    assert (Ha : _index_preload (self (after_checks ad s))
                 = _index_preload (self s)
                   || (ad_has ad "index_preload"
                       && ad_get_bool ad "index_preload")).
    { unfold after_checks. cbn [self].
      destruct (ad_has ad "index_preload" && ad_get_bool ad "index_preload");
        cbn [_index_preload set_index_preload set_repo];
        [rewrite orb_true_r | rewrite orb_false_r]; reflexivity. }
    destruct (ad_has ad "init"); cbn [snd];
      [rewrite install_archive_self|]; exact Ha. }
  split; [exact Hp|]. intros Hnone.
  rewrite create_sim_search_first_run by (rewrite Hse; exact Hnone).
  cbv zeta. cbn [snd self set_se _se tuned_SearchEngine].
  rewrite Hp, Hrepo. reflexivity.
Qed.

Lemma init_repo_dir_index_preload_witness :
  _index_preload (self (snd (init_repo_dir Demo.create_ad nullptr
                                           Demo.empty_state)))
  = true.
Proof.
  exact (proj1 (init_repo_dir_index_preload Demo.create_ad nullptr
                  Demo.empty_state 128 Demo.no_tuning eq_refl)).
Defined.

(** ** Lookups in the table, once more *)

Lemma get_hcorresp_corresp (i : Z) (m : MLModel) :
  _corresp (snd (get_hcorresp i m)) = _corresp m.
Proof.
  unfold get_hcorresp. destruct (hcorresp_empty (_hcorresp m)); [reflexivity|].
  destruct (hcorresp_subscript i (_hcorresp m)). reflexivity.
Qed.

(** A lookup can be repeated: the second [get_hcorresp(i)] returns what
    the first returned and leaves the object as the first left it.  What
    the table holds for the other indices is never changed by it, nor are
    the other fields of the object. *)
Theorem get_hcorresp_repeatable (i j : Z) (m : MLModel) :
  get_hcorresp i (snd (get_hcorresp i m)) = get_hcorresp i m
  /\ (j <> i ->
      _hcorresp (snd (get_hcorresp i m)) !! j = _hcorresp m !! j)
  /\ _repo (snd (get_hcorresp i m)) = _repo m
  /\ _corresp (snd (get_hcorresp i m)) = _corresp m
  /\ _se (snd (get_hcorresp i m)) = _se m
  /\ _index_preload (snd (get_hcorresp i m)) = _index_preload m.
Proof.
  destruct (decide (_hcorresp m = ∅)) as [He|Hne].
  { rewrite (get_hcorresp_empty i m He). cbn [snd].
    rewrite (get_hcorresp_empty i m He). repeat split. }
  destruct (_hcorresp m !! i) as [v|] eqn:Hi.
  { rewrite (get_hcorresp_present i m v Hi). cbn [snd].
    rewrite (get_hcorresp_present i m v Hi). repeat split. }
  rewrite (get_hcorresp_absent i m Hi Hne). cbn [snd].
  split; [|split; [|repeat split]].
  - rewrite (get_hcorresp_present i _ "").
    + reflexivity.
    + cbn [_hcorresp set_hcorresp]. apply lookup_insert_eq.
  - intros Hj. cbn [_hcorresp set_hcorresp].
    apply lookup_insert_ne. congruence.
Qed.

Lemma get_hcorresp_repeatable_witness :
  _hcorresp (snd (get_hcorresp 7 (Demo.loaded Demo.cat_dog_file))) !! 5
  = _hcorresp (Demo.loaded Demo.cat_dog_file) !! 5.
Proof.
  apply (proj1 (proj2 (get_hcorresp_repeatable
                         7 5 (Demo.loaded Demo.cat_dog_file)))).
  discriminate.
Defined.

(** A lookup before a load hides the label: once [get_hcorresp(i)] has
    run on a table that is not empty and does not hold [i], a file loaded
    afterwards cannot give [i] its label, since the empty label is there
    and [insert] keeps it. *)
Theorem lookup_before_load_keeps_empty_label
    {PS : ParamStore} {CO : Collaborators}
    (s : state) (content : string) (i : Z) :
  _hcorresp (self s) !! i = None ->
  _hcorresp (self s) <> ∅ ->
  Str.empty (_corresp (self s)) = false ->
  fs_ifstream (world s) (_corresp (self s)) = Some content ->
  forallb line_passes (stream_lines content) = true ->
  let looked := {| self := snd (get_hcorresp i (self s)); adg := adg s;
                   world := world s; trace := trace s |} in
  _hcorresp (self (snd (read_corresp_file looked))) !! i = Some ""
  /\ fst (get_hcorresp i (self (snd (read_corresp_file looked)))) = "".
Proof.
  intros Hi Hne Hpath Hopen Hall looked.
  assert (Hl : _hcorresp (self looked) !! i = Some "").
  { unfold looked. cbn [self]. rewrite (get_hcorresp_absent i _ Hi Hne).
    cbn [snd _hcorresp set_hcorresp]. apply lookup_insert_eq. }
  assert (Hp : Str.empty (_corresp (self looked)) = false).
  { unfold looked. cbn [self].
    rewrite get_hcorresp_corresp. exact Hpath. }
  assert (Ho : fs_ifstream (world looked) (_corresp (self looked))
               = Some content).
  { unfold looked. cbn [self world].
    rewrite get_hcorresp_corresp. exact Hopen. }
  destruct (read_corresp_file_lookup looked content i Hp Ho Hall)
    as [_ [H _]].
  rewrite Hl in H. split; [exact H|].
  rewrite (get_hcorresp_present _ _ _ H). reflexivity.
Qed.

Lemma lookup_before_load_keeps_empty_label_witness :
  fst (get_hcorresp 9
         (self (snd (read_corresp_file
                       {| self := snd (get_hcorresp 9
                                         (Demo.loaded Demo.cat_dog_file));
                          adg := adg (Demo.corresp_state "9 fish");
                          world := world (Demo.corresp_state "9 fish");
                          trace := [] |}))))
  = "".
Proof.
  assert (Hne : _hcorresp (Demo.loaded Demo.cat_dog_file) <> ∅).
  { intros E. apply (f_equal (fun h => h !! 3)) in E.
    vm_compute in E. discriminate. }
  exact (proj2 (lookup_before_load_keeps_empty_label
                  {| self := Demo.loaded Demo.cat_dog_file;
                     adg := adg (Demo.corresp_state "9 fish");
                     world := world (Demo.corresp_state "9 fish");
                     trace := [] |}
                  "9 fish" 9 eq_refl Hne eq_refl eq_refl eq_refl)).
Defined.
